(** * Daily top-5 task tracker: streaks, badges, insights and the daily
      capacity policy

    A shallow embedding of the computational core of the tracker
    ([src/App.tsx], the [Gamification] component and
    [src/components/AIInsights.tsx]) together with the properties its
    specification states about it, followed by the rest of [src/App.tsx]
    (retries, settings, additional tasks, onboarding) and the
    [OnboardingWizard], [MagicalCompletion] and [IdleDetection] components
    with properties read off their code.

    Conventions of the embedding:
    - a JavaScript [number] that only ever holds a count or an index is a
      [nat] or a [Z]; a [number] that takes part in a division is an IEEE 754
      binary64 value ([float], the kernel's primitive floats), so that
      comparisons against decimal literals such as [0.7] mean what they mean
      in the running program;
    - strings that are only compared or used as property names are [string]s;
      a string that is trimmed is a list of UTF-16 code units;
    - an object used as a dictionary is a [gmap] of its own properties, next
      to the property names it inherits from [Object.prototype];
    - [async] functions are run to completion; every awaited store call takes
      its outcome (fulfilled or rejected) as an argument of the transition.
      The award loop of [Gamification] is modelled a second time across its
      [await]s ([Awarding]), where the renders in between matter. *)

From Stdlib Require Import ZArith List String Ascii Bool Lia Floats Uint63 Permutation.
From stdpp Require Import gmap strings list.
Import ListNotations.

(** ** The JavaScript runtime the components rely on *)

Module JS.

Inductive error := TypeError.

(** The completion of a statement list: normal, or abrupt by a [throw]. *)
Inductive completion (A : Type) :=
  | Normal (a : A)
  | Throw (e : error).
Arguments Normal {A} a.
Arguments Throw {A} e.

(** The property names every ordinary object inherits from
    [Object.prototype]. Reading one of them on an object literal [{}] yields
    a function (or, for [__proto__], the prototype object), never
    [undefined]. *)
Definition objectPrototypeNames : list string :=
  [ "constructor"; "__defineGetter__"; "__defineSetter__"; "hasOwnProperty";
    "__lookupGetter__"; "__lookupSetter__"; "isPrototypeOf";
    "propertyIsEnumerable"; "toString"; "valueOf"; "__proto__";
    "toLocaleString" ]%string.

Definition inherited (k : string) : bool :=
  existsb (String.eqb k) objectPrototypeNames.

(** *** [Date.prototype.toISOString().split('T')[0]]

    A date is identified by its UTC day number (days since 1970-01-01).
    [civilFromDays] is the proleptic Gregorian calendar of ECMAScript's
    [YearFromTime], [MonthFromTime] and [DateFromTime]. *)
Definition civilFromDays (day : Z) : Z * Z * Z :=
  let z := (day + 719468)%Z in
  let era := (z / 146097)%Z in
  let doe := (z - era * 146097)%Z in
  let yoe := ((doe - doe / 1460 + doe / 36524 - doe / 146096) / 365)%Z in
  let doy := (doe - (365 * yoe + yoe / 4 - yoe / 100))%Z in
  let mp := ((5 * doy + 2) / 153)%Z in
  let d := (doy - (153 * mp + 2) / 5 + 1)%Z in
  let m := (if mp <? 10 then mp + 3 else mp - 9)%Z in
  let y := (yoe + era * 400)%Z in
  ((if m <=? 2 then y + 1 else y)%Z, m, d).

Definition digit (n : Z) : ascii := ascii_of_nat (48 + Z.to_nat (n mod 10)).

Definition pad2 (n : Z) : string :=
  String (digit (n / 10)) (String (digit n) EmptyString).

Definition pad4 (n : Z) : string :=
  String (digit (n / 1000)) (String (digit (n / 100)) (pad2 n)).

Definition pad6 (n : Z) : string :=
  String (digit (n / 100000)) (String (digit (n / 10000)) (pad4 n)).

(** Years 0 to 9999 print with four digits, all others as an expanded year
    with a sign and six digits. *)
Definition yearString (y : Z) : string :=
  if ((0 <=? y) && (y <=? 9999))%Z then pad4 y
  else if (y <? 0)%Z then String "-"%char (pad6 (- y))
  else String "+"%char (pad6 y).

Definition toISODateString (day : Z) : string :=
  let '(y, m, d) := civilFromDays day in
  yearString y +:+ "-" +:+ pad2 m +:+ "-" +:+ pad2 d.

(** *** [String.prototype.trim]

    A string is a list of UTF-16 code units; [isWhiteSpace] is ECMAScript's
    WhiteSpace and LineTerminator code points. *)
Definition isWhiteSpace (c : N) : bool :=
  existsb (N.eqb c)
    [9; 10; 11; 12; 13; 32; 160; 5760; 8232; 8233; 8239; 8287; 12288; 65279]%N
  || ((8192 <=? c) && (c <=? 8202))%N.

Fixpoint trimStart (s : list N) : list N :=
  match s with
  | c :: rest => if isWhiteSpace c then trimStart rest else s
  | [] => []
  end.

Definition trimEnd (s : list N) : list N := rev (trimStart (rev s)).

Definition trim (s : list N) : list N := trimEnd (trimStart s).

(** The code units of an ASCII literal. *)
Definition utf16 (s : string) : list N :=
  map N_of_ascii (list_ascii_of_string s).

(** *** Numbers *)

Definition ofZ (z : Z) : float :=
  match z with
  | Z0 => PrimFloat.zero
  | Zpos _ => of_uint63 (Uint63.of_Z z)
  | Zneg _ => (- of_uint63 (Uint63.of_Z (- z)))%float
  end.

(** The [number] of a length or a count (exact below 2^53). *)
Definition ofNat (n : nat) : float := ofZ (Z.of_nat n).

(** A number as a condition: neither [0], [-0] nor [NaN]. *)
Definition truthy (x : float) : bool := negb (PrimFloat.is_nan x || PrimFloat.is_zero x).

(** [Math.max] of two arguments: [NaN] if either is, and [+0] above [-0]. *)
Definition mathMax (a b : float) : float :=
  if PrimFloat.is_nan a || PrimFloat.is_nan b then nan
  else if (a <? b)%float then b
  else if (b <? a)%float then a
  else if PrimFloat.get_sign a then b else a.

(** [Math.round]: the nearest integer, ties towards +infinity, computed
    exactly on the value [m * 2^e] of the argument. *)
Definition mathRound (x : float) : float :=
  match Prim2SF x with
  | S754_finite s m e =>
      if (0 <=? e)%Z then x
      else
        let num := if s then Z.neg m else Z.pos m in
        let den := (2 ^ (- e))%Z in
        let r := ((2 * num + den) / (2 * den))%Z in
        if (r =? 0)%Z then (if s then PrimFloat.neg_zero else PrimFloat.zero) else ofZ r
  | _ => x
  end.

End JS.

(** ** [src/App.tsx] *)

Module App.
Import JS.

(** [interface Task]; an optional field is an [option]. *)
Record Task := mkTask {
  id : string;
  title : list N;
  priority : Z;
  completed : bool;
  date : string;
  user_id : string;
  category : option string;
  estimated_minutes : option Z;
  actual_minutes : option Z;
  energy_level : option string
}.

(** *** [calculateStreak] *)

(** One step of the [reduce] that groups the records by date. [acc] holds the
    own properties of the accumulator object. When [acc[date]] is falsy the
    key gets a fresh array; an inherited property is truthy, so no array is
    created and [acc[date].push] is not a function. *)
Definition groupStep (acc : completion (gmap string (list Task))) (task : Task)
  : completion (gmap string (list Task)) :=
  match acc with
  | Throw e => Throw e
  | Normal m =>
      let date := date task in
      match m !! date with
      | Some l => Normal (<[date := l ++ [task]]> m)
      | None =>
          if inherited date then Throw TypeError
          else Normal (<[date := [task]]> m)
      end
  end.

Definition groupByDate (completedTasks : list Task)
  : completion (gmap string (list Task)) :=
  foldl groupStep (Normal ∅) completedTasks.

Section Streak.

(** [checkDay i] is the UTC day number of [checkDate] in iteration [i] of the
    loop, that is of [today] moved back by [i] days of local time
    ([checkDate.setDate(today.getDate() - i)]). It is the runtime's, so it is
    a parameter here. *)
Variable checkDay : nat -> Z.

(** [for (let i = 0; i < 365; i++) { ... streak++ ... else break }], with
    [remaining = 365 - i]. [dateStr] is an ISO date, which never names an
    inherited property ([StreakProofs.toISODateString_own]), so
    [tasksByDate[dateStr]] reads an own property or [undefined]. *)
Fixpoint streakLoop (tasksByDate : gmap string (list Task))
    (remaining i streak : nat) : nat :=
  match remaining with
  | O => streak
  | S remaining' =>
      let dateStr := toISODateString (checkDay i) in
      match tasksByDate !! dateStr with
      | Some l =>
          if (0 <? length l)%nat
          then streakLoop tasksByDate remaining' (S i) (S streak)
          else streak
      | None => streak
      end
  end.

(** The result is the argument of the one [setCurrentStreak] call that is
    reached, or the exception that escapes. *)
Definition calculateStreak (completedTasks : list Task) : completion nat :=
  if (length completedTasks =? 0)%nat then Normal 0%nat
  else
    match groupByDate completedTasks with
    | Throw e => Throw e
    | Normal tasksByDate => Normal (streakLoop tasksByDate 365 0 0)
    end.

End Streak.

(** In a time zone with a fixed UTC offset, moving back by [i] local days
    moves the UTC day back by [i]. *)
Definition utcCheckDay (today : Z) (i : nat) : Z := (today - Z.of_nat i)%Z.

(** *** The component's state and the record store

    [user] is [user?.id] and [selectedDate] the UTC day number of the
    selected date. [db] and [calls] are not state of the component: [db]
    holds the rows of the store's [tasks] table and [calls] logs the store
    calls the component has issued, oldest first; [toasts] are the
    notifications shown. *)

Inductive StoreCall :=
  | TasksList (user_id date : string)
  | TasksListCompleted (user_id : string)
  | TasksCreate (record : Task)
  | TasksUpdateCompleted (id : string) (completed : bool)
  | TasksUpdatePriority (id : string) (priority : Z).

Inductive Toast :=
  | ToastDailyLimit (dailyTaskLimit : Z)
  | ToastTaskAdded
  | ToastAddFailed
  | ToastTaskCompleted
  | ToastUpdateFailed
  | ToastPriorityUpdated
  | ToastPriorityFailed.

Record State := mkState {
  user : option string;
  tasks : list Task;
  newTaskTitle : list N;
  isCreatingTask : bool;
  selectedDate : Z;
  currentStreak : nat;
  completedTasksHistory : list Task;
  dailyTaskLimit : Z;
  toasts : list Toast;
  db : list Task;
  calls : list StoreCall
}.

(** [user?.id] as a condition: the user is signed in and the id is not the
    empty string. *)
Definition userId (st : State) : option string :=
  match user st with
  | Some uid => if String.eqb uid "" then None else Some uid
  | None => None
  end.

(** Modelled from the spec: the record store ([blink.db], an SDK outside the
    repository), by its contract in section 6 of the specification: [create]
    adds the record, [update] patches the record with the given id, [list]
    returns the records matching an equality filter in the requested order.
    A rejected call changes nothing. *)
Definition storeCreate (record : Task) (rows : list Task) : list Task :=
  rows ++ [record].

(** [{ ...task, priority: p }] and [{ ...task, completed: c }]. *)
Definition setPriority (p : Z) (t : Task) : Task :=
  mkTask (id t) (title t) p (completed t) (date t) (user_id t)
    (category t) (estimated_minutes t) (actual_minutes t) (energy_level t).

Definition setCompleted (c : bool) (t : Task) : Task :=
  mkTask (id t) (title t) (priority t) c (date t) (user_id t)
    (category t) (estimated_minutes t) (actual_minutes t) (energy_level t).

Definition storeUpdate (taskId : string) (patch : Task -> Task)
    (rows : list Task) : list Task :=
  map (fun t => if String.eqb (id t) taskId then patch t else t) rows.

(** [orderBy: { priority: 'asc' }], rows of equal priority in table order. *)
Fixpoint insertByPriority (t : Task) (sorted : list Task) : list Task :=
  match sorted with
  | [] => [t]
  | u :: rest =>
      if (priority u <=? priority t)%Z then u :: insertByPriority t rest
      else t :: u :: rest
  end.

Definition orderByPriority (rows : list Task) : list Task :=
  foldl (fun sorted t => insertByPriority t sorted) [] rows.

Definition storeListDay (uid dateStr : string) (rows : list Task) : list Task :=
  orderByPriority
    (List.filter (fun t => String.eqb (user_id t) uid && String.eqb (date t) dateStr)
            rows).

Definition dateStr (st : State) : string := toISODateString (selectedDate st).

Definition logCall (c : StoreCall) (st : State) : State :=
  mkState (user st) (tasks st) (newTaskTitle st) (isCreatingTask st)
    (selectedDate st) (currentStreak st) (completedTasksHistory st)
    (dailyTaskLimit st) (toasts st) (db st) (calls st ++ [c]).

Definition toast (t : Toast) (st : State) : State :=
  mkState (user st) (tasks st) (newTaskTitle st) (isCreatingTask st)
    (selectedDate st) (currentStreak st) (completedTasksHistory st)
    (dailyTaskLimit st) (toasts st ++ [t]) (db st) (calls st).

Definition setTasks (ts : list Task) (st : State) : State :=
  mkState (user st) ts (newTaskTitle st) (isCreatingTask st)
    (selectedDate st) (currentStreak st) (completedTasksHistory st)
    (dailyTaskLimit st) (toasts st) (db st) (calls st).

Definition setNewTaskTitle (s : list N) (st : State) : State :=
  mkState (user st) (tasks st) s (isCreatingTask st)
    (selectedDate st) (currentStreak st) (completedTasksHistory st)
    (dailyTaskLimit st) (toasts st) (db st) (calls st).

Definition setIsCreatingTask (b : bool) (st : State) : State :=
  mkState (user st) (tasks st) (newTaskTitle st) b
    (selectedDate st) (currentStreak st) (completedTasksHistory st)
    (dailyTaskLimit st) (toasts st) (db st) (calls st).

Definition setCurrentStreak (n : nat) (st : State) : State :=
  mkState (user st) (tasks st) (newTaskTitle st) (isCreatingTask st)
    (selectedDate st) n (completedTasksHistory st)
    (dailyTaskLimit st) (toasts st) (db st) (calls st).

Definition setCompletedTasksHistory (h : list Task) (st : State) : State :=
  mkState (user st) (tasks st) (newTaskTitle st) (isCreatingTask st)
    (selectedDate st) (currentStreak st) h
    (dailyTaskLimit st) (toasts st) (db st) (calls st).

Definition setDb (rows : list Task) (st : State) : State :=
  mkState (user st) (tasks st) (newTaskTitle st) (isCreatingTask st)
    (selectedDate st) (currentStreak st) (completedTasksHistory st)
    (dailyTaskLimit st) (toasts st) rows (calls st).

(** *** [loadTasks]

    [listOk] tells whether the list call (after its retries) is fulfilled. *)
Definition loadTasks (listOk : bool) (st : State) : State :=
  match userId st with
  | None => st
  | Some uid =>
      let st := logCall (TasksList uid (dateStr st)) st in
      if listOk then setTasks (storeListDay uid (dateStr st) (db st)) st
      else setTasks [] st
  end.

(** *** [loadCompletedTasksHistory]

    [historyData] is the answer of the history query, [None] when the call is
    rejected. An exception of [calculateStreak] is caught by the same
    handler. *)
Definition loadCompletedTasksHistory (checkDay : nat -> Z)
    (historyData : option (list Task)) (st : State) : State :=
  match userId st with
  | None => st
  | Some uid =>
      let st := logCall (TasksListCompleted uid) st in
      match historyData with
      | None => setCurrentStreak 0 (setCompletedTasksHistory [] st)
      | Some h =>
          let st := setCompletedTasksHistory h st in
          match calculateStreak checkDay h with
          | Normal streak => setCurrentStreak streak st
          | Throw _ => setCurrentStreak 0 (setCompletedTasksHistory [] st)
          end
      end
  end.

(** *** [addTask]

    [newId] is the id built from [Date.now()] and [Math.random()];
    [createOk] tells whether the store fulfils the create call. *)

(** The daily capacity policy: a task may be added while the guard
    [tasks.length >= settings.dailyTaskLimit] of [addTask] (and of the input's
    [disabled] attribute) is false. *)
Definition canAddTask (currentCount : nat) (dailyLimit : Z) : bool :=
  negb (dailyLimit <=? Z.of_nat currentCount)%Z.

Definition addTask (newId : string) (createOk : bool) (st : State) : State :=
  match userId st with
  | None => st
  | Some uid =>
      match trim (newTaskTitle st) with
      | [] => st
      | _ :: _ =>
          if isCreatingTask st then st
          else if (dailyTaskLimit st <=? Z.of_nat (length (tasks st)))%Z
          then toast (ToastDailyLimit (dailyTaskLimit st)) st
          else
            let newTask :=
              mkTask newId (trim (newTaskTitle st))
                (Z.of_nat (length (tasks st)) + 1) false (dateStr st) uid
                (Some "general"%string) (Some 30%Z) None
                (Some "medium"%string) in
            let st := logCall (TasksCreate newTask) (setIsCreatingTask true st) in
            let st :=
              if createOk then
                let st := setDb (storeCreate newTask (db st)) st in
                let st := setTasks (tasks st ++ [newTask]) st in
                toast ToastTaskAdded (setNewTaskTitle [] st)
              else toast ToastAddFailed st in
            setIsCreatingTask false st
      end
  end.

(** *** [toggleTask]

    [updateOk] is the outcome of the update call, [reloadOk] that of the list
    call of the [loadTasks] in the handler, [historyData] the answer to the
    history query that refreshes the streak. *)
Definition toggleTask (checkDay : nat -> Z) (taskId : string)
    (updateOk reloadOk : bool) (historyData : option (list Task))
    (st : State) : State :=
  match find (fun t => String.eqb (id t) taskId) (tasks st) with
  | None => st
  | Some task =>
      let isCompleting := negb (completed task) in
      let st :=
        setTasks
          (map (fun t => if String.eqb (id t) taskId
                         then setCompleted isCompleting t else t) (tasks st))
          st in
      let st := logCall (TasksUpdateCompleted taskId isCompleting) st in
      if updateOk then
        let st := setDb (storeUpdate taskId (setCompleted isCompleting) (db st)) st in
        if isCompleting
        then loadCompletedTasksHistory checkDay historyData
               (toast ToastTaskCompleted st)
        else st
      else loadTasks reloadOk (toast ToastUpdateFailed st)
  end.

(** *** [movePriority] *)

Inductive Direction := up | down.

(** [tasks.findIndex(t => t.id === taskId)], [None] for [-1]. *)
Fixpoint findIndex (taskId : string) (l : list Task) : option nat :=
  match l with
  | [] => None
  | t :: rest =>
      if String.eqb (id t) taskId then Some 0%nat
      else option_map S (findIndex taskId rest)
  end.

(** [newTasks.splice(newIndex, 0, movedTask)]. *)
Definition spliceIn (newIndex : nat) (movedTask : Task) (l : list Task)
  : list Task :=
  take newIndex l ++ movedTask :: drop newIndex l.

(** [newTasks.map((task, index) => ({ ...task, priority: index + 1 }))]. *)
Definition renumber (newTasks : list Task) : list Task :=
  imap (fun index task => setPriority (Z.of_nat index + 1) task) newTasks.

(** The [for ... of] loop of awaited priority updates. [rejectAt = Some k]
    means that the update of iteration [k] (from 0) is rejected, which leaves
    the loop; [None] that every update is fulfilled. The boolean tells
    whether the loop ran to its end. *)
Fixpoint updatePriorities (rejectAt : option nat) (updatedTasks : list Task)
    (st : State) : State * bool :=
  match updatedTasks with
  | [] => (st, true)
  | task :: rest =>
      let st := logCall (TasksUpdatePriority (id task) (priority task)) st in
      match rejectAt with
      | Some O => (st, false)
      | _ =>
          updatePriorities (option_map Nat.pred rejectAt) rest
            (setDb (storeUpdate (id task) (setPriority (priority task)) (db st))
                   st)
      end
  end.

Definition movePriority (taskId : string) (direction : Direction)
    (rejectAt : option nat) (reloadOk : bool) (st : State) : State :=
  match findIndex taskId (tasks st) with
  | None => st
  | Some taskIndex =>
      let newIndex :=
        match direction with
        | up => (Z.of_nat taskIndex - 1)%Z
        | down => (Z.of_nat taskIndex + 1)%Z
        end in
      if ((newIndex <? 0) || (Z.of_nat (length (tasks st)) <=? newIndex))%Z
      then st
      else
        match tasks st !! taskIndex with
        | None => st
        | Some movedTask =>
            let newTasks :=
              spliceIn (Z.to_nat newIndex) movedTask
                (delete taskIndex (tasks st)) in
            let updatedTasks := renumber newTasks in
            let st := setTasks updatedTasks st in
            match updatePriorities rejectAt updatedTasks st with
            | (st, true) => toast ToastPriorityUpdated st
            | (st, false) => loadTasks reloadOk (toast ToastPriorityFailed st)
            end
        end
  end.

End App.

(** ** The dates the streak loop checks (App.tsx, [calculateStreak], the
       three statements that open the loop body) *)

Module Dates.
Import JS.
Local Open Scope Z_scope.

(** *** The runtime: [Date]

    A [Date] holds a time value, the milliseconds since 1970-01-01T00:00Z.
    The time values met here lie within [maxTime] of the epoch, where
    [TimeClip] changes nothing. *)
Definition msPerDay : Z := 86400000.
Definition maxTime : Z := 8640000000000000.

Definition Day (t : Z) : Z := t / msPerDay.
Definition TimeWithinDay (t : Z) : Z := t mod msPerDay.
Definition DateFromTime (t : Z) : Z := snd (civilFromDays (Day t)).
Definition MakeDate (day time : Z) : Z := day * msPerDay + time.

(** [MakeDay(YearFromTime(t), MonthFromTime(t), dt)]: the day number of the
    first of the month of [t], moved on by [dt - 1] days. *)
Definition firstOfMonth (t : Z) : Z := Day t - (DateFromTime t - 1).
Definition MakeDayInMonthOf (t dt : Z) : Z := firstOfMonth t + dt - 1.

(** The time zone of the runtime: [offsetAtUTC t] is [LocalTZA(t, true)],
    the offset in force at the UTC time [t]; [offsetAtLocal t] is
    [LocalTZA(t, false)], the offset by which the local time [t] is read (a
    local time that a transition skips or repeats is read with the offset
    before the transition). *)
Record TimeZone := mkTimeZone {
  offsetAtUTC : Z -> Z;
  offsetAtLocal : Z -> Z
}.

Definition LocalTime (tz : TimeZone) (t : Z) : Z := t + offsetAtUTC tz t.
Definition UTC (tz : TimeZone) (t : Z) : Z := t - offsetAtLocal tz t.

(** [Date.prototype.getDate] and [Date.prototype.setDate] on the time value
    [t]; [setDate] gives the new time value. *)
Definition getDate (tz : TimeZone) (t : Z) : Z := DateFromTime (LocalTime tz t).

Definition setDate (tz : TimeZone) (dt : Z) (t : Z) : Z :=
  let local := LocalTime tz t in
  UTC tz (MakeDate (MakeDayInMonthOf local dt) (TimeWithinDay local)).

(** *** The loop body

    [const checkDate = new Date(today);
     checkDate.setDate(today.getDate() - i);
     const dateStr = checkDate.toISOString().split('T')[0]]:
    [checkDate today i] is the time value of [checkDate], and [dateStr]
    prints the UTC day [checkDayOf today i] of it. *)
Definition checkDate (tz : TimeZone) (today : Z) (i : nat) : Z :=
  setDate tz (getDate tz today - Z.of_nat i) today.

Definition checkDayOf (tz : TimeZone) (today : Z) (i : nat) : Z :=
  Day (checkDate tz today i).

(** *** Two time zones *)

(** A zone that keeps one offset all year. *)
Definition fixedOffset (c : Z) : TimeZone := mkTimeZone (fun _ => c) (fun _ => c).

(** Central European time in 2026: UTC+2 from 2026-03-29T01:00Z to
    2026-10-25T01:00Z, UTC+1 otherwise. On the local clock summer time
    spans 03:00 on the first of these days to 03:00 on the second. *)
Definition hour : Z := 3600000.
Definition summerStart : Z := 20541 * msPerDay.
Definition summerEnd : Z := 20751 * msPerDay.

Definition centralEurope : TimeZone :=
  mkTimeZone
    (fun t => if (summerStart + hour <=? t) && (t <? summerEnd + hour)
              then 2 * hour else hour)
    (fun t => if (summerStart + 3 * hour <=? t) && (t <? summerEnd + 3 * hour)
              then 2 * hour else hour).

End Dates.

(** ** The [Gamification] component *)

Module Gamification.
Import JS.

(** The object serialised into [badge_data]. *)
Record BadgeData := mkBadgeData {
  streak : float;
  weeklyProgress : float
}.

(** [interface Badge]. *)
Record Badge := mkBadge {
  id : string;
  user_id : string;
  badge_type : string;
  earned_at : string;
  badge_data : BadgeData
}.

(** [interface GamificationProps]; [user] is [user?.id]. *)
Record Props := mkProps {
  user : option string;
  currentStreak : float;
  completedTasksThisWeek : float;
  totalTasksThisWeek : float
}.

(** [existingBadgeTypes.includes(badgeType)]. *)
Definition includes (existingBadgeTypes : list string) (badgeType : string)
  : bool :=
  existsb (String.eqb badgeType) existingBadgeTypes.

(** [(completedTasksThisWeek / weeklyGoal) * 100]. *)
Definition weeklyProgressOf (completedTasksThisWeek weeklyGoal : float)
  : float :=
  (completedTasksThisWeek / weeklyGoal * 100)%float.

(** The eligibility checks of [checkAndAwardBadges]: the value of
    [newBadges] when the award loop starts. *)
Definition newBadges (existingBadgeTypes : list string)
    (currentStreak completedTasksThisWeek weeklyGoal : float) : list string :=
  let newBadges := [] in
  let newBadges :=
    if (3 <=? currentStreak)%float && negb (includes existingBadgeTypes "streak_3")
    then newBadges ++ ["streak_3"%string] else newBadges in
  let newBadges :=
    if (7 <=? currentStreak)%float && negb (includes existingBadgeTypes "streak_7")
    then newBadges ++ ["streak_7"%string] else newBadges in
  let newBadges :=
    if (14 <=? currentStreak)%float && negb (includes existingBadgeTypes "streak_14")
    then newBadges ++ ["streak_14"%string] else newBadges in
  let newBadges :=
    if (30 <=? currentStreak)%float && negb (includes existingBadgeTypes "streak_30")
    then newBadges ++ ["streak_30"%string] else newBadges in
  let weeklyProgress := weeklyProgressOf completedTasksThisWeek weeklyGoal in
  if (100 <=? weeklyProgress)%float && negb (includes existingBadgeTypes "weekly_goal")
  then newBadges ++ ["weekly_goal"%string] else newBadges.

Inductive StoreCall :=
  | UserBadgesList (user_id : string)
  | UserBadgesCreate (record : Badge).

(** The component: its props and state, the rows of the store's
    [userBadges] table, and what it has done so far ([calls]: store calls,
    oldest first; [checks]: how many times the eligibility checks have run;
    [toasts]: the badge types announced). *)
Record State := mkState {
  props : Props;
  badges : list Badge;
  weeklyGoal : float;
  showNewBadge : option string;
  db : list Badge;
  calls : list StoreCall;
  checks : nat;
  toasts : list string
}.

Definition userId (st : State) : option string :=
  match user (props st) with
  | Some uid => if String.eqb uid "" then None else Some uid
  | None => None
  end.

(** What the runtime and the store contribute to one run of the award loop:
    per badge type, the readings of [Date.now()] and
    [new Date().toISOString()], and whether the create call is fulfilled. *)
Record Env := mkEnv {
  now : string -> string;
  isoNow : string -> string;
  createOk : string -> bool
}.

Definition initial (p : Props) (rows : list Badge) : State :=
  mkState p [] 35 None rows [] 0 [].

(** One iteration of [for (const badgeType of newBadges)]. The loop reads
    [currentStreak] and [weeklyProgress] of the render that created the
    callback. *)
Definition award (env : Env) (uid : string) (currentStreak weeklyProgress : float)
    (st : State) (badgeType : string) : State :=
  let newBadge :=
    mkBadge ("badge_" +:+ now env badgeType +:+ "_" +:+ badgeType) uid
      badgeType (isoNow env badgeType)
      (mkBadgeData currentStreak (mathRound weeklyProgress)) in
  let calls' := calls st ++ [UserBadgesCreate newBadge] in
  if createOk env badgeType then
    mkState (props st) (newBadge :: badges st) (weeklyGoal st) (Some badgeType)
      (db st ++ [newBadge]) calls' (checks st) (toasts st ++ [badgeType])
  else
    mkState (props st) (badges st) (weeklyGoal st) (showNewBadge st)
      (db st) calls' (checks st) (toasts st).

(** One call of [checkAndAwardBadges], from its checks to the end of its
    loop, with nothing else happening in between. What the renders between
    its [await]s add is the matter of [Awarding] below. *)
Definition checkAndAwardBadges (env : Env) (st : State) : State :=
  match userId st with
  | None => st
  | Some uid =>
      let existingBadgeTypes := map badge_type (badges st) in
      let currentStreak := currentStreak (props st) in
      let completed := completedTasksThisWeek (props st) in
      let new := newBadges existingBadgeTypes currentStreak completed (weeklyGoal st) in
      let st :=
        mkState (props st) (badges st) (weeklyGoal st) (showNewBadge st)
          (db st) (calls st) (S (checks st)) (toasts st) in
      foldl (award env uid currentStreak (weeklyProgressOf completed (weeklyGoal st)))
        st new
  end.

(** The second effect: [if (badges.length > 0) checkAndAwardBadges()]. *)
Definition awardEffect (env : Env) (st : State) : State :=
  if (0 <? length (badges st))%nat then checkAndAwardBadges env st else st.

(** Modelled from the spec: the store's answer to
    [userBadges.list({ where: { user_id }, orderBy: { earned_at: 'desc' } })],
    the user's rows, latest first. The store is an SDK outside the repository;
    this is its contract in section 6 of the specification. *)
Fixpoint insertByEarnedAt (b : Badge) (sorted : list Badge) : list Badge :=
  match sorted with
  | [] => [b]
  | c :: rest =>
      if String.leb (earned_at b) (earned_at c) then c :: insertByEarnedAt b rest
      else b :: c :: rest
  end.

Definition storeListBadges (uid : string) (rows : list Badge) : list Badge :=
  foldl (fun sorted b => insertByEarnedAt b sorted) []
    (List.filter (fun b => String.eqb (user_id b) uid) rows).

(** [loadBadges]; [listOk] is the outcome of the list call. *)
Definition loadBadges (listOk : bool) (st : State) : State :=
  match userId st with
  | None => st
  | Some uid =>
      let calls' := calls st ++ [UserBadgesList uid] in
      mkState (props st)
        (if listOk then storeListBadges uid (db st) else badges st)
        (weeklyGoal st) (showNewBadge st) (db st) calls' (checks st) (toasts st)
  end.

(** What can happen to a mounted component. *)
Inductive Event :=
  | Render (p : Props)
  | BadgesLoaded (listOk : bool)
  | LowerGoal
  | RaiseGoal
  | NewBadgeTimeout.

Definition handle (e : Event) (st : State) : State :=
  match e with
  | Render p =>
      mkState p (badges st) (weeklyGoal st) (showNewBadge st) (db st)
        (calls st) (checks st) (toasts st)
  | BadgesLoaded listOk => loadBadges listOk st
  | LowerGoal =>
      mkState (props st) (badges st) (mathMax 7 (weeklyGoal st - 7)%float)
        (showNewBadge st) (db st) (calls st) (checks st) (toasts st)
  | RaiseGoal =>
      mkState (props st) (badges st) (weeklyGoal st + 7)%float
        (showNewBadge st) (db st) (calls st) (checks st) (toasts st)
  | NewBadgeTimeout =>
      mkState (props st) (badges st) (weeklyGoal st) None (db st)
        (calls st) (checks st) (toasts st)
  end.

(** An event is handled and the component renders again; the award effect
    runs after the render. (React runs it only when one of its dependencies
    changed, so this schedule includes every run of the real one.) *)
Definition step (env : Env) (st : State) (e : Event) : State :=
  awardEffect env (handle e st).

(** A run of the component: each event comes with the readings of the
    runtime and the store at its time. *)
Definition run (events : list (Env * Event)) (st : State) : State :=
  foldl (fun st ee => step (fst ee) st (snd ee)) st events.

End Gamification.

(** ** The award loop across its [await]s ([Gamification], as above) *)

Module Awarding.
Import JS Gamification.

(** A call of [checkAndAwardBadges] suspended at
    [await blink.db.userBadges.create(newBadge)]: what its closure holds
    ([user.id], [currentStreak], [weeklyProgress]), the badge whose create
    call it awaits, and the badge types its loop has still to visit. *)
Record Run := mkRun {
  uid : string;
  streakSeen : float;
  progressSeen : float;
  newBadge : Badge;
  remaining : list string
}.

(** The component and the calls in flight, in the order in which their
    pending create calls were issued. *)
Record System := mkSystem {
  component : State;
  inFlight : list Run
}.

(** The readings of [Date.now()] and [new Date().toISOString()] in one loop
    iteration. *)
Record Clock := mkClock {
  dateNow : string;
  isoString : string
}.

(** The loop reaches [for (const badgeType of newBadges)] with [types] still
    to visit: with none left the call returns; otherwise it builds
    [newBadge], issues the create call and suspends. *)
Definition iterate (clock : Clock) (uid : string) (currentStreak weeklyProgress : float)
    (types : list string) (st : State) : State * list Run :=
  match types with
  | [] => (st, [])
  | badgeType :: rest =>
      let newBadge :=
        mkBadge ("badge_" +:+ dateNow clock +:+ "_" +:+ badgeType) uid
          badgeType (isoString clock)
          (mkBadgeData currentStreak (mathRound weeklyProgress)) in
      (mkState (props st) (badges st) (weeklyGoal st) (showNewBadge st) (db st)
         (calls st ++ [UserBadgesCreate newBadge]) (checks st) (toasts st),
       [mkRun uid currentStreak weeklyProgress newBadge rest])
  end.

(** [checkAndAwardBadges] from its call to its first [await]: the checks on
    the [badges] of the render that created the callback, then the first
    iteration. *)
Definition checkAndAwardBadges (clock : Clock) (s : System) : System :=
  let st := component s in
  match userId st with
  | None => s
  | Some uid =>
      let existingBadgeTypes := map badge_type (badges st) in
      let currentStreak := currentStreak (props st) in
      let completed := completedTasksThisWeek (props st) in
      let new := newBadges existingBadgeTypes currentStreak completed (weeklyGoal st) in
      let st :=
        mkState (props st) (badges st) (weeklyGoal st) (showNewBadge st)
          (db st) (calls st) (S (checks st)) (toasts st) in
      let '(st, started) :=
        iterate clock uid currentStreak
          (weeklyProgressOf completed (weeklyGoal st)) new st in
      mkSystem st (inFlight s ++ started)
  end.

(** The second effect, run after a render that changed one of its
    dependencies: [if (badges.length > 0) checkAndAwardBadges()]. *)
Definition awardEffect (clock : Clock) (s : System) : System :=
  if (0 <? length (badges (component s)))%nat then checkAndAwardBadges clock s
  else s.

(** The create call awaited by the call at position [k] settles. Fulfilled,
    the call goes on with [setBadges(prev => [newBadge, ...prev])],
    [setShowNewBadge] and the toast, and with its next iteration up to the
    next [await]; the state updates make the component render, with [badges]
    and hence the callback changed, so the effect runs, on the readings
    [later] of the clock. The updates made after an [await] are batched: the
    render comes when the continuation has reached its next [await], and
    here it comes before any other create call settles. Rejected, the
    [catch] logs the error and the loop goes on; nothing renders. The timer
    that hides the celebration three seconds later is left out: it changes
    [showNewBadge] only. *)
Definition settle (clock later : Clock) (k : nat) (ok : bool) (s : System)
  : System :=
  match inFlight s !! k with
  | None => s
  | Some r =>
      let st := component s in
      let others := delete k (inFlight s) in
      if ok then
        let badgeType := badge_type (newBadge r) in
        let st :=
          mkState (props st) (newBadge r :: badges st) (weeklyGoal st)
            (Some badgeType) (db st ++ [newBadge r]) (calls st) (checks st)
            (toasts st ++ [badgeType]) in
        let '(st, continued) :=
          iterate clock (uid r) (streakSeen r) (progressSeen r) (remaining r) st in
        awardEffect later (mkSystem st (others ++ continued))
      else
        let '(st, continued) :=
          iterate clock (uid r) (streakSeen r) (progressSeen r) (remaining r) st in
        mkSystem st (others ++ continued)
  end.

End Awarding.

(** ** [src/components/AIInsights.tsx] *)

Module AIInsights.
Import JS.

(** [interface Task]. The two durations are declared [number]; a record that
    does not carry one (the field reads [undefined]) has [None]. *)
Record Task := mkTask {
  id : string;
  title : string;
  category : string;
  completed : bool;
  date : string;
  estimatedMinutes : option float;
  actualMinutes : option float;
  energyLevel : string
}.

Inductive InsightType := pattern | recommendation | achievement | optimization.

Inductive Icon := Target | Clock | TrendingUp.

(** A piece of a template literal, before it is converted to a string. *)
Inductive Piece :=
  | Lit (text : string)
  | Num (x : float)
  | Str (s : string).

(** [interface Insight]. *)
Record Insight := mkInsight {
  insightId : string;
  type : InsightType;
  insightTitle : string;
  description : list Piece;
  confidence : float;
  actionable : bool;
  icon : Icon
}.

(** [completedTasksHistory.slice(-14)]: the last 14 elements, all of them
    when there are fewer. *)
Definition sliceLast14 (completedTasksHistory : list Task) : list Task :=
  drop (length completedTasksHistory - 14) completedTasksHistory.

(** A value held by [categoryStats]: a count or, under a category that
    names a property inherited from [Object.prototype], a text. There
    [acc[task.category]] first reads the inherited function, [+ 1] converts
    it to its source text and appends the character 1, and every further
    record of the category appends another: [Glued ones] is the source text
    followed by [ones] such characters. *)
Inductive Stat :=
  | Count (n : nat)
  | Glued (ones : nat).

Definition plusOne (v : Stat) : Stat :=
  match v with
  | Count n => Count (S n)
  | Glued ones => Glued (S ones)
  end.

(** [acc[task.category] = (acc[task.category] || 0) + 1] on the own
    properties of [acc], kept in creation order. An own property is
    truthy (a count is at least 1, a text is not empty) and gets [+ 1]. A
    name that is not own reads [undefined], hence starts at 1, unless it is
    inherited: a method gives a text, and [__proto__] reads the prototype
    object and assigns through the inherited setter, which ignores a value
    that is neither an object nor [null] and creates no own property. *)
Fixpoint bump (category : string) (acc : list (string * Stat))
  : list (string * Stat) :=
  match acc with
  | [] =>
      if String.eqb category "__proto__" then []
      else if inherited category then [(category, Glued 1)]
      else [(category, Count 1)]
  | (k, v) :: rest =>
      if String.eqb k category then (k, plusOne v) :: rest
      else (k, v) :: bump category rest
  end.

(** The [reduce] that counts the categories. *)
Definition categoryStats (recentTasks : list Task) : list (string * Stat) :=
  foldl (fun acc task => bump (category task) acc) [] recentTasks.

(** A property name that is an array index (the canonical decimal form of an
    integer below 2^32 - 1), and its value. *)
Definition isDigit (c : ascii) : bool :=
  ((48 <=? nat_of_ascii c) && (nat_of_ascii c <=? 57))%nat.

Definition decimalValue (s : string) : N :=
  fold_left (fun v c => (10 * v + (N_of_ascii c - 48))%N)
    (list_ascii_of_string s) 0%N.

Definition arrayIndex (s : string) : option N :=
  match s with
  | EmptyString => None
  | String c rest =>
      if forallb isDigit (list_ascii_of_string s)
         && (negb (Ascii.eqb c "0") || String.eqb rest "")
         && (decimalValue s <? 4294967295)%N
      then Some (decimalValue s) else None
  end.

Fixpoint insertByIndex (e : N * (string * Stat)) (sorted : list (N * (string * Stat)))
  : list (N * (string * Stat)) :=
  match sorted with
  | [] => [e]
  | f :: rest =>
      if (fst f <? fst e)%N then f :: insertByIndex e rest else e :: f :: rest
  end.

(** [Object.entries]: the array-index names in ascending order, then the
    other names in creation order. *)
Definition entries (stats : list (string * Stat)) : list (string * Stat) :=
  let indexed :=
    omap (fun e => option_map (fun i => (i, e)) (arrayIndex (fst e))) stats in
  let named :=
    List.filter (fun e => match arrayIndex (fst e) with Some _ => false | None => true end)
           stats in
  map snd (foldr insertByIndex [] indexed) ++ named.

(** A value as a number: the source text of a function is no numeric
    literal, whatever follows it. *)
Definition toNumber (v : Stat) : float :=
  match v with
  | Count n => ofNat n
  | Glued _ => nan
  end.

(** The comparator [([,a], [,b]) => b - a] says that [a] goes after [b]
    when [b - a] is positive; where a text is involved [b - a] is [NaN],
    which the sort reads as [+0]. *)
Definition goesAfter (a b : Stat) : bool :=
  match a, b with
  | Count n, Count m => (n <? m)%nat
  | _, _ => false
  end.

Definition isCount (v : Stat) : bool :=
  match v with
  | Count _ => true
  | Glued _ => false
  end.

(** The comparator is consistent on the values when they are all counts: a
    consistent comparator never answers [NaN]. *)
Definition consistent (values : list Stat) : bool := forallb isCount values.

Fixpoint insertByCount (e : string * Stat) (sorted : list (string * Stat))
  : list (string * Stat) :=
  match sorted with
  | [] => [e]
  | f :: rest =>
      if goesAfter (snd e) (snd f) then f :: insertByCount e rest
      else e :: f :: rest
  end.

Section Sorting.

(** What the implementation's [sort] makes of an array on which the
    comparator is not consistent: the language leaves the order to the
    implementation. *)
Variable implementationSort : list (string * Stat) -> list (string * Stat).

(** [.sort(([,a], [,b]) => b - a)]: with a consistent comparator, the
    stable sort by descending count. *)
Definition sortByCount (l : list (string * Stat)) : list (string * Stat) :=
  if consistent (map snd l) then foldr insertByCount [] l
  else implementationSort l.

(** The category rule: the insight pushed by the first [if], if any. *)
Definition categoryInsight (completedTasksHistory : list Task) : list Insight :=
  if (7 <=? length completedTasksHistory)%nat then
    let recentTasks := sliceLast14 completedTasksHistory in
    let categoryStats := categoryStats recentTasks in
    match head (sortByCount (entries categoryStats)) with
    | Some topCategory =>
        [ mkInsight "category-pattern" pattern "Category Focus Detected"
            [ Lit "You complete ";
              Num (mathRound
                     (toNumber (snd topCategory) / ofNat (length recentTasks)
                      * 100)%float);
              Lit "% more "; Str (fst topCategory);
              Lit " tasks. Consider balancing other areas." ]
            0x1.b333333333333p-1 true Target ]
    | None => []
    end
  else [].

End Sorting.

(** [t.estimatedMinutes && t.actualMinutes] as the filter's condition. *)
Definition hasTimes (t : Task) : bool :=
  match estimatedMinutes t, actualMinutes t with
  | Some e, Some a => truthy e && truthy a
  | _, _ => false
  end.

Definition tasksWithTime (completedTasksHistory : list Task) : list Task :=
  List.filter hasTimes completedTasksHistory.

(** [Math.max(0, 1 - Math.abs(estimated - actual) / estimated)]. *)
Definition accuracy (t : Task) : float :=
  match estimatedMinutes t, actualMinutes t with
  | Some e, Some a => mathMax 0 (1 - abs (e - a) / e)%float
  | _, _ => nan
  end.

Definition avgAccuracy (tasksWithTime : list Task) : float :=
  (fold_left (fun acc task => acc + accuracy task) tasksWithTime 0
   / ofNat (length tasksWithTime))%float.

(** The time-estimation rule; [0x1.6666666666666p-1] is the literal [0.7]
    and [0x1.ccccccccccccdp-1] the literal [0.9]. *)
Definition timeInsight (completedTasksHistory : list Task) : list Insight :=
  let tasksWithTime := tasksWithTime completedTasksHistory in
  if (5 <=? length tasksWithTime)%nat then
    let avgAccuracy := avgAccuracy tasksWithTime in
    if (avgAccuracy <? 0x1.6666666666666p-1)%float then
      [ mkInsight "time-estimation" recommendation "Improve Time Estimation"
          [ Lit "Your time estimates are ";
            Num (mathRound (avgAccuracy * 100)%float);
            Lit "% accurate. Try tracking actual time more carefully." ]
          0x1.ccccccccccccdp-1 true Clock ]
    else []
  else [].

Definition streakInsight (currentStreak : float) : list Insight :=
  if (7 <=? currentStreak)%float then
    [ mkInsight "streak-achievement" achievement "Consistency Champion"
        [ Num currentStreak;
          Lit " days of focused productivity! You're building an incredible habit." ]
        1 false TrendingUp ]
  else [].

Definition momentumInsight (tasks : list Task) : list Insight :=
  let todayCompleted := length (List.filter (fun t => completed t) tasks) in
  if (3 <=? todayCompleted)%nat && (length tasks =? 5)%nat then
    [ mkInsight "daily-momentum" recommendation "Strong Daily Momentum"
        [ Lit "You're on track for another successful day. Keep the momentum going!" ]
        0x1.999999999999ap-1 false TrendingUp ]
  else [].

(** [generateInsights]: the list handed to [setInsights]. *)
Definition generateInsights
    (implementationSort : list (string * Stat) -> list (string * Stat))
    (tasks completedTasksHistory : list Task) (currentStreak : float)
  : list Insight :=
  categoryInsight implementationSort completedTasksHistory
    ++ timeInsight completedTasksHistory
    ++ streakInsight currentStreak ++ momentumInsight tasks.

End AIInsights.

(** ** [retryWithBackoff] of [src/App.tsx] *)

Module Retry.

Section RetryWithBackoff.

(** [A] is what [fn]'s promise is fulfilled with, [E] what it is rejected
    with; [status] reads [error?.status], [None] when the error has no
    numeric [status]. *)
Variables A E : Type.
Variable status : E -> option Z.

Inductive Outcome :=
  | Fulfilled (value : A)
  | Rejected (error : E).

(** How the promise of [retryWithBackoff] settles; [Returned None] is the
    [undefined] of a loop that ends without a [return]. *)
Inductive Result :=
  | Returned (value : option A)
  | Thrown (error : E).

(** A run of the function: how it settles, how many times [fn] was called,
    and the timeouts awaited, oldest first. A timeout is
    [baseDelay * Math.pow(2, i) + Math.random() * 1000]; the record keeps its
    first summand, the second is a reading below 1000 of the random source. *)
Record Run := mkRun {
  result : Result;
  attempts : nat;
  delays : list Z
}.

(** [error?.status === 429]. *)
Definition rateLimited (error : E) : bool :=
  match status error with
  | Some s => (s =? 429)%Z
  | None => false
  end.

(** The [for] loop from iteration [i] on, with [remaining] iterations before
    [i < maxRetries] fails; [fn i] is the outcome of the call of iteration
    [i]. *)
Fixpoint retryLoop (fn : nat -> Outcome) (maxRetries : nat) (baseDelay : Z)
    (remaining i : nat) (delays : list Z) : Run :=
  match remaining with
  | O => mkRun (Returned None) i delays
  | S remaining' =>
      match fn i with
      | Fulfilled value => mkRun (Returned (Some value)) (S i) delays
      | Rejected error =>
          if rateLimited error && (Z.of_nat i <? Z.of_nat maxRetries - 1)%Z
          then retryLoop fn maxRetries baseDelay remaining' (S i)
                 (delays ++ [(baseDelay * 2 ^ Z.of_nat i)%Z])
          else mkRun (Thrown error) (S i) delays
      end
  end.

Definition retryWithBackoff (fn : nat -> Outcome) (maxRetries : nat)
    (baseDelay : Z) : Run :=
  retryLoop fn maxRetries baseDelay maxRetries 0 [].

End RetryWithBackoff.

Arguments Fulfilled {A E} value.
Arguments Rejected {A E} error.
Arguments Returned {A E} value.
Arguments Thrown {A E} error.
Arguments result {A E} r.
Arguments attempts {A E} r.
Arguments delays {A E} r.
Arguments rateLimited {E} status error.
Arguments retryLoop {A E} status fn maxRetries baseDelay remaining i delays.
Arguments retryWithBackoff {A E} status fn maxRetries baseDelay.

End Retry.

(** ** The user settings of [src/App.tsx] *)

Module Settings.
Import JS.

(** The values a setting or a column of the settings record can hold: the
    setters are typed [any], and what the store returns is not checked. *)
Inductive value :=
  | Undefined
  | Null
  | Boolean (b : bool)
  | Number (x : float)
  | Text (s : string).

Section Values.

(** [StringToNumber] of the runtime, the numeric value of a string. *)
Variable stringToNumber : string -> float.

(** A value as a condition. *)
Definition toBoolean (v : value) : bool :=
  match v with
  | Undefined | Null => false
  | Boolean b => b
  | Number x => truthy x
  | Text s => negb (String.eqb s "")
  end.

(** [Number(v)]. *)
Definition toNumber (v : value) : float :=
  match v with
  | Undefined => nan
  | Null => 0
  | Boolean b => if b then 1 else 0
  | Number x => x
  | Text s => stringToNumber s
  end.

(** [a || b]. *)
Definition orElse (a b : value) : value := if toBoolean a then a else b.

(** [interface UserSettings]. *)
Record UserSettings := mkSettings {
  darkMode : value;
  dailyTaskLimit : value;
  showOnboarding : value;
  notifications : value;
  resetTime : value
}.

(** A record of the [userSettings] table. *)
Record SettingsRecord := mkRecord {
  id : string;
  user_id : string;
  dark_mode : value;
  sound_enabled : value;
  daily_goal : value;
  sound_effects : value;
  adaptive_capacity : value;
  weekly_reflection : value;
  reset_time : value;
  timezone : value
}.

(** The columns [saveSetting] writes. *)
Inductive Column := DarkMode | SoundEnabled | DailyGoal | ResetTime.

Inductive StoreCall :=
  | UserSettingsList (user_id : string)
  | UserSettingsCreate (record : SettingsRecord)
  | UserSettingsUpdate (id : string) (column : Column) (v : value).

Inductive Toast := ToastSaveFailed.

(** The part of the component's state the settings functions touch.
    [onboardingShown] is the state variable [showOnboarding] of the
    component, which is not the field of the same name in [settings];
    [warnings] are the keys reported by [console.warn]; [db] holds the rows of
    the [userSettings] table and [calls] the store calls issued, oldest
    first. *)
Record State := mkState {
  user : option string;
  settings : UserSettings;
  onboardingShown : bool;
  toasts : list Toast;
  warnings : list string;
  db : list SettingsRecord;
  calls : list StoreCall
}.

Definition userId (st : State) : option string :=
  match user st with
  | Some uid => if String.eqb uid "" then None else Some uid
  | None => None
  end.

Definition logCall (c : StoreCall) (st : State) : State :=
  mkState (user st) (settings st) (onboardingShown st) (toasts st)
    (warnings st) (db st) (calls st ++ [c]).

Definition setSettings (s : UserSettings) (st : State) : State :=
  mkState (user st) s (onboardingShown st) (toasts st) (warnings st) (db st)
    (calls st).

Definition setShowOnboarding (b : bool) (st : State) : State :=
  mkState (user st) (settings st) b (toasts st) (warnings st) (db st)
    (calls st).

Definition setDb (rows : list SettingsRecord) (st : State) : State :=
  mkState (user st) (settings st) (onboardingShown st) (toasts st)
    (warnings st) rows (calls st).

Definition toast (t : Toast) (st : State) : State :=
  mkState (user st) (settings st) (onboardingShown st) (toasts st ++ [t])
    (warnings st) (db st) (calls st).

Definition warn (key : string) (st : State) : State :=
  mkState (user st) (settings st) (onboardingShown st) (toasts st)
    (warnings st ++ [key]) (db st) (calls st).

(** Modelled from the spec: the record store on the [userSettings] table, by
    its contract in section 6 of the specification: [list] returns the
    records matching the equality filter, [create] adds the record, [update]
    patches the record with the given id. *)
Definition storeList (uid : string) (rows : list SettingsRecord)
  : list SettingsRecord :=
  List.filter (fun r => String.eqb (user_id r) uid) rows.

Definition setColumn (c : Column) (v : value) (r : SettingsRecord)
  : SettingsRecord :=
  match c with
  | DarkMode =>
      mkRecord (id r) (user_id r) v (sound_enabled r) (daily_goal r)
        (sound_effects r) (adaptive_capacity r) (weekly_reflection r)
        (reset_time r) (timezone r)
  | SoundEnabled =>
      mkRecord (id r) (user_id r) (dark_mode r) v (daily_goal r)
        (sound_effects r) (adaptive_capacity r) (weekly_reflection r)
        (reset_time r) (timezone r)
  | DailyGoal =>
      mkRecord (id r) (user_id r) (dark_mode r) (sound_enabled r) v
        (sound_effects r) (adaptive_capacity r) (weekly_reflection r)
        (reset_time r) (timezone r)
  | ResetTime =>
      mkRecord (id r) (user_id r) (dark_mode r) (sound_enabled r) (daily_goal r)
        (sound_effects r) (adaptive_capacity r) (weekly_reflection r)
        v (timezone r)
  end.

Definition storeUpdate (settingsId : string) (c : Column) (v : value)
    (rows : list SettingsRecord) : list SettingsRecord :=
  map (fun r => if String.eqb (id r) settingsId then setColumn c v r else r) rows.

(** The settings both failure paths fall back to. *)
Definition defaults : UserSettings :=
  mkSettings (Boolean false) (Number 5) (Boolean false) (Boolean true)
    (Text "00:00").

(** The record created for a first-time user. *)
Definition defaultSettings (uid : string) : SettingsRecord :=
  mkRecord ("settings_" +:+ uid) uid (Number 0) (Number 1) (Number 5)
    (Number 1) (Number 0) (Text "") (Text "00:00") (Text "UTC").

(** *** [loadUserSettings]

    [listOk] and [createOk] are the outcomes of the list call and of the
    create call. *)
Definition loadUserSettings (listOk createOk : bool) (st : State) : State :=
  match userId st with
  | None => st
  | Some uid =>
      let st := logCall (UserSettingsList uid) st in
      if listOk then
        match storeList uid (db st) with
        | userSettingsRecord :: _ =>
            setSettings
              (mkSettings
                 (Boolean (0 <? toNumber (dark_mode userSettingsRecord))%float)
                 (orElse (daily_goal userSettingsRecord) (Number 5))
                 (Boolean false)
                 (Boolean (0 <? toNumber (sound_enabled userSettingsRecord))%float)
                 (orElse (reset_time userSettingsRecord) (Text "00:00")))
              st
        | [] =>
            let st := setShowOnboarding true st in
            let st := logCall (UserSettingsCreate (defaultSettings uid)) st in
            if createOk then setDb (db st ++ [defaultSettings uid]) st
            else setSettings defaults st
        end
      else setSettings defaults st
  end.

(** *** [saveSetting] *)

(** The [switch]: [None] for the [default] branch, otherwise the property
    written to [updateData], if any. *)
Definition updateData (key : string) (v : value)
  : option (option (Column * value)) :=
  if String.eqb key "darkMode"
  then Some (Some (DarkMode, Number (if toBoolean v then 1 else 0)))
  else if String.eqb key "dailyTaskLimit"
  then Some (Some (DailyGoal, Number (toNumber v)))
  else if String.eqb key "notifications"
  then Some (Some (SoundEnabled, Number (if toBoolean v then 1 else 0)))
  else if String.eqb key "resetTime"
  then Some (Some (ResetTime, v))
  else if String.eqb key "showOnboarding"
  then Some None
  else None.

(** [{ ...prev, [key]: value }] for the keys that reach it. *)
Definition assign (key : string) (v : value) (prev : UserSettings)
  : UserSettings :=
  if String.eqb key "darkMode"
  then mkSettings v (dailyTaskLimit prev) (showOnboarding prev)
         (notifications prev) (resetTime prev)
  else if String.eqb key "dailyTaskLimit"
  then mkSettings (darkMode prev) v (showOnboarding prev)
         (notifications prev) (resetTime prev)
  else if String.eqb key "notifications"
  then mkSettings (darkMode prev) (dailyTaskLimit prev) (showOnboarding prev)
         v (resetTime prev)
  else if String.eqb key "resetTime"
  then mkSettings (darkMode prev) (dailyTaskLimit prev) (showOnboarding prev)
         (notifications prev) v
  else if String.eqb key "showOnboarding"
  then mkSettings (darkMode prev) (dailyTaskLimit prev) v
         (notifications prev) (resetTime prev)
  else prev.

(** [updateOk] is the outcome of the update call, when there is one. *)
Definition saveSetting (key : string) (v : value) (updateOk : bool)
    (st : State) : State :=
  match userId st with
  | None => st
  | Some uid =>
      let settingsId := "settings_" +:+ uid in
      match updateData key v with
      | None => warn key st
      | Some None => setSettings (assign key v (settings st)) st
      | Some (Some (column, x)) =>
          let st := logCall (UserSettingsUpdate settingsId column x) st in
          if updateOk then
            let st := setDb (storeUpdate settingsId column x (db st)) st in
            setSettings (assign key v (settings st)) st
          else toast ToastSaveFailed st
      end
  end.

End Values.

End Settings.

(** ** The additional tasks of [src/App.tsx] *)

Module Additional.
Import JS.

(** [interface AdditionalTask]. *)
Record AdditionalTask := mkTask {
  id : string;
  title : list N;
  completed : bool;
  date : string;
  user_id : string
}.

Inductive StoreCall :=
  | AdditionalTasksList (user_id date : string)
  | AdditionalTasksCreate (record : AdditionalTask)
  | AdditionalTasksUpdateCompleted (id : string) (completed : bool).

Inductive Toast :=
  | ToastAdditionalAdded
  | ToastAdditionalAddFailed
  | ToastAdditionalCompleted
  | ToastAdditionalUpdateFailed.

(** The part of the component's state the additional-task functions touch;
    [db] holds the rows of the [additionalTasks] table in creation order and
    [calls] the store calls issued, oldest first. *)
Record State := mkState {
  user : option string;
  additionalTasks : list AdditionalTask;
  newAdditionalTaskTitle : list N;
  selectedDate : Z;
  toasts : list Toast;
  db : list AdditionalTask;
  calls : list StoreCall
}.

Definition userId (st : State) : option string :=
  match user st with
  | Some uid => if String.eqb uid "" then None else Some uid
  | None => None
  end.

Definition dateStr (st : State) : string := toISODateString (selectedDate st).

Definition logCall (c : StoreCall) (st : State) : State :=
  mkState (user st) (additionalTasks st) (newAdditionalTaskTitle st)
    (selectedDate st) (toasts st) (db st) (calls st ++ [c]).

Definition toast (t : Toast) (st : State) : State :=
  mkState (user st) (additionalTasks st) (newAdditionalTaskTitle st)
    (selectedDate st) (toasts st ++ [t]) (db st) (calls st).

Definition setAdditionalTasks (ts : list AdditionalTask) (st : State) : State :=
  mkState (user st) ts (newAdditionalTaskTitle st)
    (selectedDate st) (toasts st) (db st) (calls st).

Definition setNewAdditionalTaskTitle (s : list N) (st : State) : State :=
  mkState (user st) (additionalTasks st) s
    (selectedDate st) (toasts st) (db st) (calls st).

Definition setDb (rows : list AdditionalTask) (st : State) : State :=
  mkState (user st) (additionalTasks st) (newAdditionalTaskTitle st)
    (selectedDate st) (toasts st) rows (calls st).

(** [{ ...t, completed: c }]. *)
Definition setCompleted (c : bool) (t : AdditionalTask) : AdditionalTask :=
  mkTask (id t) (title t) c (date t) (user_id t).

(** Modelled from the spec: the record store on the [additionalTasks] table,
    by its contract in section 6 of the specification. [created_at] is the
    stamp the store gives a record when it is created, so that
    [orderBy: { created_at: 'desc' }] lists the matching records latest
    first. *)
Definition storeCreate (record : AdditionalTask) (rows : list AdditionalTask)
  : list AdditionalTask :=
  rows ++ [record].

Definition storeUpdate (taskId : string) (patch : AdditionalTask -> AdditionalTask)
    (rows : list AdditionalTask) : list AdditionalTask :=
  map (fun t => if String.eqb (id t) taskId then patch t else t) rows.

Definition storeListDay (uid dateStr : string) (rows : list AdditionalTask)
  : list AdditionalTask :=
  rev (List.filter
         (fun t => String.eqb (user_id t) uid && String.eqb (date t) dateStr)
         rows).

(** [loadAdditionalTasks]; [listOk] tells whether the list call (after its
    retries) is fulfilled. *)
Definition loadAdditionalTasks (listOk : bool) (st : State) : State :=
  match userId st with
  | None => st
  | Some uid =>
      let st := logCall (AdditionalTasksList uid (dateStr st)) st in
      if listOk then setAdditionalTasks (storeListDay uid (dateStr st) (db st)) st
      else setAdditionalTasks [] st
  end.

(** [addAdditionalTask]; [newId] is the id built from [Date.now()] and
    [Math.random()], [createOk] the outcome of the create call. *)
Definition addAdditionalTask (newId : string) (createOk : bool) (st : State)
  : State :=
  match userId st with
  | None => st
  | Some uid =>
      match trim (newAdditionalTaskTitle st) with
      | [] => st
      | _ :: _ =>
          let newTask :=
            mkTask newId (trim (newAdditionalTaskTitle st)) false (dateStr st)
              uid in
          let st := logCall (AdditionalTasksCreate newTask) st in
          if createOk then
            let st := setDb (storeCreate newTask (db st)) st in
            let st := setAdditionalTasks (newTask :: additionalTasks st) st in
            toast ToastAdditionalAdded (setNewAdditionalTaskTitle [] st)
          else toast ToastAdditionalAddFailed st
      end
  end.

(** [toggleAdditionalTask]; [updateOk] is the outcome of the update call,
    [reloadOk] that of the list call of the [loadAdditionalTasks] in the
    handler. *)
Definition toggleAdditionalTask (taskId : string) (updateOk reloadOk : bool)
    (st : State) : State :=
  match find (fun t => String.eqb (id t) taskId) (additionalTasks st) with
  | None => st
  | Some task =>
      let isCompleting := negb (completed task) in
      let st :=
        setAdditionalTasks
          (map (fun t => if String.eqb (id t) taskId
                         then setCompleted isCompleting t else t)
               (additionalTasks st))
          st in
      let st := logCall (AdditionalTasksUpdateCompleted taskId isCompleting) st in
      if updateOk then
        let st :=
          setDb (storeUpdate taskId (setCompleted isCompleting) (db st)) st in
        if isCompleting then toast ToastAdditionalCompleted st else st
      else loadAdditionalTasks reloadOk (toast ToastAdditionalUpdateFailed st)
  end.

End Additional.

(** ** The [OnboardingWizard] component *)

Module OnboardingWizard.
Import JS.

(** An element of the array [priorities]: an empty slot, [undefined], or a
    string. *)
Inductive Slot :=
  | Empty
  | Undefined
  | Text (s : list N).

(** [interface OnboardingData]. *)
Record OnboardingData := mkData {
  name : list N;
  primaryGoals : list string;
  dailyCapacity : Z;
  workStyle : string;
  motivation : list N;
  priorities : list Slot
}.

(** The component's state. *)
Record State := mkState {
  currentStep : nat;
  data : OnboardingData
}.

Definition initial : State := mkState 0 (mkData [] [] 5 "" [] []).

(** The wizard has six steps. *)
Definition stepsLength : nat := 6.

(** [[...priorities]]: the iterator reads an empty slot as [undefined]. *)
Definition spread (a : list Slot) : list Slot :=
  map (fun x => match x with Empty => Undefined | _ => x end) a.

(** [a[index] = value]: an index past the end extends the array with empty
    slots. *)
Definition assignAt (index : nat) (value : list N) (a : list Slot) : list Slot :=
  if (index <? length a)%nat then <[index := Text value]> a
  else a ++ replicate (index - length a) Empty ++ [Text value].

(** The [onChange] of the input of priority [index]. *)
Definition changePriority (index : nat) (value : list N) (st : State) : State :=
  let newPriorities := assignAt index value (spread (priorities (data st))) in
  mkState (currentStep st)
    (mkData (name (data st)) (primaryGoals (data st)) (dailyCapacity (data st))
       (workStyle (data st)) (motivation (data st)) newPriorities).

(** [priorities.filter(p => p.trim())]: [filter] skips the empty slots and
    calls the predicate on every other element; [undefined] has no
    [trim]. *)
Fixpoint filterTrimmed (a : list Slot) : completion (list (list N)) :=
  match a with
  | [] => Normal []
  | Empty :: rest => filterTrimmed rest
  | Undefined :: _ => Throw TypeError
  | Text s :: rest =>
      match filterTrimmed rest with
      | Normal kept =>
          Normal (match trim s with [] => kept | _ :: _ => s :: kept end)
      | Throw e => Throw e
      end
  end.

(** [canProceed], which every render calls for the [disabled] attribute of
    the Next button. *)
Definition canProceed (st : State) : completion bool :=
  match currentStep st with
  | 0 => Normal (0 <? length (trim (name (data st))))%nat
  | 1 => Normal (0 <? length (primaryGoals (data st)))%nat
  | 2 => Normal true
  | 3 => Normal (0 <? String.length (workStyle (data st)))%nat
  | 4 =>
      match filterTrimmed (priorities (data st)) with
      | Normal kept => Normal (1 <=? length kept)%nat
      | Throw e => Throw e
      end
  | 5 => Normal (0 <? length (trim (motivation (data st))))%nat
  | _ => Normal true
  end.

(** [handleNext]: the data handed to [onComplete], if this is the last step,
    and the state afterwards. *)
Definition handleNext (st : State) : option OnboardingData * State :=
  if (currentStep st =? stepsLength - 1)%nat then (Some (data st), st)
  else (None, mkState (currentStep st + 1) (data st)).

Definition handlePrevious (st : State) : State :=
  if (0 <? currentStep st)%nat then mkState (currentStep st - 1) (data st)
  else st.

End OnboardingWizard.

(** ** [handleOnboardingComplete] of [src/App.tsx] *)

Module Onboarding.
Import JS OnboardingWizard.

(** The component's state as the handler sees it: the settings part, the
    tasks part, and the names greeted by the welcome toast. Both parts carry
    the one [user] of the component. *)
Record State := mkState {
  prefs : Settings.State;
  app : App.State;
  welcomed : list (list N)
}.

(** What the runtime and the store contribute to iteration [i] of the loop:
    the id built from [Date.now()] and [Math.random()], the UTC day of
    [new Date()], and whether the create call is fulfilled. *)
Record Env := mkEnv {
  newId : nat -> string;
  today : nat -> Z;
  createOk : nat -> bool
}.

(** [priority && priority.trim()] as a condition; an empty slot reads
    [undefined]. *)
Definition filled (priority : Slot) : bool :=
  match priority with
  | Text s => match trim s with [] => false | _ :: _ => true end
  | Empty | Undefined => false
  end.

Definition newTask (env : Env) (uid : string) (i : nat) (priority : list N)
  : App.Task :=
  App.mkTask (newId env i) (trim priority) (Z.of_nat i + 1) false
    (toISODateString (today env i)) uid
    (Some "priority"%string) (Some 45%Z) None (Some "high"%string).

(** The [for] loop from iteration [i] on, [rest] being the elements of
    [data.priorities] from index [i] and [bound] the value of
    [Math.min(data.priorities.length, data.dailyCapacity)]. A rejected create
    is logged to the console and the loop goes on. *)
Fixpoint createInitialTasks (env : Env) (uid : string) (bound : Z) (i : nat)
    (rest : list Slot) (a : App.State) : App.State :=
  match rest with
  | [] => a
  | priority :: rest' =>
      if (Z.of_nat i <? bound)%Z then
        let a :=
          match priority with
          | Text s =>
              if filled priority then
                let a := App.logCall (App.TasksCreate (newTask env uid i s)) a in
                if createOk env i
                then App.setDb (App.storeCreate (newTask env uid i s) (App.db a)) a
                else a
              else a
          | Empty | Undefined => a
          end in
        createInitialTasks env uid bound (S i) rest' a
      else a
  end.

Section Handler.
Variable stringToNumber : string -> float.

(** [handleOnboardingComplete], [data] being what the wizard hands over
    ([dailyCapacity] is the slider's value, an integer); [updateOk] is the
    outcome of the update call of [saveSetting]. The handler reads [user.id]
    in the loop: with no user, the first filled priority ends it with a
    [TypeError]. The reload it schedules runs half a second later, as a
    [loadTasks] of its own. *)
Definition handleOnboardingComplete (env : Env) (updateOk : bool)
    (data : OnboardingData) (st : State) : completion State :=
  let prefs1 :=
    Settings.saveSetting stringToNumber "dailyTaskLimit"
      (Settings.Number (ofZ (dailyCapacity data))) updateOk
      (Settings.setShowOnboarding false (prefs st)) in
  let bound :=
    Z.min (Z.of_nat (length (priorities data))) (dailyCapacity data) in
  match App.user (app st) with
  | Some uid =>
      Normal
        (mkState prefs1
           (createInitialTasks env uid bound 0 (priorities data) (app st))
           (welcomed st ++ [name data]))
  | None =>
      if existsb filled (take (Z.to_nat bound) (priorities data))
      then Throw TypeError
      else Normal (mkState prefs1 (app st) (welcomed st ++ [name data]))
  end.

End Handler.

End Onboarding.

(** ** The [MagicalCompletion] component *)

Module MagicalCompletion.

(** [streak] is a number of days, an integer; [Math.floor(streak / 5)] is
    then the quotient rounded down. *)

(** [confettiConfig.particleCount]. *)
Definition particleCount (streak : Z) : Z := Z.min (100 + streak * 10) 300.

Definition burstCount (streak : Z) : Z := Z.min (streak / 5 + 1) 3.

(** The calls of [confetti] the effect schedules: for each [i] below
    [burstCount], the delay [i * 200] of its timeout and the particle count
    of its configuration. *)
Definition bursts (streak : Z) : list (Z * Z) :=
  map (fun i => (Z.of_nat i * 200, particleCount streak)%Z)
      (seq 0 (Z.to_nat (burstCount streak))).

(** The delay of the timeout that hides the overlay. *)
Definition autoHide : Z := 3000.

Definition getStreakMessage (streak : Z) : string :=
  if (30 <=? streak)%Z then "🏆 LEGENDARY! 30+ day streak!"
  else if (21 <=? streak)%Z then "🔥 ON FIRE! 21+ day streak!"
  else if (14 <=? streak)%Z then "⚡ UNSTOPPABLE! 2+ week streak!"
  else if (7 <=? streak)%Z then "🌟 AMAZING! 1+ week streak!"
  else if (3 <=? streak)%Z then "💪 BUILDING MOMENTUM!"
  else "🎉 GREAT JOB!".

Definition getStreakEmoji (streak : Z) : string :=
  if (30 <=? streak)%Z then "🏆"
  else if (21 <=? streak)%Z then "🔥"
  else if (14 <=? streak)%Z then "⚡"
  else if (7 <=? streak)%Z then "🌟"
  else if (3 <=? streak)%Z then "💪"
  else "🎉".

End MagicalCompletion.

(** ** The [IdleDetection] component *)

Module IdleDetection.
Import JS.

(** Times are readings of the clock in milliseconds, integers. *)
Definition IDLE_THRESHOLD : Z := 5 * 60 * 1000.

(** [Math.round((endTime - startTime) / (1000 * 60))] on two readings of the
    clock: the quotient to the nearest integer, a half upwards. *)
Definition minutesBetween (startTime endTime : Z) : Z :=
  (2 * (endTime - startTime) + 1000 * 60) / (2 * (1000 * 60)).

(** [interface IdleDetectionProps]; [user] is [user?.id]. *)
Record Props := mkProps {
  user : option string;
  isEnabled : bool
}.

(** A record of the [idleSessions] table; [id] is the reading of
    [Date.now()] in the id, [startTime] and [endTime] the readings behind the
    two ISO strings. *)
Record IdleSession := mkSession {
  id : Z;
  userId : string;
  startTime : Z;
  endTime : Z;
  durationMinutes : Z;
  date : string
}.

Inductive StoreCall :=
  | IdleSessionsCreate (record : IdleSession).

(** The state and the refs of the component. [idleTimer] is the time at
    which the pending timeout of [idleTimerRef] is due, [None] when none is
    pending; [idleStart] is [idleStartRef.current]. [db] holds the rows of
    the [idleSessions] table and [calls] the store calls issued. *)
Record State := mkState {
  isIdle : bool;
  idleTime : Z;
  showIdleMessage : bool;
  idleTimer : option Z;
  idleStart : option Z;
  lastActivity : Z;
  db : list IdleSession;
  calls : list StoreCall
}.

(** What the runtime and the store contribute to one handler or effect: the
    reading of the clock and the outcome of the create call, if one is
    issued. *)
Record Env := mkEnv {
  now : Z;
  createOk : bool
}.

Definition signedInUser (p : Props) : option string :=
  match user p with
  | Some uid => if String.eqb uid "" then None else Some uid
  | None => None
  end.

(** [logIdleSession]. *)
Definition logIdleSession (p : Props) (env : Env) (st : State) : State :=
  match signedInUser p, idleStart st with
  | Some uid, Some start =>
      let durationMinutes := minutesBetween start (now env) in
      if (0 <? durationMinutes)%Z then
        let record :=
          mkSession (now env) uid start (now env) durationMinutes
            (toISODateString (now env / 86400000)) in
        mkState (isIdle st) (idleTime st) (showIdleMessage st) (idleTimer st)
          (idleStart st) (lastActivity st)
          (if createOk env then db st ++ [record] else db st)
          (calls st ++ [IdleSessionsCreate record])
      else st
  | _, _ => st
  end.

(** [resetIdleTimer] as created by a render with props [p] in which
    [isIdle] was [idle]. *)
Definition resetIdleTimer (p : Props) (idle : bool) (env : Env) (st : State)
  : State :=
  let st :=
    mkState (isIdle st) (idleTime st) (showIdleMessage st) None
      (idleStart st) (now env) (db st) (calls st) in
  let st :=
    if idle then
      let st := logIdleSession p env st in
      mkState false 0 false (idleTimer st) None (lastActivity st) (db st)
        (calls st)
    else st in
  if isEnabled p then
    mkState (isIdle st) (idleTime st) (showIdleMessage st)
      (Some (now env + IDLE_THRESHOLD)%Z) (idleStart st) (lastActivity st)
      (db st) (calls st)
  else st.

(** The callback of the timeout, run when it is due. *)
Definition idleTimeout (env : Env) (st : State) : State :=
  match idleTimer st with
  | Some due =>
      if (due <=? now env)%Z then
        mkState true (idleTime st) true None (Some (now env)) (lastActivity st)
          (db st) (calls st)
      else st
  | None => st
  end.

(** [dismissIdleMessage]. *)
Definition dismissIdleMessage (p : Props) (idle : bool) (env : Env)
    (st : State) : State :=
  resetIdleTimer p idle env
    (mkState (isIdle st) (idleTime st) false (idleTimer st) (idleStart st)
       (lastActivity st) (db st) (calls st)).

(** What the closures of a render have captured. *)
Record Rendered := mkRendered {
  props : Props;
  idle : bool
}.

(** The effect that sets up the activity listeners: its dependencies
    [isEnabled], [isIdle] and [user?.id] (the two callbacks change with
    them), its cleanup and its body. The cleanup belongs to the previous
    render and exists only if that render's body did not return early. *)
Definition depsChanged (r0 r1 : Rendered) : bool :=
  negb (Bool.eqb (isEnabled (props r0)) (isEnabled (props r1)))
  || negb (Bool.eqb (idle r0) (idle r1))
  || negb (bool_decide (user (props r0) = user (props r1))).

Definition cleanup (r : Rendered) (env : Env) (st : State) : State :=
  if isEnabled (props r) then
    let st :=
      mkState (isIdle st) (idleTime st) (showIdleMessage st) None
        (idleStart st) (lastActivity st) (db st) (calls st) in
    if idle r then logIdleSession (props r) env st else st
  else st.

Definition body (r : Rendered) (env : Env) (st : State) : State :=
  if isEnabled (props r) then resetIdleTimer (props r) (idle r) env st else st.

Definition activityEffect (r0 r1 : Rendered) (env : Env) (st : State) : State :=
  if depsChanged r0 r1 then body r1 env (cleanup r0 env st) else st.

(** The callback of the interval that a render in which [isIdle] held has
    set up; without an idle start its [getTime] call throws, and the state
    stays as it is. *)
Definition idleTick (idle : bool) (env : Env) (st : State) : State :=
  if idle then
    match idleStart st with
    | Some start =>
        mkState (isIdle st) (minutesBetween start (now env))
          (showIdleMessage st) (idleTimer st) (idleStart st) (lastActivity st)
          (db st) (calls st)
    | None => st
    end
  else st.

(** What can happen to a mounted component: one of the listened events, the
    timeout, a tick of the interval, a click on one of the two buttons of
    the message, new props. *)
Inductive Event :=
  | Activity
  | TimerFired
  | Tick
  | Dismiss
  | NewProps (p : Props).

Definition handle (r : Rendered) (e : Event) (env : Env) (st : State) : State :=
  match e with
  | Activity =>
      if isEnabled (props r) then resetIdleTimer (props r) (idle r) env st
      else st
  | TimerFired => idleTimeout env st
  | Tick => idleTick (idle r) env st
  | Dismiss =>
      if showIdleMessage st then dismissIdleMessage (props r) (idle r) env st
      else st
  | NewProps _ => st
  end.

Definition propsAfter (e : Event) (r : Rendered) : Props :=
  match e with
  | NewProps p => p
  | _ => props r
  end.

(** An event is handled and the component renders again; the effect runs
    after each render whose dependencies differ from those of the render
    before. [env0] is read by the handler, [env1] and [env2] by the effect
    after the first and the second render. *)
Definition step (e : Event) (env0 env1 env2 : Env) (c : Rendered * State)
  : Rendered * State :=
  let r0 := fst c in
  let st1 := handle r0 e env0 (snd c) in
  let r1 := mkRendered (propsAfter e r0) (isIdle st1) in
  let st2 := activityEffect r0 r1 env1 st1 in
  let r2 := mkRendered (props r1) (isIdle st2) in
  let st3 := activityEffect r1 r2 env2 st2 in
  (mkRendered (props r2) (isIdle st3), st3).

(** The first render and its effect. *)
Definition mount (p : Props) (env : Env) : Rendered * State :=
  let r := mkRendered p false in
  (r, body r env (mkState false 0 false None None (now env) [] [])).

(** A run of the component: each event comes with the three readings of
    its step. *)
Definition run (events : list (Event * (Env * Env * Env)))
    (c : Rendered * State) : Rendered * State :=
  foldl (fun c ee =>
           step (fst ee) (fst (fst (snd ee))) (snd (fst (snd ee))) (snd (snd ee)) c)
        c events.

End IdleDetection.

(** * Properties *)

(** ** The runtime model on examples *)

Example iso_epoch : JS.toISODateString 0 = "1970-01-01"%string.
Proof. reflexivity. Qed.

Example iso_2026 : JS.toISODateString 20759 = "2026-11-02"%string.
Proof. reflexivity. Qed.

Example iso_leap : JS.toISODateString 19782 = "2024-02-29"%string.
Proof. reflexivity. Qed.

Example iso_bc : JS.toISODateString (-719529) = "-000001-12-31"%string.
Proof. reflexivity. Qed.

Example round_half_up : JS.mathRound 2.5 = 3%float. Proof. reflexivity. Qed.
Example round_neg_half : JS.mathRound (-2.5) = (-2)%float. Proof. reflexivity. Qed.
Example round_small : JS.mathRound 0x1.fffffffffffffp-2 = 0%float. Proof. reflexivity. Qed.
Example round_big : JS.mathRound 0x1p60 = 0x1p60%float. Proof. reflexivity. Qed.
Example round_pct : JS.mathRound (JS.ofNat 8 / JS.ofNat 14 * 100) = 57%float. Proof. reflexivity. Qed.
Example max_nan : JS.mathMax 0 nan = nan. Proof. reflexivity. Qed.
Example max_neg : JS.mathMax 0 (-3) = 0%float. Proof. reflexivity. Qed.
Example trim_ex : JS.trim (JS.utf16 "  a b  ") = JS.utf16 "a b". Proof. reflexivity. Qed.

(** ** The streak calculator *)

Module StreakProofs.
Import JS App.

(** Some record carries the date [d]. *)
Definition hasRecordOn (completedTasks : list Task) (d : string) : bool :=
  existsb (fun t => String.eqb (date t) d) completedTasks.

(** Some record's date names a property inherited from [Object.prototype]. *)
Definition hasInheritedDate (completedTasks : list Task) : bool :=
  existsb (fun t => inherited (date t)) completedTasks.

(** The number of consecutive offsets [i, i+1, ...], at most [bound] of
    them, at which [p] holds. *)
Fixpoint leading (p : nat -> bool) (bound i : nat) : nat :=
  match bound with
  | O => O
  | S bound' => if p i then S (leading p bound' (S i)) else O
  end.

Lemma digit_cases n :
  In (digit n)
     ["0"; "1"; "2"; "3"; "4"; "5"; "6"; "7"; "8"; "9"]%char.
Proof.
  unfold digit.
  assert (H : (0 <= n mod 10 < 10)%Z) by (apply Z.mod_pos_bound; lia).
  assert (Hk : (Z.to_nat (n mod 10) < 10)%nat) by lia.
  destruct (Z.to_nat (n mod 10)) as [|k]; [simpl; tauto|].
  do 9 (destruct k as [|k]; [simpl; tauto|]).
  lia.
Qed.

Lemma inherited_digit n s : inherited (String (digit n) s) = false.
Proof.
  pose proof (digit_cases n) as H. simpl in H.
  repeat (destruct H as [<- | H]; [reflexivity|]).
  destruct H.
Qed.

(** An ISO date starts with a digit or a sign, so it never names an
    inherited property: reading [tasksByDate[dateStr]] reads an own
    property or [undefined]. *)
Lemma toISODateString_own day : inherited (toISODateString day) = false.
Proof.
  unfold toISODateString. destruct (civilFromDays day) as [[y m] d].
  unfold yearString.
  destruct ((0 <=? y)%Z && (y <=? 9999)%Z).
  - apply inherited_digit.
  - destruct (y <? 0)%Z; reflexivity.
Qed.

(** The grouping object holds a non-empty array under [d]. *)
Definition lookupNonEmpty (m : gmap string (list Task)) (d : string) : bool :=
  match m !! d with
  | Some l => (0 <? length l)%nat
  | None => false
  end.

(** What the [reduce] maintains: every own property is a non-empty array
    under a name that is not inherited. *)
Definition wellGrouped (m : gmap string (list Task)) : Prop :=
  forall d l, m !! d = Some l -> l <> [] /\ inherited d = false.

Lemma wellGrouped_empty : wellGrouped ∅.
Proof. intros d l H. rewrite lookup_empty in H. discriminate. Qed.

Lemma foldl_groupStep_throw e tasks : foldl groupStep (Throw e) tasks = Throw e.
Proof. induction tasks as [|t ts IH]; simpl; auto. Qed.

Lemma groupStep_ok m t :
  wellGrouped m -> inherited (date t) = false ->
  exists m', groupStep (Normal m) t = Normal m' /\ wellGrouped m' /\
    forall d, lookupNonEmpty m' d = lookupNonEmpty m d || String.eqb (date t) d.
Proof.
  intros Hm Ht. unfold groupStep. rewrite Ht.
  destruct (m !! date t) as [l|] eqn:E.
  - exists (<[date t := l ++ [t]]> m). split; [reflexivity|]. split.
    + intros d l0 Hd. destruct (decide (date t = d)) as [<-|Hne].
      * rewrite lookup_insert_eq in Hd. injection Hd as <-.
        split; [destruct l; discriminate | exact Ht].
      * rewrite lookup_insert_ne in Hd by exact Hne. eauto.
    + intros d. unfold lookupNonEmpty. destruct (decide (date t = d)) as [<-|Hne].
      * rewrite lookup_insert_eq, String.eqb_refl, orb_true_r, length_app.
        simpl. apply Nat.ltb_lt. lia.
      * rewrite lookup_insert_ne by exact Hne.
        apply String.eqb_neq in Hne. rewrite Hne, orb_false_r. reflexivity.
  - exists (<[date t := [t]]> m). split; [reflexivity|]. split.
    + intros d l0 Hd. destruct (decide (date t = d)) as [<-|Hne].
      * rewrite lookup_insert_eq in Hd. injection Hd as <-.
        split; [discriminate | exact Ht].
      * rewrite lookup_insert_ne in Hd by exact Hne. eauto.
    + intros d. unfold lookupNonEmpty. destruct (decide (date t = d)) as [<-|Hne].
      * rewrite lookup_insert_eq, String.eqb_refl, orb_true_r. reflexivity.
      * rewrite lookup_insert_ne by exact Hne.
        apply String.eqb_neq in Hne. rewrite Hne, orb_false_r. reflexivity.
Qed.

Lemma groupByDate_from tasks : forall m,
  wellGrouped m -> hasInheritedDate tasks = false ->
  exists m', foldl groupStep (Normal m) tasks = Normal m' /\ wellGrouped m' /\
    forall d, lookupNonEmpty m' d = lookupNonEmpty m d || hasRecordOn tasks d.
Proof.
  induction tasks as [|t ts IH]; intros m Hm Hin.
  - exists m. split; [reflexivity|]. split; [exact Hm|].
    intros d. simpl. now rewrite orb_false_r.
  - simpl in Hin. apply orb_false_iff in Hin as [Ht Hts].
    destruct (groupStep_ok m t Hm Ht) as (m1 & E1 & Hm1 & L1).
    destruct (IH m1 Hm1 Hts) as (m2 & E2 & Hm2 & L2).
    exists m2. cbn [foldl]. rewrite E1. split; [exact E2|]. split; [exact Hm2|].
    intros d. rewrite L2, L1. simpl. now rewrite orb_assoc.
Qed.

Lemma groupByDate_from_throw tasks : forall m,
  wellGrouped m -> hasInheritedDate tasks = true ->
  foldl groupStep (Normal m) tasks = Throw TypeError.
Proof.
  induction tasks as [|t ts IH]; intros m Hm Hin; [discriminate|].
  simpl in Hin. cbn [foldl]. destruct (inherited (date t)) eqn:Ht.
  - unfold groupStep. destruct (m !! date t) as [l|] eqn:E.
    + destruct (Hm _ _ E) as [_ Hno]. congruence.
    + rewrite Ht. apply foldl_groupStep_throw.
  - destruct (groupStep_ok m t Hm Ht) as (m1 & E1 & Hm1 & _).
    rewrite E1. apply IH; assumption.
Qed.

Section Loop.

Variable checkDay : nat -> Z.
Variable completedTasks : list Task.

(** A record exists for the date checked at offset [i]. *)
Definition recordAt (i : nat) : bool :=
  hasRecordOn completedTasks (toISODateString (checkDay i)).

Lemma streakLoop_leading m :
  (forall d, lookupNonEmpty m d = hasRecordOn completedTasks d) ->
  forall remaining i streak,
    streakLoop checkDay m remaining i streak
    = streak + leading recordAt remaining i.
Proof.
  intros Hm. induction remaining as [|r IH]; intros i streak; simpl; [lia|].
  unfold recordAt at 1. rewrite <- Hm. unfold lookupNonEmpty.
  destruct (m !! toISODateString (checkDay i)) as [l|]; [|lia].
  destruct (0 <? length l)%nat; [|lia].
  rewrite IH. lia.
Qed.

End Loop.

Lemma leading_le p bound : forall i, leading p bound i <= bound.
Proof.
  induction bound as [|b IH]; intros i; simpl; [lia|].
  destruct (p i); [specialize (IH (S i))|]; lia.
Qed.

Lemma leading_all p bound : forall i j,
  j < leading p bound i -> p (i + j) = true.
Proof.
  induction bound as [|b IH]; intros i j; simpl; [lia|].
  destruct (p i) eqn:E; [|lia].
  destruct j as [|j]; intros H.
  - now rewrite Nat.add_0_r.
  - replace (i + S j) with (S i + j) by lia. apply IH. lia.
Qed.

Lemma leading_stop p bound : forall i,
  leading p bound i < bound -> p (i + leading p bound i) = false.
Proof.
  induction bound as [|b IH]; intros i; simpl; [lia|].
  destruct (p i) eqn:E; intros H.
  - replace (i + S (leading p b (S i))) with (S i + leading p b (S i)) by lia.
    apply IH. lia.
  - now rewrite Nat.add_0_r.
Qed.

Lemma leading_ext p q bound : forall i,
  (forall j, i <= j < i + bound -> p j = q j) ->
  leading p bound i = leading q bound i.
Proof.
  induction bound as [|b IH]; intros i H; simpl; [reflexivity|].
  rewrite <- (H i) by lia. destruct (p i); [|reflexivity].
  f_equal. apply IH. intros j Hj. apply H. lia.
Qed.

Lemma leading_full p bound : forall i,
  (forall j, i <= j < i + bound -> p j = true) -> leading p bound i = bound.
Proof.
  induction bound as [|b IH]; intros i H; simpl; [reflexivity|].
  rewrite (H i) by lia. f_equal. apply IH. intros j Hj. apply H. lia.
Qed.

(** [calculateStreak] in closed form: 0 on the empty list, a [TypeError]
    when a date names an inherited property, and otherwise the number of
    leading offsets among 0..364 whose date has a record. *)
Lemma calculateStreak_closed checkDay completedTasks :
  calculateStreak checkDay completedTasks
  = if hasInheritedDate completedTasks then Throw TypeError
    else Normal (leading (recordAt checkDay completedTasks) 365 0).
Proof.
  unfold calculateStreak.
  destruct completedTasks as [|t ts]; [reflexivity|].
  change (length (t :: ts) =? 0)%nat with false. cbv iota.
  set (tasks := t :: ts). unfold groupByDate.
  destruct (hasInheritedDate tasks) eqn:Hin.
  - now rewrite (groupByDate_from_throw tasks ∅ wellGrouped_empty Hin).
  - destruct (groupByDate_from tasks ∅ wellGrouped_empty Hin) as (m & E & _ & L).
    rewrite E. f_equal.
    rewrite (streakLoop_leading checkDay tasks m); [reflexivity|].
    intros d. rewrite L. unfold lookupNonEmpty. now rewrite lookup_empty.
Qed.

(** A record per day, for [n] days back from [today]. *)
Definition recordOn (day : Z) : Task :=
  mkTask ("task_" +:+ toISODateString day) (utf16 "done") 1 true
    (toISODateString day) "u1" None None None None.

Definition dailyRecords (today : Z) (n : nat) : list Task :=
  map (fun i => recordOn (today - Z.of_nat i)) (seq 0 n).

(** Today, yesterday and the day before, in no particular order, then a gap
    and an older record. *)
Definition threeDayRun : list Task :=
  [recordOn 20757; recordOn 20759; recordOn 20755; recordOn 20758].

(** A record whose date is the name of a property of [Object.prototype]. *)
Definition oddRecord : Task :=
  mkTask "task_0" (utf16 "done") 1 true "constructor" "u1" None None None None.

Definition sessionOf (uid : string) : State :=
  mkState (Some uid) [] [] false 20759 0 [] 5 [] [] [].

Lemma forallb_seq_lt (p : nat -> bool) n :
  forallb p (seq 0 n) = true -> forall i, i < n -> p i = true.
Proof.
  intros H i Hi. rewrite forallb_forall in H. apply H. apply in_seq. lia.
Qed.

Lemma leading_none p bound i : p i = false -> leading p bound i = 0.
Proof. intros H. destruct bound; simpl; [reflexivity|now rewrite H]. Qed.

Lemma currentStreak_set n st : currentStreak (setCurrentStreak n st) = n.
Proof. reflexivity. Qed.

Example streak_three_days :
  calculateStreak (utcCheckDay 20759) threeDayRun = Normal 3.
Proof. vm_compute. reflexivity. Qed.

Example streak_today_missing :
  calculateStreak (utcCheckDay 20759) (dailyRecords 20758 30) = Normal 0.
Proof. vm_compute. reflexivity. Qed.

Example streak_empty : calculateStreak (utcCheckDay 20759) [] = Normal 0.
Proof. reflexivity. Qed.

(** C2: whatever the history, the calculator answers at most 365 (or throws,
    which the caller turns into a streak of 0), its answer depends on the
    dates of the offsets 0..364 only, and an unbroken run of 400 days yields
    exactly 365. *)
Theorem calculateStreak_lookback_365 (checkDay : nat -> Z) (completedTasks : list Task) :
  match calculateStreak checkDay completedTasks with
  | Normal n => n <= 365
  | Throw _ => hasInheritedDate completedTasks = true
  end /\
  (forall st uid, userId st = Some uid ->
     currentStreak (loadCompletedTasksHistory checkDay (Some completedTasks) st)
     <= 365) /\
  (forall checkDay' : nat -> Z,
     (forall i, i < 365 -> checkDay' i = checkDay i) ->
     calculateStreak checkDay' completedTasks
     = calculateStreak checkDay completedTasks) /\
  (hasInheritedDate completedTasks = false ->
   (forall i, i < 400 -> recordAt checkDay completedTasks i = true) ->
   calculateStreak checkDay completedTasks = Normal 365).
Proof.
  repeat apply conj.
  - rewrite calculateStreak_closed.
    destruct (hasInheritedDate completedTasks); [reflexivity|apply leading_le].
  - intros st uid Huid. unfold loadCompletedTasksHistory.
    rewrite Huid, calculateStreak_closed.
    destruct (hasInheritedDate completedTasks); rewrite currentStreak_set;
      [lia|apply leading_le].
  - intros checkDay' Hsame. rewrite !calculateStreak_closed.
    destruct (hasInheritedDate completedTasks); [reflexivity|].
    apply (f_equal (@Normal nat)). apply leading_ext. intros j Hj. unfold recordAt.
    rewrite Hsame by lia. reflexivity.
  - intros Hin Hrun. rewrite calculateStreak_closed, Hin.
    apply (f_equal (@Normal nat)). apply leading_full. intros j Hj. apply Hrun. lia.
Qed.

(** Dates that agree with [utcCheckDay 20759] on the offsets the loop
    reads and differ beyond. *)
Definition otherCheckDay (i : nat) : Z :=
  if (i <? 365)%nat then utcCheckDay 20759 i else 0%Z.

Lemma calculateStreak_lookback_365_witness :
  calculateStreak (utcCheckDay 20759) (dailyRecords 20759 400) = Normal 365 /\
  calculateStreak otherCheckDay (dailyRecords 20759 400)
  = calculateStreak (utcCheckDay 20759) (dailyRecords 20759 400) /\
  currentStreak
    (loadCompletedTasksHistory (utcCheckDay 20759)
       (Some (dailyRecords 20759 400)) (sessionOf "u1")) <= 365.
Proof.
  pose proof (calculateStreak_lookback_365 (utcCheckDay 20759)
                (dailyRecords 20759 400)) as (_ & Hload & Hsame & Hrun).
  split; [|split].
  - apply Hrun.
    + vm_compute. reflexivity.
    + refine (forallb_seq_lt
                (recordAt (utcCheckDay 20759) (dailyRecords 20759 400)) 400 _).
      vm_compute. reflexivity.
  - apply Hsame. intros i Hi. unfold otherCheckDay.
    apply Nat.ltb_lt in Hi. rewrite Hi. reflexivity.
  - apply (Hload (sessionOf "u1") "u1"%string). reflexivity.
Defined.

End StreakProofs.

(** ** The streak calculator and the calendar *)

Module StreakDateProofs.
Import JS App Dates StreakProofs.

(** *** The dates the loop checks *)

Example iso_summer_start : toISODateString 20541 = "2026-03-29"%string.
Proof. reflexivity. Qed.

Example iso_summer_end : toISODateString 20751 = "2026-10-25"%string.
Proof. reflexivity. Qed.

(** Through 2026 and 2027 [firstOfMonth] is the first of the same month. *)
Example firstOfMonth_2026_2027 :
  forallb (fun k =>
             let day := (20454 + Z.of_nat k)%Z in
             let '(y, m, _) := civilFromDays day in
             let '(y1, m1, d1) := civilFromDays (firstOfMonth (day * msPerDay + 1800000)) in
             ((y1 =? y) && (m1 =? m) && (d1 =? 1))%Z)
          (seq 0 730) = true.
Proof. vm_compute. reflexivity. Qed.

(** [setDate] with the date of this month moved back by [i] moves the local
    time back by [i] days of 24 hours. *)
Lemma setDate_back tz today i :
  checkDate tz today i
  = UTC tz (LocalTime tz today - Z.of_nat i * msPerDay)%Z.
Proof.
  unfold checkDate, setDate, getDate, MakeDayInMonthOf, firstOfMonth, MakeDate.
  f_equal. set (local := LocalTime tz today).
  pose proof (Z.div_mod local msPerDay) as H.
  unfold Day, TimeWithinDay. unfold msPerDay in *. lia.
Qed.

(** Where the offset never changes the loop checks the UTC days back from
    the UTC day of [today], one by one. *)
Lemma checkDayOf_fixedOffset c today i :
  checkDayOf (fixedOffset c) today i = utcCheckDay (Day today) i.
Proof.
  unfold checkDayOf. rewrite setDate_back. unfold UTC, LocalTime, utcCheckDay. simpl.
  replace (today + c - Z.of_nat i * msPerDay - c)%Z
    with (today + (- Z.of_nat i) * msPerDay)%Z by lia.
  unfold Day. rewrite Z.div_add by (unfold msPerDay; lia). lia.
Qed.

Lemma checkDate_fixedOffset c today i :
  checkDate (fixedOffset c) today i = (today - Z.of_nat i * msPerDay)%Z.
Proof. rewrite setDate_back. unfold UTC, LocalTime. simpl. lia. Qed.

(** Half past midnight UTC on 2026-10-26, which is 01:30 in central Europe,
    the day after the clocks went back. *)
Definition lateOctober : Z := (20752 * msPerDay + 1800000)%Z.

(** A record on each of 2026-10-26, 2026-10-25 and 2026-10-24, as the store
    lists them. *)
Definition threeDays : list Task := dailyRecords 20752 3.

Example threeDays_dates :
  map date threeDays = ["2026-10-26"; "2026-10-25"; "2026-10-24"]%string.
Proof. reflexivity. Qed.

Example centralEurope_walk :
  map (fun i => toISODateString (checkDayOf centralEurope lateOctober i)) (seq 0 4)
  = ["2026-10-26"; "2026-10-24"; "2026-10-23"; "2026-10-22"]%string.
Proof. vm_compute. reflexivity. Qed.

(** C1: the calculator groups the records by date and walks back from today,
    counting until a date has no record (and for 365 dates at most). In a
    time zone whose offset never changes, and on a clock within the range of
    time values, the dates it walks are the consecutive UTC calendar days
    back from today's, the days the records are dated by, so its answer is
    the length of the run of consecutive calendar days with a record,
    counted back from today: 0 when today has no record, and 0 on the empty
    collection in every zone. The walk, however, steps
    back by local days and prints UTC dates: in central Europe at 01:30 on
    2026-10-26 it goes from 2026-10-26 to 2026-10-24, so with a record on
    each of the 26th, 25th and 24th, a run of three days, the answer is 2. A
    record whose date names a property inherited from [Object.prototype]
    makes the grouping throw a [TypeError]. *)
Theorem calculateStreak_walks_local_days :
  (forall c today completedTasks,
     (0 <= today <= maxTime)%Z ->
     hasInheritedDate completedTasks = false ->
     exists n,
       calculateStreak (checkDayOf (fixedOffset c) today) completedTasks = Normal n /\
       n <= 365 /\
       (forall i, i < n ->
          (- maxTime <= checkDate (fixedOffset c) today i <= maxTime)%Z /\
          hasRecordOn completedTasks
            (toISODateString (Day today - Z.of_nat i)) = true) /\
       (n < 365 ->
          hasRecordOn completedTasks
            (toISODateString (Day today - Z.of_nat n)) = false) /\
       (hasRecordOn completedTasks (toISODateString (Day today)) = false -> n = 0)) /\
  (forall tz today, calculateStreak (checkDayOf tz today) [] = Normal 0) /\
  (forall tz today completedTasks,
     hasInheritedDate completedTasks = true ->
     calculateStreak (checkDayOf tz today) completedTasks = Throw TypeError) /\
  (toISODateString (Day lateOctober) = "2026-10-26"%string /\
   getDate centralEurope lateOctober = 26%Z /\
   map date threeDays = map (fun i => toISODateString (Day lateOctober - Z.of_nat i))
                            (seq 0 3) /\
   hasRecordOn threeDays (toISODateString (Day lateOctober - 3)) = false /\
   map (checkDayOf centralEurope lateOctober) (seq 0 3)
   = [Day lateOctober; Day lateOctober - 2; Day lateOctober - 3]%Z /\
   calculateStreak (checkDayOf centralEurope lateOctober) threeDays = Normal 2 /\
   calculateStreak (checkDayOf (fixedOffset hour) lateOctober) threeDays = Normal 3).
Proof.
  split; [|split; [|split]].
  - intros c today completedTasks Hclock Hin.
    rewrite calculateStreak_closed, Hin.
    set (p := recordAt (checkDayOf (fixedOffset c) today) completedTasks).
    assert (Hp : forall i, p i = hasRecordOn completedTasks
                                   (toISODateString (Day today - Z.of_nat i))).
    { intros i. unfold p, recordAt. now rewrite checkDayOf_fixedOffset. }
    exists (leading p 365 0). split; [reflexivity|].
    pose proof (leading_le p 365 0) as Hle.
    split; [exact Hle|]. split; [|split].
    + intros i Hi. split.
      * rewrite checkDate_fixedOffset. unfold maxTime, msPerDay in *. lia.
      * rewrite <- Hp. exact (leading_all p 365 0 i Hi).
    + intros Hlt. rewrite <- Hp. exact (leading_stop p 365 0 Hlt).
    + intros Htoday. apply leading_none. rewrite Hp.
      now rewrite Z.sub_0_r.
  - intros tz today. reflexivity.
  - intros tz today completedTasks Hin. now rewrite calculateStreak_closed, Hin.
  - vm_compute. repeat split.
Qed.

End StreakDateProofs.

(** ** The badge evaluator *)

Module BadgeProofs.
Import JS Gamification.

(** The badge catalog of the specification, in its order, and the
    eligibility condition of each entry. *)
Definition catalog : list string :=
  ["streak_3"; "streak_7"; "streak_14"; "streak_30"; "weekly_goal"]%string.

Definition eligible (currentStreak completedTasksThisWeek weeklyGoal : float)
    (badgeType : string) : bool :=
  if String.eqb badgeType "streak_3" then (3 <=? currentStreak)%float
  else if String.eqb badgeType "streak_7" then (7 <=? currentStreak)%float
  else if String.eqb badgeType "streak_14" then (14 <=? currentStreak)%float
  else if String.eqb badgeType "streak_30" then (30 <=? currentStreak)%float
  else if String.eqb badgeType "weekly_goal"
  then (100 <=? weeklyProgressOf completedTasksThisWeek weeklyGoal)%float
  else false.

(** Newly eligible and not yet earned. *)
Definition due (existingBadgeTypes : list string)
    (currentStreak completedTasksThisWeek weeklyGoal : float)
    (badgeType : string) : bool :=
  eligible currentStreak completedTasksThisWeek weeklyGoal badgeType
  && negb (includes existingBadgeTypes badgeType).

Lemma newBadges_filter existing s c g :
  newBadges existing s c g = List.filter (due existing s c g) catalog.
Proof.
  unfold newBadges, catalog, due, eligible. cbn [List.filter String.eqb Ascii.eqb Bool.eqb andb].
  destruct ((3 <=? s)%float && negb (includes existing "streak_3"));
  destruct ((7 <=? s)%float && negb (includes existing "streak_7"));
  destruct ((14 <=? s)%float && negb (includes existing "streak_14"));
  destruct ((30 <=? s)%float && negb (includes existing "streak_30"));
  destruct ((100 <=? weeklyProgressOf c g)%float && negb (includes existing "weekly_goal"));
  reflexivity.
Qed.

Lemma includes_In existing b : includes existing b = true <-> In b existing.
Proof.
  unfold includes. rewrite existsb_exists. split.
  - intros (x & Hx & E). apply String.eqb_eq in E. now subst.
  - intros H. exists b. split; [exact H|apply String.eqb_refl].
Qed.

(** C3: the evaluator returns, in catalog order and in one pass, exactly the
    catalog entries that are eligible and not yet earned; with a streak of
    10, the weekly progress below 100 and nothing earned yet, that is
    [streak_3; streak_7]. *)
Theorem newBadges_catalog_order :
  (forall existing s c g,
     newBadges existing s c g = List.filter (due existing s c g) catalog) /\
  (forall c g, (100 <=? weeklyProgressOf c g)%float = false ->
     newBadges [] 10 c g = ["streak_3"; "streak_7"]%string).
Proof.
  split; [exact newBadges_filter|].
  intros c g Hweek. unfold newBadges. rewrite Hweek. reflexivity.
Qed.

Lemma newBadges_catalog_order_witness :
  (100 <=? weeklyProgressOf 20 35)%float = false /\
  newBadges [] 10 20 35 = ["streak_3"; "streak_7"]%string.
Proof.
  split; [reflexivity|].
  exact (proj2 newBadges_catalog_order 20%float 35%float eq_refl).
Defined.

Lemma filter_none {A} (f : A -> bool) (l : list A) :
  (forall x, In x l -> f x = false) -> List.filter f l = [].
Proof.
  induction l as [|a l IH]; intros H; simpl; [reflexivity|].
  rewrite (H a) by (left; reflexivity). apply IH. intros x Hx. apply H. now right.
Qed.

Lemma newBadges_not_earned existing s c g b :
  includes existing b = true -> includes (newBadges existing s c g) b = false.
Proof.
  intros Hb. destruct (includes (newBadges existing s c g) b) eqn:E; [|reflexivity].
  apply includes_In in E. rewrite newBadges_filter in E.
  apply filter_In in E as [_ Hdue]. unfold due in Hdue.
  rewrite Hb in Hdue. now rewrite andb_false_r in Hdue.
Qed.

Lemma newBadges_second_pass existing existing' s c g :
  incl existing existing' -> incl (newBadges existing s c g) existing' ->
  newBadges existing' s c g = [].
Proof.
  intros Hold Hnew. rewrite newBadges_filter. apply filter_none.
  intros b Hb. unfold due.
  destruct (eligible s c g b) eqn:El; [|reflexivity].
  destruct (includes existing' b) eqn:E'; [reflexivity|]. exfalso.
  assert (Hin : In b existing').
  { destruct (includes existing b) eqn:E.
    - apply Hold. now apply includes_In.
    - apply Hnew. rewrite newBadges_filter. apply filter_In. split; [exact Hb|].
      unfold due. now rewrite El, E. }
  apply includes_In in Hin. congruence.
Qed.

(** The award loop, when every create call is fulfilled, puts the new badges
    in front of the earned ones. *)
Lemma award_all env uid cs wp new : forall st,
  (forall b, createOk env b = true) ->
  map badge_type (badges (foldl (award env uid cs wp) st new))
  = rev new ++ map badge_type (badges st) /\
  props (foldl (award env uid cs wp) st new) = props st /\
  weeklyGoal (foldl (award env uid cs wp) st new) = weeklyGoal st.
Proof.
  induction new as [|b new IH]; intros st Hok; [now split|].
  cbn [foldl]. destruct (IH (award env uid cs wp st b) Hok) as (Hb & Hp & Hg).
  rewrite Hb, Hp, Hg. unfold award. rewrite Hok. cbn.
  rewrite <- app_assoc. now split.
Qed.

(** C4: a badge type in the already-earned set is never returned, whether
    or not its condition holds, so evaluating again with the same metrics
    and an already-earned set that includes the earlier set and the first
    result returns the empty list; this is the case after the award loop has
    stored the first result. *)
Theorem newBadges_idempotent :
  (forall existing s c g b,
     includes existing b = true ->
     includes (newBadges existing s c g) b = false) /\
  (forall existing existing' s c g,
     incl existing existing' -> incl (newBadges existing s c g) existing' ->
     newBadges existing' s c g = []) /\
  (forall env st uid,
     userId st = Some uid -> (forall b, createOk env b = true) ->
     let st' := checkAndAwardBadges env st in
     newBadges (map badge_type (badges st')) (currentStreak (props st'))
       (completedTasksThisWeek (props st')) (weeklyGoal st') = []).
Proof.
  split; [exact newBadges_not_earned|]. split; [exact newBadges_second_pass|].
  intros env st uid Huid Hok. unfold checkAndAwardBadges. rewrite Huid.
  match goal with |- context [foldl (award ?e ?u ?cs ?wp) ?s0 ?l] =>
    destruct (award_all e u cs wp l s0 Hok) as (Hb & Hp & Hg)
  end.
  cbv zeta. rewrite Hb, Hp, Hg. cbn [props weeklyGoal badges].
  eapply newBadges_second_pass.
  - intros b Hb'. apply in_or_app. right. exact Hb'.
  - intros b Hb'. apply in_or_app. left. now apply in_rev in Hb'.
Qed.

(** A runtime whose create calls are all fulfilled. *)
Definition everyCreateOk : Env :=
  mkEnv (fun _ => "1793600000000"%string)
        (fun _ => "2026-11-02T10:00:00.000Z"%string) (fun _ => true).

(** A user with one badge and a streak of 10. *)
Definition oneBadge : State :=
  mkState (mkProps (Some "u1"%string) 10 20 35)
    [mkBadge "badge_1_streak_3" "u1" "streak_3" "2026-10-26T08:00:00.000Z"
       (mkBadgeData 3 20)]
    35 None [] [] 0 [].

Lemma newBadges_idempotent_witness :
  includes (newBadges ["streak_3"%string] 10 20 35) "streak_3" = false /\
  newBadges (["streak_7"; "streak_3"]%string) 10 20 35 = [] /\
  let st' := checkAndAwardBadges everyCreateOk oneBadge in
  newBadges (map badge_type (badges st')) (currentStreak (props st'))
    (completedTasksThisWeek (props st')) (weeklyGoal st') = [].
Proof.
  pose proof newBadges_idempotent as (Hearned & Hsecond & Hstored).
  split; [|split].
  - apply Hearned. reflexivity.
  - apply (Hsecond ["streak_3"%string]).
    + intros b [<-|[]]. right. left. reflexivity.
    + intros b [<-|[]]. left. reflexivity.
  - apply (Hstored everyCreateOk oneBadge "u1"%string); reflexivity.
Defined.

Example award_streak_7 :
  map badge_type (badges (checkAndAwardBadges everyCreateOk oneBadge))
  = ["streak_7"; "streak_3"]%string.
Proof. reflexivity. Qed.

(** The award gate. *)

Definition holdsNoBadge (rows : list Badge) (p : Props) : bool :=
  match user p with
  | Some uid => match storeListBadges uid rows with [] => true | _ => false end
  | None => true
  end.

(** The props of the renders an event list asks for. *)
Definition renders (events : list (Env * Event)) : list Props :=
  omap (fun ee => match snd ee with Render p => Some p | _ => None end) events.

Definition isCreate (c : StoreCall) : bool :=
  match c with UserBadgesCreate _ => true | UserBadgesList _ => false end.

(** A component whose user holds no badge: nothing loaded, nothing checked,
    nothing created, the table as it was. *)
Definition idle (rows : list Badge) (st : State) : Prop :=
  badges st = [] /\ db st = rows /\ checks st = 0 /\
  existsb isCreate (calls st) = false /\ toasts st = [] /\
  holdsNoBadge rows (props st) = true.

Lemma awardEffect_gate env st : badges st = [] -> awardEffect env st = st.
Proof. intros H. unfold awardEffect. now rewrite H. Qed.

Lemma step_idle rows env e st :
  idle rows st ->
  match e with Render p => holdsNoBadge rows p = true | _ => True end ->
  idle rows (step env st e).
Proof.
  intros (Hb & Hdb & Hch & Hcalls & Ht & Hno) He. unfold step.
  assert (Hidle : idle rows (handle e st)).
  { destruct e as [p|listOk| | |]; cbn [handle];
      try (repeat split; assumption).
    unfold loadBadges, userId.
    pose proof Hno as Hrows. unfold holdsNoBadge in Hrows.
    destruct (user (props st)) as [uid|];
      [|repeat split; assumption].
    destruct (String.eqb uid ""); [repeat split; assumption|].
    repeat split; cbn; try assumption.
    - destruct listOk; [|exact Hb]. rewrite Hdb.
      destruct (storeListBadges uid rows); [reflexivity|discriminate].
    - rewrite existsb_app, Hcalls. reflexivity. }
  rewrite awardEffect_gate; [exact Hidle|apply Hidle].
Qed.

Lemma run_idle rows events : forall st,
  idle rows st -> forallb (holdsNoBadge rows) (renders events) = true ->
  idle rows (run events st).
Proof.
  induction events as [|[env e] events IH]; intros st Hst Hr; [exact Hst|].
  unfold run. cbn [foldl fst snd]. apply IH.
  - apply step_idle; [exact Hst|].
    destruct e; try exact I. cbn in Hr. now apply andb_true_iff in Hr.
  - destruct e; cbn in Hr; try exact Hr. now apply andb_true_iff in Hr.
Qed.

(** C10: the award routine runs only behind the gate [badges.length > 0];
    for a user who holds no badge the earned-badge collection stays empty in
    every reachable state, so no eligibility check runs and no badge record
    is created, whatever the streak and the weekly count become. *)
Theorem award_gate_zero_badges :
  (forall env st, badges st = [] -> awardEffect env st = st) /\
  (forall p rows events,
     forallb (holdsNoBadge rows) (p :: renders events) = true ->
     let st := run events (initial p rows) in
     badges st = [] /\ checks st = 0 /\ db st = rows /\
     existsb isCreate (calls st) = false /\ toasts st = []).
Proof.
  split; [exact awardEffect_gate|].
  intros p rows events H. cbn [forallb] in H. apply andb_true_iff in H as [Hp Hr].
  destruct (run_idle rows events (initial p rows)) as (Hb & Hdb & Hch & Hc & Ht & _);
    [repeat split; assumption|exact Hr|].
  cbv zeta. repeat split; assumption.
Qed.

(** Another user's badge in the table; the user [u1] holds none. *)
Definition otherRows : list Badge :=
  [mkBadge "badge_1_streak_3" "u2" "streak_3" "2026-10-01T08:00:00.000Z"
     (mkBadgeData 3 20)].

Definition longStreakRun : list (Env * Event) :=
  [ (everyCreateOk, BadgesLoaded true);
    (everyCreateOk, Render (mkProps (Some "u1"%string) 400 90 35));
    (everyCreateOk, LowerGoal);
    (everyCreateOk, BadgesLoaded true);
    (everyCreateOk, Render (mkProps (Some "u1"%string) 1000 500 35)) ].

Lemma award_gate_zero_badges_witness :
  awardEffect everyCreateOk (initial (mkProps (Some "u1"%string) 30 40 35) otherRows)
  = initial (mkProps (Some "u1"%string) 30 40 35) otherRows /\
  let st := run longStreakRun (initial (mkProps (Some "u1"%string) 30 40 35) otherRows) in
  badges st = [] /\ checks st = 0 /\ db st = otherRows /\
  existsb isCreate (calls st) = false /\ toasts st = [].
Proof.
  pose proof award_gate_zero_badges as (Hgate & Hrun).
  split.
  - apply Hgate. reflexivity.
  - apply (Hrun (mkProps (Some "u1"%string) 30 40 35) otherRows longStreakRun).
    reflexivity.
Defined.

End BadgeProofs.

(** ** The daily capacity policy and the operations on the day's tasks *)

Module TaskProofs.
Import JS App.

Lemma trimStart_blank s : forallb isWhiteSpace s = true -> trimStart s = [].
Proof.
  induction s as [|c s IH]; simpl; [reflexivity|].
  intros H. apply andb_true_iff in H as [Hc Hs]. rewrite Hc. auto.
Qed.

Lemma trim_blank s : forallb isWhiteSpace s = true -> trim s = [].
Proof. intros H. unfold trim. now rewrite (trimStart_blank s H). Qed.

Lemma canAddTask_lt currentCount dailyLimit :
  canAddTask currentCount dailyLimit = true
  <-> (Z.of_nat currentCount < dailyLimit)%Z.
Proof.
  unfold canAddTask. rewrite negb_true_iff, Z.leb_gt. reflexivity.
Qed.

Lemma addTask_rejected newId createOk st :
  canAddTask (length (tasks st)) (dailyTaskLimit st) = false \/
  forallb isWhiteSpace (newTaskTitle st) = true ->
  calls (addTask newId createOk st) = calls st /\
  db (addTask newId createOk st) = db st /\
  tasks (addTask newId createOk st) = tasks st.
Proof.
  intros H. unfold addTask.
  destruct (userId st) as [uid|]; [|now repeat split].
  destruct (trim (newTaskTitle st)) as [|c rest] eqn:Etrim; [now repeat split|].
  destruct (isCreatingTask st); [now repeat split|].
  destruct H as [H|H].
  - unfold canAddTask in H. apply negb_false_iff in H. rewrite H. now repeat split.
  - rewrite (trim_blank _ H) in Etrim. discriminate.
Qed.

(** A user with the default limit of 5 who adds five tasks and tries a
    sixth. *)
Definition signedIn (title : string) : State :=
  mkState (Some "u1"%string) [] (utf16 title) false 20759 0 [] 5 [] [] [].

Definition typeTitle (title : string) (st : State) : State :=
  setNewTaskTitle (utf16 title) st.

Definition afterFiveTasks : State :=
  let st := addTask "task_1" true (signedIn "write report") in
  let st := addTask "task_2" true (typeTitle "call Ana" st) in
  let st := addTask "task_3" true (typeTitle "review budget" st) in
  let st := addTask "task_4" true (typeTitle "gym" st) in
  addTask "task_5" true (typeTitle "read" st).

(** C5: [canAddTask] is true exactly below the limit, and [addTask] issues
    no store call (and changes neither the store nor the task list) when the
    day's task count has reached the limit or the title is empty or blank;
    with a limit of 5 a sixth task is rejected this way. *)
Theorem addTask_validated_locally :
  (forall currentCount dailyLimit,
     canAddTask currentCount dailyLimit = true
     <-> (Z.of_nat currentCount < dailyLimit)%Z) /\
  (forall newId createOk st,
     canAddTask (length (tasks st)) (dailyTaskLimit st) = false \/
     forallb isWhiteSpace (newTaskTitle st) = true ->
     calls (addTask newId createOk st) = calls st /\
     db (addTask newId createOk st) = db st /\
     tasks (addTask newId createOk st) = tasks st) /\
  (forall newId createOk st,
     dailyTaskLimit st = 5%Z -> length (tasks st) = 5 ->
     calls (addTask newId createOk st) = calls st /\
     db (addTask newId createOk st) = db st /\
     tasks (addTask newId createOk st) = tasks st).
Proof.
  split; [exact canAddTask_lt|]. split; [exact addTask_rejected|].
  intros newId createOk st Hlimit Hcount. apply addTask_rejected. left.
  unfold canAddTask. now rewrite Hlimit, Hcount.
Qed.

Definition sixthAttempt : State := typeTitle "one more" afterFiveTasks.

Definition blankAttempt : State := typeTitle "   " (signedIn "x").

Lemma addTask_validated_locally_witness :
  (length (tasks afterFiveTasks) = 5 /\ length (calls afterFiveTasks) = 5) /\
  (canAddTask 4 5 = true /\ canAddTask 5 5 = false) /\
  calls (addTask "task_6" true sixthAttempt) = calls sixthAttempt /\
  calls (addTask "task_2" true blankAttempt) = calls blankAttempt.
Proof.
  pose proof addTask_validated_locally as (_ & Hblank & Hsixth).
  split; [split; vm_compute; reflexivity|].
  split; [split; reflexivity|]. split.
  - apply Hsixth; vm_compute; reflexivity.
  - apply Hblank. right. vm_compute. reflexivity.
Defined.

(** *** [movePriority] *)

(** The priorities 1..n. *)
Definition oneToN (n : nat) : list Z := map (fun k => Z.of_nat k + 1)%Z (seq 0 n).

(** [newIndex] of [movePriority]. *)
Definition neighbour (direction : Direction) (taskIndex : nat) : Z :=
  match direction with
  | up => (Z.of_nat taskIndex - 1)%Z
  | down => (Z.of_nat taskIndex + 1)%Z
  end.

Lemma findIndex_lookup taskId l : forall i,
  findIndex taskId l = Some i ->
  exists t, l !! i = Some t /\ String.eqb (id t) taskId = true.
Proof.
  induction l as [|u l IH]; intros i H; [discriminate|].
  simpl in H. destruct (String.eqb (id u) taskId) eqn:E.
  - injection H as <-. exists u. now split.
  - destruct (findIndex taskId l) as [k|]; [|discriminate].
    injection H as <-. destruct (IH k eq_refl) as (t & Ht & Hid).
    exists t. now split.
Qed.

Lemma imap_priority (f : nat -> Z) l :
  map priority (imap (fun k t => setPriority (f k) t) l)
  = map f (seq 0 (length l)).
Proof.
  revert f. induction l as [|t l IH]; intros f; [reflexivity|].
  cbn [imap length seq map]. f_equal.
  rewrite <- seq_shift, map_map. apply (IH (fun k => f (S k))).
Qed.

Lemma renumber_priority l : map priority (renumber l) = oneToN (length l).
Proof. apply (imap_priority (fun k => Z.of_nat k + 1)%Z). Qed.

Lemma imap_keeps {B} (g : Task -> B) (f : nat -> Z) l :
  (forall p t, g (setPriority p t) = g t) ->
  map g (imap (fun k t => setPriority (f k) t) l) = map g l.
Proof.
  intros Hg. revert f. induction l as [|t l IH]; intros f; [reflexivity|].
  cbn [imap map]. f_equal; [apply Hg|]. apply (IH (fun k => f (S k))).
Qed.

Lemma renumber_id l : map id (renumber l) = map id l.
Proof. now apply (imap_keeps id). Qed.

Lemma renumber_title l : map title (renumber l) = map title l.
Proof. now apply (imap_keeps title). Qed.

Lemma renumber_length l : length (renumber l) = length l.
Proof. unfold renumber. apply length_imap. Qed.

(** The store after the priority updates of [updatedTasks], in order. *)
Definition applyUpdates (updatedTasks rows : list Task) : list Task :=
  foldl (fun rows task =>
           storeUpdate (id task) (setPriority (priority task)) rows)
        rows updatedTasks.

Lemma updatePriorities_fulfilled updatedTasks : forall st,
  exists st',
    updatePriorities None updatedTasks st = (st', true) /\
    tasks st' = tasks st /\ db st' = applyUpdates updatedTasks (db st) /\
    user st' = user st /\ selectedDate st' = selectedDate st /\
    toasts st' = toasts st /\
    calls st' = calls st
      ++ map (fun t => TasksUpdatePriority (id t) (priority t)) updatedTasks.
Proof.
  induction updatedTasks as [|t l IH]; intros st.
  - exists st. cbn. rewrite app_nil_r. repeat split.
  - cbn [updatePriorities option_map].
    match goal with |- context [updatePriorities None l ?s] =>
      destruct (IH s) as (st' & E & Ht & Hdb & Hu & Hd & Hto & Hc) end.
    exists st'. rewrite E. cbn in *. rewrite Hc, <- app_assoc.
    repeat split; assumption.
Qed.

Lemma movePriority_tasks taskId direction reloadOk st i t :
  findIndex taskId (tasks st) = Some i -> tasks st !! i = Some t ->
  (0 <= neighbour direction i < Z.of_nat (length (tasks st)))%Z ->
  tasks (movePriority taskId direction None reloadOk st)
  = renumber (spliceIn (Z.to_nat (neighbour direction i)) t (delete i (tasks st))).
Proof.
  intros Hi Ht Hrange. unfold movePriority. rewrite Hi.
  fold (neighbour direction i).
  replace ((neighbour direction i <? 0)%Z
           || (Z.of_nat (length (tasks st)) <=? neighbour direction i)%Z)
    with false by (symmetry; apply orb_false_iff; split; lia).
  rewrite Ht.
  match goal with |- context [updatePriorities None ?l ?s] =>
    destruct (updatePriorities_fulfilled l s) as (st' & E & Hts & _) end.
  rewrite E. cbn. exact Hts.
Qed.

Lemma movePriority_noop taskId direction rejectAt reloadOk st :
  findIndex taskId (tasks st) = None \/
  (exists i, findIndex taskId (tasks st) = Some i /\
     ((neighbour direction i < 0)%Z \/
      (Z.of_nat (length (tasks st)) <= neighbour direction i)%Z)) ->
  movePriority taskId direction rejectAt reloadOk st = st.
Proof.
  intros [H|(i & H & Hout)]; unfold movePriority; rewrite H; [reflexivity|].
  fold (neighbour direction i).
  replace ((neighbour direction i <? 0)%Z
           || (Z.of_nat (length (tasks st)) <=? neighbour direction i)%Z)
    with true; [reflexivity|].
  symmetry. apply orb_true_iff. destruct Hout; [left|right]; lia.
Qed.

(** *** The priorities of the day's tasks *)

(** The record belongs to the user and the day. *)
Definition onDay (uid dateStr : string) (t : Task) : bool :=
  String.eqb (user_id t) uid && String.eqb (date t) dateStr.

(** The rows of the store for the user and the selected day. *)
Definition dayRows (uid : string) (st : State) : list Task :=
  List.filter (onDay uid (dateStr st)) (db st).

(** The priorities of [l] are a permutation of 1..count. *)
Definition contiguous (l : list Task) : Prop :=
  Permutation (map priority l) (oneToN (length l)).

(** The invariant of a signed-in session: the day's list has contiguous
    priorities, it holds the rows the store has for the day, and ids are
    keys of the table. *)
Record consistent (uid : string) (st : State) : Prop := mkConsistent {
  signed : userId st = Some uid;
  local_contiguous : contiguous (tasks st);
  coherent : Permutation (tasks st) (dayRows uid st);
  keys : List.NoDup (map id (db st))
}.

Lemma consistent_same uid st st' :
  user st' = user st -> tasks st' = tasks st -> db st' = db st ->
  selectedDate st' = selectedDate st ->
  consistent uid st -> consistent uid st'.
Proof.
  intros Hu Ht Hd Hs [H1 H2 H3 H4]. split.
  - unfold userId in *. now rewrite Hu.
  - now rewrite Ht.
  - unfold dayRows, dateStr in *. now rewrite Ht, Hd, Hs.
  - now rewrite Hd.
Qed.

Lemma oneToN_S n : oneToN (S n) = oneToN n ++ [(Z.of_nat n + 1)%Z].
Proof. unfold oneToN. now rewrite seq_S, map_app. Qed.

Lemma contiguous_rows uid st : consistent uid st -> contiguous (dayRows uid st).
Proof.
  intros [_ Hc Hp _]. unfold contiguous in *.
  rewrite <- (Permutation_length Hp).
  now rewrite <- (Permutation_map priority Hp).
Qed.

Lemma insertByPriority_perm t sorted :
  Permutation (insertByPriority t sorted) (t :: sorted).
Proof.
  induction sorted as [|u rest IH]; simpl; [reflexivity|].
  destruct (priority u <=? priority t)%Z; [|reflexivity].
  rewrite IH. apply perm_swap.
Qed.

Lemma orderByPriority_perm rows : Permutation (orderByPriority rows) rows.
Proof.
  unfold orderByPriority.
  assert (H : forall acc, Permutation
            (foldl (fun sorted t => insertByPriority t sorted) acc rows)
            (rows ++ acc)).
  { induction rows as [|t rows IH]; intros acc; [reflexivity|].
    cbn [foldl]. rewrite IH, insertByPriority_perm.
    simpl. symmetry. apply Permutation_middle. }
  rewrite H, app_nil_r. reflexivity.
Qed.

Lemma filter_map_keeps (p : Task -> bool) (g : Task -> Task) l :
  (forall t, p (g t) = p t) ->
  List.filter p (map g l) = map g (List.filter p l).
Proof.
  intros H. induction l as [|t l IH]; simpl; [reflexivity|].
  rewrite H. destruct (p t); simpl; now rewrite IH.
Qed.

Lemma NoDup_map_filter {B} (g : Task -> B) (p : Task -> bool) l :
  List.NoDup (map g l) -> List.NoDup (map g (List.filter p l)).
Proof.
  induction l as [|t l IH]; simpl; intros H; [constructor|].
  inversion H as [|? ? Hnot Hrest]; subst.
  destruct (p t); simpl; [|auto].
  constructor; [|auto]. intros Hin. apply Hnot.
  apply in_map_iff in Hin as (u & Hu & Hin). apply in_map_iff.
  exists u. split; [exact Hu|]. apply filter_In in Hin. tauto.
Qed.

Lemma consistent_ids uid st :
  consistent uid st -> List.NoDup (map id (tasks st)).
Proof.
  intros [_ _ Hp Hk].
  apply (Permutation_NoDup (l := map id (dayRows uid st))).
  - symmetry. now apply Permutation_map.
  - now apply NoDup_map_filter.
Qed.

(** *** [addTask] *)

Lemma addTask_consistent uid st newId createOk :
  consistent uid st -> ~ In newId (map id (db st)) ->
  consistent uid (addTask newId createOk st) /\
  (tasks (addTask newId createOk st) = tasks st \/
   exists t,
     tasks (addTask newId createOk st) = tasks st ++ [t] /\
     priority t = (Z.of_nat (length (tasks st)) + 1)%Z).
Proof.
  intros Hc Hfresh. pose proof Hc as [Hu Hl Hp Hk].
  unfold addTask. rewrite Hu.
  destruct (trim (newTaskTitle st)) as [|c rest]; [now split; [|left]|].
  destruct (isCreatingTask st); [now split; [|left]|].
  destruct (dailyTaskLimit st <=? Z.of_nat (length (tasks st)))%Z.
  { split; [|now left]. now apply (consistent_same uid st). }
  destruct createOk.
  2: { split; [|now left]. now apply (consistent_same uid st). }
  set (newTask := mkTask newId _ _ _ _ _ _ _ _ _).
  split.
  - split; cbn.
    + exact Hu.
    + unfold contiguous. rewrite map_app, length_app. cbn [length map].
      replace (length (tasks st) + 1) with (S (length (tasks st))) by lia.
      rewrite oneToN_S. apply Permutation_app; [exact Hl|reflexivity].
    + unfold dayRows, dateStr, storeCreate. cbn.
      rewrite List.filter_app. apply Permutation_app; [exact Hp|].
      cbn. unfold onDay at 1. cbn. fold (dateStr st).
      now rewrite !String.eqb_refl.
    + unfold storeCreate. rewrite map_app. apply List.NoDup_app.
      * exact Hk.
      * cbn. constructor; [intros []|constructor].
      * intros a Ha [<-|[]]. now apply Hfresh.
  - right. exists newTask. now split.
Qed.

(** *** [toggleTask] *)

Lemma loadCompletedTasksHistory_frame checkDay h st :
  let st' := loadCompletedTasksHistory checkDay h st in
  user st' = user st /\ tasks st' = tasks st /\ db st' = db st /\
  selectedDate st' = selectedDate st.
Proof.
  unfold loadCompletedTasksHistory. destruct (userId st); [|now repeat split].
  destruct h as [l|]; [|now repeat split].
  cbv zeta. destruct (calculateStreak checkDay l); now repeat split.
Qed.

Lemma loadTasks_true uid st :
  userId st = Some uid ->
  tasks (loadTasks true st) = storeListDay uid (dateStr st) (db st) /\
  db (loadTasks true st) = db st /\ user (loadTasks true st) = user st /\
  selectedDate (loadTasks true st) = selectedDate st.
Proof. unfold loadTasks. intros ->. now repeat split. Qed.

Lemma loadTasks_consistent uid st st0 :
  consistent uid st0 ->
  user st = user st0 -> db st = db st0 -> selectedDate st = selectedDate st0 ->
  consistent uid (loadTasks true st).
Proof.
  intros Hc Hu Hd Hs. pose proof (contiguous_rows uid st0 Hc) as Hrows.
  destruct Hc as [Hsigned _ _ Hk].
  assert (Hid : userId st = Some uid) by (unfold userId in *; now rewrite Hu).
  destruct (loadTasks_true uid st Hid) as (Et & Ed & Eu & Es).
  assert (Hperm : Permutation (storeListDay uid (dateStr st) (db st))
                              (dayRows uid st0)).
  { unfold storeListDay, dayRows, dateStr. rewrite Hd, Hs.
    apply orderByPriority_perm. }
  split.
  - unfold userId in *. now rewrite Eu.
  - rewrite Et. unfold contiguous. rewrite (Permutation_length Hperm).
    now rewrite (Permutation_map priority Hperm).
  - rewrite Et, Hperm. unfold dayRows, dateStr. now rewrite Ed, Es, Hd, Hs.
  - now rewrite Ed, Hd.
Qed.

(** The element-wise change [toggleTask] makes, to the list and to the
    store alike. *)
Definition toggled (taskId : string) (c : bool) (t : Task) : Task :=
  if String.eqb (id t) taskId then setCompleted c t else t.

Lemma toggled_priority taskId c l :
  map priority (map (toggled taskId c) l) = map priority l.
Proof.
  rewrite map_map. apply map_ext. intros t. unfold toggled.
  now destruct (String.eqb (id t) taskId).
Qed.

Lemma toggled_id taskId c l : map id (map (toggled taskId c) l) = map id l.
Proof.
  rewrite map_map. apply map_ext. intros t. unfold toggled.
  now destruct (String.eqb (id t) taskId).
Qed.

Lemma toggled_onDay taskId c uid d t :
  onDay uid d (toggled taskId c t) = onDay uid d t.
Proof. unfold toggled. now destruct (String.eqb (id t) taskId). Qed.

Lemma toggled_consistent uid st taskId c :
  consistent uid st ->
  consistent uid
    (setDb (storeUpdate taskId (setCompleted c) (db st))
       (logCall (TasksUpdateCompleted taskId c)
          (setTasks (map (toggled taskId c) (tasks st)) st))).
Proof.
  intros [Hu Hl Hp Hk]. split; cbn.
  - exact Hu.
  - unfold contiguous. now rewrite toggled_priority, length_map.
  - unfold dayRows, dateStr, storeUpdate. cbn.
    change (fun t => if String.eqb (id t) taskId then setCompleted c t else t)
      with (toggled taskId c).
    rewrite filter_map_keeps by apply toggled_onDay.
    apply Permutation_map. exact Hp.
  - unfold storeUpdate.
    change (fun t => if String.eqb (id t) taskId then setCompleted c t else t)
      with (toggled taskId c).
    now rewrite toggled_id.
Qed.

Lemma toggleTask_consistent uid st checkDay taskId updateOk reloadOk h :
  consistent uid st -> updateOk = true \/ reloadOk = true ->
  let st' := toggleTask checkDay taskId updateOk reloadOk h st in
  consistent uid st' /\
  (updateOk = true -> map priority (tasks st') = map priority (tasks st)) /\
  map priority (db st') = map priority (db st).
Proof.
  intros Hc Hok. pose proof Hc as [Hu Hl Hp Hk]. unfold toggleTask.
  destruct (find (fun t => String.eqb (id t) taskId) (tasks st)) as [task|];
    [|now repeat split].
  cbv zeta.
  change (fun t => if String.eqb (id t) taskId
                   then setCompleted (negb (completed task)) t else t)
    with (toggled taskId (negb (completed task))).
  generalize (negb (completed task)). intros c.
  pose proof (toggled_consistent uid st taskId c Hc) as Hst.
  destruct updateOk.
  - destruct c.
    + match goal with |- context [loadCompletedTasksHistory ?cd ?hh ?s] =>
        destruct (loadCompletedTasksHistory_frame cd hh s) as (Fu & Ft & Fd & Fs)
      end.
      split; [|split].
      * eapply consistent_same; [exact Fu|exact Ft|exact Fd|exact Fs|].
        eapply consistent_same; [| | | |exact Hst]; reflexivity.
      * intros _. rewrite Ft. cbn. apply toggled_priority.
      * rewrite Fd. cbn. apply (toggled_priority taskId true).
    + split; [exact Hst|]. split.
      * intros _. cbn. apply toggled_priority.
      * cbn. apply (toggled_priority taskId false).
  - destruct Hok as [Hok|Hok]; [discriminate|]. subst reloadOk.
    split; [|split].
    + eapply loadTasks_consistent; [exact Hc| | |]; reflexivity.
    + discriminate.
    + match goal with |- context [loadTasks true ?s] =>
        destruct (loadTasks_true uid s) as (_ & Ed & _)
      end; [exact Hu|]. rewrite Ed. reflexivity.
Qed.

(** *** [movePriority] and the store *)

(** What the priority updates of [updatedTasks] make of a row: the priority
    of the first updated task with the row's id. *)
Definition patchFrom (updatedTasks : list Task) (row : Task) : Task :=
  match find (fun u => String.eqb (id u) (id row)) updatedTasks with
  | Some u => setPriority (priority u) row
  | None => row
  end.

Lemma find_id_none (l : list Task) k :
  ~ In k (map id l) -> find (fun u => String.eqb (id u) k) l = None.
Proof.
  induction l as [|u l IH]; simpl; intros H; [reflexivity|].
  destruct (String.eqb (id u) k) eqn:E.
  - apply String.eqb_eq in E. tauto.
  - apply IH. tauto.
Qed.

Lemma applyUpdates_map updatedTasks :
  List.NoDup (map id updatedTasks) ->
  forall rows, applyUpdates updatedTasks rows = map (patchFrom updatedTasks) rows.
Proof.
  induction updatedTasks as [|u us IH]; intros Hnd rows.
  - cbn. rewrite <- (map_id rows) at 1. now apply map_ext.
  - inversion Hnd as [|? ? Hnot Hrest]; subst.
    change (applyUpdates (u :: us) rows)
      with (applyUpdates us (storeUpdate (id u) (setPriority (priority u)) rows)).
    rewrite (IH Hrest). unfold storeUpdate. rewrite map_map.
    apply map_ext. intros r. unfold patchFrom at 2. cbn [find].
    rewrite (String.eqb_sym (id u) (id r)).
    destruct (String.eqb (id r) (id u)) eqn:E; [|reflexivity].
    apply String.eqb_eq in E. unfold patchFrom. cbn [id setPriority].
    rewrite E. now rewrite find_id_none.
Qed.

Lemma patchFrom_imap (f : nat -> Z) l :
  List.NoDup (map id l) ->
  map (patchFrom (imap (fun k t => setPriority (f k) t) l)) l
  = imap (fun k t => setPriority (f k) t) l.
Proof.
  revert f. induction l as [|t l IH]; intros f Hnd; [reflexivity|].
  inversion Hnd as [|? ? Hnot Hrest]; subst.
  cbn [imap map]. f_equal.
  - unfold patchFrom. cbn. now rewrite String.eqb_refl.
  - rewrite <- (IH (fun k => f (S k)) Hrest) at 2.
    apply map_ext_in. intros r Hr. unfold patchFrom at 1. cbn [find id setPriority].
    destruct (String.eqb (id t) (id r)) eqn:E; [|reflexivity].
    apply String.eqb_eq in E. exfalso. apply Hnot. rewrite E.
    now apply in_map.
Qed.

Lemma patchFrom_id updatedTasks l :
  map id (map (patchFrom updatedTasks) l) = map id l.
Proof.
  rewrite map_map. apply map_ext. intros r. unfold patchFrom.
  now destruct (find _ updatedTasks).
Qed.

Lemma patchFrom_onDay updatedTasks uid d r :
  onDay uid d (patchFrom updatedTasks r) = onDay uid d r.
Proof. unfold patchFrom. now destruct (find _ updatedTasks). Qed.

Lemma spliceIn_perm j t l : Permutation (spliceIn j t l) (t :: l).
Proof.
  unfold spliceIn. rewrite <- Permutation_middle.
  now rewrite firstn_skipn.
Qed.

Lemma moved_perm (l : list Task) i j t :
  l !! i = Some t -> Permutation (spliceIn j t (delete i l)) l.
Proof.
  intros H. rewrite spliceIn_perm. symmetry. now apply delete_Permutation.
Qed.

Lemma movePriority_consistent uid st taskId direction reloadOk :
  consistent uid st ->
  let st' := movePriority taskId direction None reloadOk st in
  consistent uid st' /\
  (st' = st \/ map priority (tasks st') = oneToN (length (tasks st))).
Proof.
  intros Hc. pose proof (consistent_ids uid st Hc) as Hids.
  pose proof Hc as [Hu Hl Hp Hk]. cbv zeta. unfold movePriority.
  destruct (findIndex taskId (tasks st)) as [i|] eqn:Hi; [|now split; [|left]].
  fold (neighbour direction i).
  destruct ((neighbour direction i <? 0)%Z
            || (Z.of_nat (length (tasks st)) <=? neighbour direction i)%Z);
    [now split; [|left]|].
  destruct (tasks st !! i) as [t|] eqn:Ht; [|now split; [|left]].
  set (newTasks := spliceIn (Z.to_nat (neighbour direction i)) t (delete i (tasks st))).
  assert (Hnew : Permutation newTasks (tasks st)) by now apply moved_perm.
  match goal with |- context [updatePriorities None ?l ?s] =>
    destruct (updatePriorities_fulfilled l s) as (st1 & E & Ets & Edb & Eu & Es & _)
  end.
  rewrite E. cbn in Ets, Edb, Eu, Es.
  assert (Hnd : List.NoDup (map id (renumber newTasks))).
  { rewrite renumber_id. apply (Permutation_NoDup (l := map id (tasks st)));
      [symmetry; now apply Permutation_map|exact Hids]. }
  rewrite (applyUpdates_map _ Hnd) in Edb.
  split.
  - apply (consistent_same uid st1); try reflexivity.
    split.
    + unfold userId in *. now rewrite Eu.
    + rewrite Ets. unfold contiguous.
      rewrite renumber_priority, renumber_length. reflexivity.
    + unfold dayRows, dateStr. rewrite Ets, Edb, Es.
      rewrite filter_map_keeps by apply patchFrom_onDay.
      fold (dateStr st). fold (dayRows uid st).
      assert (Hfix : map (patchFrom (renumber newTasks)) newTasks
                     = renumber newTasks).
      { apply patchFrom_imap.
        apply (Permutation_NoDup (l := map id (tasks st)));
          [symmetry; now apply Permutation_map|exact Hids]. }
      rewrite <- Hfix at 1. apply Permutation_map. now rewrite Hnew.
    + rewrite Edb, patchFrom_id. exact Hk.
  - right. cbn. rewrite Ets, renumber_priority.
    now rewrite (Permutation_length Hnew).
Qed.

(** *** The reorder operation and the invariant, stated *)

(** The tasks of one user on one day. *)
Definition dayTask (k ttl : string) (p : Z) : Task :=
  mkTask k (utf16 ttl) p false (toISODateString 20759) "u1"
    (Some "general"%string) (Some 30%Z) None (Some "medium"%string).

Definition fiveTasks : list Task :=
  [dayTask "a" "A" 1; dayTask "b" "B" 2; dayTask "c" "C" 3; dayTask "d" "D" 4;
   dayTask "e" "E" 5].

Definition twoTasks : list Task := [dayTask "a" "A" 1; dayTask "b" "B" 2].

(** A session whose list and store hold the tasks [l]. *)
Definition withTasks (l : list Task) : State :=
  mkState (Some "u1"%string) l [] false 20759 0 [] 5 [] l [].

(** Every state one call of [movePriority] can reach by moving one of the
    listed tasks. *)
Definition singleMoves (st : State) : list State :=
  flat_map (fun t => [movePriority (id t) up None true st;
                      movePriority (id t) down None true st]) (tasks st).

Definition titlesAre (titles : list string) (st : State) : bool :=
  bool_decide (map title (tasks st) = map utf16 titles).

(** C6, as amended: the reorder operation takes a task id and a direction.
    It removes the task from its index and reinserts it at the adjacent
    index (one up or one down), then renumbers every element's priority to
    its new 1-based position, leaving titles and ids in the new order; it
    changes nothing when the id is not in the list or the adjacent index is
    out of range. On titles A..E with priorities 1..5, moving A down twice
    gives the order B, C, A, D, E with priorities 1..5. *)
Theorem movePriority_adjacent :
  (forall taskId direction reloadOk st i t,
     findIndex taskId (tasks st) = Some i -> tasks st !! i = Some t ->
     (0 <= neighbour direction i < Z.of_nat (length (tasks st)))%Z ->
     tasks (movePriority taskId direction None reloadOk st)
     = renumber (spliceIn (Z.to_nat (neighbour direction i)) t
                   (delete i (tasks st)))) /\
  (forall l,
     map priority (renumber l) = oneToN (length l) /\
     map title (renumber l) = map title l /\ map id (renumber l) = map id l) /\
  (forall taskId direction rejectAt reloadOk st,
     findIndex taskId (tasks st) = None \/
     (exists i, findIndex taskId (tasks st) = Some i /\
        ((neighbour direction i < 0)%Z \/
         (Z.of_nat (length (tasks st)) <= neighbour direction i)%Z)) ->
     movePriority taskId direction rejectAt reloadOk st = st) /\
  (let st := movePriority "a" down None true
               (movePriority "a" down None true (withTasks fiveTasks)) in
   map title (tasks st) = map utf16 ["B"; "C"; "A"; "D"; "E"]%string /\
   map priority (tasks st) = [1; 2; 3; 4; 5]%Z).
Proof.
  split; [exact movePriority_tasks|]. split.
  { intros l. split; [apply renumber_priority|].
    split; [apply renumber_title|apply renumber_id]. }
  split; [exact movePriority_noop|].
  vm_compute. split; reflexivity.
Qed.

Lemma movePriority_adjacent_witness :
  tasks (movePriority "a" down None true (withTasks fiveTasks))
  = renumber (spliceIn 1 (dayTask "a" "A" 1) (delete 0 fiveTasks)) /\
  movePriority "e" down None true (withTasks fiveTasks) = withTasks fiveTasks /\
  movePriority "z" up None true (withTasks fiveTasks) = withTasks fiveTasks.
Proof.
  pose proof movePriority_adjacent as (Hmove & _ & Hnoop & _).
  split; [|split].
  - apply (Hmove "a"%string down true (withTasks fiveTasks) 0 (dayTask "a" "A" 1)).
    + vm_compute. reflexivity.
    + vm_compute. reflexivity.
    + change (0 <= 1 < 5)%Z. lia.
  - apply Hnoop. right. exists 4. split; [vm_compute; reflexivity|].
    right. change (5 <= 5)%Z. lia.
  - apply Hnoop. left. vm_compute. reflexivity.
Defined.

(** C6 as stated has no counterpart in one call: whichever of the five
    tasks is moved, up or down, the title order B, C, A, D, E does not result
    (moving A down once gives B, A, C, D, E). *)
Lemma movePriority_no_jump :
  length (singleMoves (withTasks fiveTasks)) = 10 /\
  existsb (titlesAre ["B"; "C"; "A"; "D"; "E"]) (singleMoves (withTasks fiveTasks))
  = false /\
  titlesAre ["B"; "A"; "C"; "D"; "E"]
    (movePriority "a" down None true (withTasks fiveTasks)) = true.
Proof. vm_compute. repeat split. Qed.

(** C7, as amended: in a consistent session (the priorities of the day's
    list are a permutation of 1..count, the list holds the store's rows of
    the day, ids are keys) the priorities of the list and of the store's rows
    are contiguous, and each operation whose store calls are fulfilled keeps
    the session consistent: create gives the new task priority count+1 (a
    rejected create changes nothing), toggle-complete changes no priority
    (a rejected update followed by a fulfilled reload included), and reorder
    renumbers all siblings to their 1-based positions. *)
Theorem operations_keep_priorities_contiguous (uid : string) (st : State) :
  consistent uid st ->
  (contiguous (tasks st) /\ contiguous (dayRows uid st)) /\
  (forall newId createOk,
     ~ In newId (map id (db st)) ->
     consistent uid (addTask newId createOk st) /\
     (tasks (addTask newId createOk st) = tasks st \/
      exists t,
        tasks (addTask newId createOk st) = tasks st ++ [t] /\
        priority t = (Z.of_nat (length (tasks st)) + 1)%Z)) /\
  (forall checkDay taskId updateOk reloadOk historyData,
     updateOk = true \/ reloadOk = true ->
     let st' := toggleTask checkDay taskId updateOk reloadOk historyData st in
     consistent uid st' /\
     (updateOk = true -> map priority (tasks st') = map priority (tasks st)) /\
     map priority (db st') = map priority (db st)) /\
  (forall taskId direction reloadOk,
     let st' := movePriority taskId direction None reloadOk st in
     consistent uid st' /\
     (st' = st \/ map priority (tasks st') = oneToN (length (tasks st)))).
Proof.
  intros Hc. split; [split; [apply Hc|now apply contiguous_rows]|].
  split; [intros; now apply addTask_consistent|].
  split; [intros; now apply toggleTask_consistent|].
  intros. now apply movePriority_consistent.
Qed.

Lemma withTasks_consistent :
  consistent "u1" (withTasks fiveTasks).
Proof.
  split.
  - reflexivity.
  - unfold contiguous. vm_compute. reflexivity.
  - unfold dayRows. vm_compute. reflexivity.
  - apply NoDup_ListNoDup. refine (bool_decide_unpack _ _). vm_compute. exact I.
Defined.

Definition roomForSix : State :=
  mkState (Some "u1"%string) fiveTasks (utf16 "F") false 20759 0 [] 6 []
    fiveTasks [].

Lemma operations_keep_priorities_contiguous_witness :
  consistent "u1" (addTask "f" true roomForSix) /\
  consistent "u1" (toggleTask (utcCheckDay 20759) "b" true true (Some [])
                    (withTasks fiveTasks)) /\
  consistent "u1" (movePriority "c" up None true (withTasks fiveTasks)).
Proof.
  assert (Hsix : consistent "u1" roomForSix).
  { apply (consistent_same "u1" (withTasks fiveTasks)); try reflexivity.
    exact withTasks_consistent. }
  pose proof (operations_keep_priorities_contiguous "u1" roomForSix Hsix)
    as (_ & Hadd & _ & _).
  pose proof (operations_keep_priorities_contiguous "u1" (withTasks fiveTasks)
                withTasks_consistent) as (_ & _ & Htoggle & Hmove).
  split; [|split].
  - apply Hadd. vm_compute. intuition discriminate.
  - apply (Htoggle (utcCheckDay 20759) "b"%string true true (Some [])).
    left. reflexivity.
  - apply (Hmove "c"%string up true).
Defined.

(** C7 as stated fails when a priority update is rejected part-way: of the
    two updates that move A below B the first is fulfilled and the second
    rejected, which leaves both rows with priority 1, in the store and,
    after the reload, in the list. *)
Lemma movePriority_partial_failure :
  let st := withTasks twoTasks in
  let st' := movePriority "a" down (Some 1) true st in
  (map priority (tasks st) = [1; 2]%Z /\ map priority (db st) = [1; 2]%Z /\
   tasks st = db st) /\
  (map priority (db st') = [1; 1]%Z /\ map priority (tasks st') = [1; 1]%Z).
Proof. vm_compute. repeat split. Qed.

End TaskProofs.

(** ** The insight rules *)

Module InsightProofs.
Import JS AIInsights.

(** *** Category concentration *)

(** The number of records of category [c]. *)
Definition countOf (c : string) (window : list Task) : nat :=
  length (List.filter (fun t => String.eqb (category t) c) window).

(** The number a value stands for where it is a count. *)
Definition countValue (v : Stat) : nat :=
  match v with
  | Count n => n
  | Glued _ => 0
  end.

(** The count the statistics hold for [c]. *)
Definition statOf (c : string) (stats : list (string * Stat)) : nat :=
  list_sum (map (fun e => countValue (snd e))
              (List.filter (fun e => String.eqb (fst e) c) stats)).

(** Every value of the statistics is a count. *)
Definition allCounts (stats : list (string * Stat)) : bool :=
  forallb (fun e => isCount (snd e)) stats.

(** Some record's category names a property inherited from
    [Object.prototype]. *)
Definition hasInheritedCategory (window : list Task) : bool :=
  existsb (fun task => inherited (category task)) window.

(** The insight of the category rule. *)
Definition categoryPatternInsight (percent : float) (topCategory : string)
  : Insight :=
  mkInsight "category-pattern" pattern "Category Focus Detected"
    [ Lit "You complete "; Num percent; Lit "% more "; Str topCategory;
      Lit " tasks. Consider balancing other areas." ]
    0x1.b333333333333p-1 true Target.

Lemma statOf_cons k k0 v rest :
  statOf k ((k0, v) :: rest)
  = (if String.eqb k0 k then countValue v else 0) + statOf k rest.
Proof. unfold statOf. cbn. now destruct (String.eqb k0 k). Qed.

Lemma own_not_proto c : inherited c = false -> String.eqb c "__proto__" = false.
Proof.
  intros H. destruct (String.eqb c "__proto__") eqn:E; [|reflexivity].
  apply String.eqb_eq in E. subst c. discriminate H.
Qed.

Lemma bump_own_nil c : inherited c = false -> bump c [] = [(c, Count 1)].
Proof. intros H. cbn [bump]. now rewrite (own_not_proto c H), H. Qed.

Lemma bump_statOf c k acc :
  inherited c = false -> allCounts acc = true ->
  statOf k (bump c acc) = statOf k acc + (if String.eqb c k then 1 else 0).
Proof.
  intros Hc. induction acc as [|[k0 v] rest IH]; intros Hacc.
  - rewrite (bump_own_nil c Hc), statOf_cons. unfold statOf. cbn.
    destruct (String.eqb c k); lia.
  - cbn [bump]. cbn in Hacc. apply andb_true_iff in Hacc as [Hv Hrest].
    destruct (String.eqb k0 c) eqn:E.
    + apply String.eqb_eq in E. subst k0. rewrite !statOf_cons.
      destruct v as [n|ones]; [|discriminate Hv]. cbn [plusOne countValue].
      destruct (String.eqb c k); lia.
    + rewrite !statOf_cons, (IH Hrest). lia.
Qed.

Lemma bump_allCounts c acc :
  inherited c = false -> allCounts acc = true -> allCounts (bump c acc) = true.
Proof.
  intros Hc. induction acc as [|[k0 v] rest IH]; intros Hacc.
  - now rewrite (bump_own_nil c Hc).
  - cbn [bump]. cbn in Hacc. apply andb_true_iff in Hacc as [Hv Hrest].
    specialize (IH Hrest). unfold allCounts in *.
    destruct (String.eqb k0 c); cbn.
    + rewrite Hrest. destruct v; [reflexivity|discriminate Hv].
    + now rewrite Hv, IH.
Qed.

Lemma bump_keys c acc k :
  inherited c = false ->
  In k (map fst (bump c acc)) <-> k = c \/ In k (map fst acc).
Proof.
  intros Hc. induction acc as [|[k0 v] rest IH].
  - rewrite (bump_own_nil c Hc). cbn. intuition.
  - cbn [bump]. destruct (String.eqb k0 c) eqn:E.
    + apply String.eqb_eq in E. subst k0. cbn. intuition.
    + cbn. rewrite IH. intuition.
Qed.

Lemma bump_NoDup c acc :
  inherited c = false ->
  List.NoDup (map fst acc) -> List.NoDup (map fst (bump c acc)).
Proof.
  intros Hc. induction acc as [|[k0 v] rest IH]; intros H.
  - rewrite (bump_own_nil c Hc). cbn. constructor; [intros []|constructor].
  - cbn [bump]. inversion H as [|? ? Hnot Hrest]; subst.
    destruct (String.eqb k0 c) eqn:E; cbn.
    + constructor; assumption.
    + constructor; [|auto]. rewrite (bump_keys c rest k0 Hc).
      intros [->|Hin]; [|tauto].
      now rewrite String.eqb_refl in E.
Qed.

Lemma countStats_from window : forall acc,
  hasInheritedCategory window = false ->
  allCounts acc = true -> List.NoDup (map fst acc) ->
  let stats := foldl (fun acc task => bump (category task) acc) acc window in
  allCounts stats = true /\ List.NoDup (map fst stats) /\
  forall k, statOf k stats = statOf k acc + countOf k window.
Proof.
  induction window as [|t window IH]; intros acc Hwin Hacc Hnd; cbn [foldl].
  - split; [exact Hacc|]. split; [exact Hnd|]. intros k. cbn. lia.
  - cbn in Hwin. apply orb_false_iff in Hwin as [Ht Hwin].
    destruct (IH (bump (category t) acc) Hwin
                (bump_allCounts _ _ Ht Hacc) (bump_NoDup _ _ Ht Hnd))
      as (Hall & Hnd' & Hstat).
    split; [exact Hall|]. split; [exact Hnd'|].
    intros k. cbv zeta in Hstat. rewrite Hstat, (bump_statOf _ _ _ Ht Hacc).
    unfold countOf. cbn [List.filter].
    destruct (String.eqb (category t) k); cbn [length]; lia.
Qed.

Lemma statOf_absent k stats : ~ In k (map fst stats) -> statOf k stats = 0.
Proof.
  induction stats as [|[k0 v] rest IH]; intros H; [reflexivity|].
  rewrite statOf_cons. cbn in H. destruct (String.eqb k0 k) eqn:E.
  - apply String.eqb_eq in E. tauto.
  - apply IH. tauto.
Qed.

Lemma statOf_entry k v stats :
  List.NoDup (map fst stats) -> In (k, v) stats -> statOf k stats = countValue v.
Proof.
  induction stats as [|[k0 v0] rest IH]; intros Hnd Hin; [destruct Hin|].
  inversion Hnd as [|? ? Hnot Hrest]; subst. rewrite statOf_cons.
  destruct Hin as [[= -> ->]|Hin].
  - rewrite String.eqb_refl, (statOf_absent k rest Hnot). lia.
  - assert (Hne : String.eqb k0 k = false).
    { apply String.eqb_neq. intros ->. apply Hnot.
      apply in_map_iff. now exists (k, v). }
    rewrite Hne. now apply IH.
Qed.

Lemma statOf_le k stats (h : string * Stat) :
  List.NoDup (map fst stats) ->
  (forall e, In e stats -> countValue (snd e) <= countValue (snd h)) ->
  statOf k stats <= countValue (snd h).
Proof.
  intros Hnd Hmax. destruct (in_dec string_dec k (map fst stats)) as [Hin|Hout].
  - apply in_map_iff in Hin as ([k' v] & Hk & Hin). cbn in Hk. subst k'.
    rewrite (statOf_entry k v stats Hnd Hin). exact (Hmax _ Hin).
  - rewrite statOf_absent by exact Hout. lia.
Qed.

Lemma insertByIndex_perm e sorted :
  Permutation (insertByIndex e sorted) (e :: sorted).
Proof.
  induction sorted as [|f rest IH]; cbn; [reflexivity|].
  destruct (fst f <? fst e)%N; [|reflexivity].
  rewrite IH. apply perm_swap.
Qed.

Lemma entries_perm stats : Permutation (entries stats) stats.
Proof.
  unfold entries.
  set (tag := fun e : string * Stat =>
                option_map (fun i => (i, e)) (arrayIndex (fst e))).
  assert (Hsort : forall l, Permutation (foldr insertByIndex [] l) l).
  { induction l as [|e l IH]; cbn; [reflexivity|].
    now rewrite insertByIndex_perm, IH. }
  rewrite (Permutation_map snd (Hsort (omap tag stats))).
  induction stats as [|e stats IH]; [reflexivity|].
  cbn [omap list_omap List.filter]. unfold tag at 1.
  destruct (arrayIndex (fst e)) as [i|]; cbn.
  - now apply perm_skip.
  - rewrite <- Permutation_middle. now apply perm_skip.
Qed.

Lemma allCounts_perm l l' :
  Permutation l l' -> allCounts l = allCounts l'.
Proof.
  intros H. unfold allCounts.
  induction H as [|x l l' _ IH|x y l|l l' l'' _ IH1 _ IH2]; cbn.
  - reflexivity.
  - now rewrite IH.
  - now rewrite !andb_assoc, (andb_comm (isCount (snd y))).
  - congruence.
Qed.

Lemma insertByCount_perm e sorted :
  Permutation (insertByCount e sorted) (e :: sorted).
Proof.
  induction sorted as [|f rest IH]; cbn [insertByCount]; [reflexivity|].
  destruct (goesAfter (snd e) (snd f)); [|reflexivity].
  rewrite IH. apply perm_swap.
Qed.

(** The stable sort by descending count. *)
Definition stableSort (l : list (string * Stat)) : list (string * Stat) :=
  foldr insertByCount [] l.

Lemma stableSort_perm l : Permutation (stableSort l) l.
Proof.
  induction l as [|e l IH]; cbn; [reflexivity|].
  fold (stableSort l). now rewrite insertByCount_perm, IH.
Qed.

Lemma goesAfter_counts a b :
  isCount a = true -> isCount b = true ->
  goesAfter a b = (countValue a <? countValue b).
Proof. destruct a, b; intros Ha Hb; try discriminate; reflexivity. Qed.

Lemma stableSort_head l (h : string * Stat) :
  allCounts l = true ->
  head (stableSort l) = Some h ->
  forall e, In e l -> countValue (snd e) <= countValue (snd h).
Proof.
  revert h. induction l as [|e0 l IH]; intros h Hall Hh e He; [destruct He|].
  cbn in Hall. apply andb_true_iff in Hall as [H0 Hall].
  cbn [stableSort foldr] in Hh. fold (stableSort l) in Hh.
  destruct (stableSort l) as [|f rest] eqn:Es.
  - assert (l = []) as ->.
    { apply Permutation_nil. rewrite <- Es. apply stableSort_perm. }
    cbn in Hh. injection Hh as <-. destruct He as [<-|[]]. lia.
  - assert (Hf : isCount (snd f) = true).
    { assert (Hin : In f l).
      { apply (Permutation_in f (stableSort_perm l)). rewrite Es. now left. }
      unfold allCounts in Hall. rewrite forallb_forall in Hall. now apply Hall. }
    cbn [insertByCount] in Hh. rewrite (goesAfter_counts _ _ H0 Hf) in Hh.
    destruct (countValue (snd e0) <? countValue (snd f)) eqn:Elt; cbn in Hh;
      injection Hh as <-.
    + apply Nat.ltb_lt in Elt. destruct He as [<-|He]; [lia|].
      now apply (IH f).
    + apply Nat.ltb_ge in Elt. destruct He as [<-|He]; [lia|].
      specialize (IH f Hall eq_refl e He). lia.
Qed.

(** On counts alone the comparator is consistent and [sort] is the stable
    sort, whatever the implementation. *)
Lemma sortByCount_counts implementationSort l :
  allCounts l = true -> sortByCount implementationSort l = stableSort l.
Proof.
  assert (Hmap : forallb isCount (map snd l) = allCounts l).
  { unfold allCounts. induction l as [|e l IH]; cbn; [reflexivity|].
    now rewrite IH. }
  intros H. unfold sortByCount, consistent. now rewrite Hmap, H.
Qed.

Lemma sliceLast14_length history :
  length (sliceLast14 history) = Nat.min 14 (length history).
Proof. unfold sliceLast14. rewrite length_skipn. lia. Qed.

Lemma toNumber_count v : isCount v = true -> toNumber v = ofNat (countValue v).
Proof. destruct v; [reflexivity|discriminate]. Qed.

(** The rule on a window without inherited categories. *)
Lemma categoryInsight_counts implementationSort history :
  7 <= length history ->
  hasInheritedCategory (sliceLast14 history) = false ->
  exists topCategory count,
    countOf topCategory (sliceLast14 history) = count /\ 0 < count /\
    (forall c, countOf c (sliceLast14 history) <= count) /\
    categoryInsight implementationSort history
    = [categoryPatternInsight
         (mathRound (ofNat count / ofNat (length (sliceLast14 history)) * 100)%float)
         topCategory].
Proof.
  intros Hlen Hplain. unfold categoryInsight, categoryStats.
  pose proof (proj2 (Nat.leb_le _ _) Hlen) as Hleb. rewrite Hleb.
  pose proof (sliceLast14_length history) as Hwin.
  remember (sliceLast14 history) as window eqn:Ew. clear Ew.
  destruct (countStats_from window [] Hplain eq_refl (List.NoDup_nil _))
    as (Hall & Hnd & Hstat).
  cbv zeta in Hall, Hnd, Hstat.
  remember (foldl (fun acc task => bump (category task) acc) [] window)
    as stats eqn:Estats. clear Estats.
  assert (Hcount : forall c, statOf c stats = countOf c window).
  { intros c. now rewrite Hstat. }
  clear Hstat.
  assert (Hall' : allCounts (entries stats) = true).
  { now rewrite (allCounts_perm _ _ (entries_perm stats)). }
  rewrite (sortByCount_counts implementationSort _ Hall').
  assert (Hperm : Permutation (stableSort (entries stats)) stats).
  { now rewrite stableSort_perm, entries_perm. }
  assert (Hsome : exists c, 0 < countOf c window).
  { destruct window as [|t0 w]; [cbn [length] in Hwin; lia|]. exists (category t0).
    unfold countOf. cbn [List.filter]. rewrite String.eqb_refl. cbn. lia. }
  destruct Hsome as (c0 & Hc0).
  destruct (stableSort (entries stats)) as [|[top v] rest] eqn:Es.
  { apply Permutation_nil in Hperm. subst stats.
    specialize (Hcount c0). cbn in Hcount. lia. }
  assert (Hmax : forall e, In e stats -> countValue (snd e) <= countValue v).
  { intros e He. apply (stableSort_head (entries stats) (top, v) Hall').
    - now rewrite Es.
    - apply (Permutation_in e (Permutation_sym (entries_perm stats)) He). }
  assert (Hin : In (top, v) stats).
  { apply (Permutation_in _ Hperm). now left. }
  assert (Hv : isCount v = true).
  { unfold allCounts in Hall. rewrite forallb_forall in Hall.
    exact (Hall _ Hin). }
  assert (Hle : forall c, countOf c window <= countValue v).
  { intros c. rewrite <- Hcount.
    apply (statOf_le c stats (top, v) Hnd Hmax). }
  exists top, (countValue v).
  split; [rewrite <- Hcount; now apply statOf_entry|].
  split; [specialize (Hle c0); lia|].
  split; [exact Hle|].
  cbn [head fst snd]. now rewrite (toNumber_count v Hv).
Qed.

(** Completed records with the given categories, one a day, the most recent
    first: record [k] is dated [k] days before 2026-11-02. This is the order
    in which the store hands over the history ([orderBy: { date: 'desc' }]). *)
Definition historyOf (categories : list string) : list Task :=
  imap (fun k c => mkTask ("t" +:+ pad2 (Z.of_nat k)) "task" c true
                     (toISODateString (20759 - Z.of_nat k)) None None "medium")
       categories.

(** Four weeks of records: "work" on each of the 14 most recent days, and
    before that 9 days of "health" and 5 of "fitness". *)
Definition fourWeeks : list Task :=
  historyOf (replicate 14 "work"%string ++ replicate 9 "health"%string
               ++ replicate 5 "fitness"%string).

(** A sort that leaves the array as it is. *)
Definition keepOrder (l : list (string * Stat)) : list (string * Stat) := l.

Example fourWeeks_dates :
  map date (take 2 fourWeeks) = ["2026-11-02"; "2026-11-01"]%string /\
  map date (drop 26 fourWeeks) = ["2026-10-07"; "2026-10-06"]%string.
Proof. vm_compute. split; reflexivity. Qed.

(** C8: with fewer than 7 records the rule emits nothing. With at least 7
    it analyses [completedTasksHistory.slice(-14)], the last 14 records of
    the history as it is handed over (all of them when there are fewer),
    counts the records per category in that window and, for a window without
    a category that names an inherited property, emits one [pattern] insight
    that names a category with the largest count and reports that count's
    share of the window as a rounded percentage, with confidence 0.85. On a
    history that lists the most recent record first the last 14 records are
    the 14 oldest: after four weeks with "work" on each of the 14 most
    recent days and "health" on 9 of the 14 days before, the insight reads
    64 percent "health", where the 14 most recent records give 100 percent
    "work". *)
Theorem categoryInsight_analyses_last_14 :
  (forall implementationSort history,
     length history < 7 -> categoryInsight implementationSort history = []) /\
  (forall implementationSort history,
     7 <= length history ->
     let window := drop (length history - 14) history in
     length window = Nat.min 14 (length history) /\
     (hasInheritedCategory window = false ->
      exists topCategory count,
        countOf topCategory window = count /\ 0 < count /\
        (forall c, countOf c window <= count) /\
        categoryInsight implementationSort history
        = [categoryPatternInsight
             (mathRound (ofNat count / ofNat (length window) * 100)%float)
             topCategory])) /\
  (forall percent topCategory,
     confidence (categoryPatternInsight percent topCategory)
     = 0x1.b333333333333p-1%float) /\
  (map date fourWeeks
   = map (fun k => toISODateString (20759 - Z.of_nat k)) (seq 0 28) /\
   map category (take 14 fourWeeks) = replicate 14 "work"%string /\
   mathRound (ofNat (countOf "work" (take 14 fourWeeks)) / ofNat 14 * 100) = 100%float /\
   sliceLast14 fourWeeks = drop 14 fourWeeks /\
   countOf "health" (drop 14 fourWeeks) = 9 /\
   countOf "work" (drop 14 fourWeeks) = 0 /\
   categoryInsight keepOrder fourWeeks = [categoryPatternInsight 64 "health"]).
Proof.
  split; [|split; [|split]].
  - intros implementationSort history H. unfold categoryInsight.
    apply Nat.leb_gt in H. now rewrite H.
  - intros implementationSort history Hlen window.
    split; [apply sliceLast14_length|].
    intros Hplain. exact (categoryInsight_counts implementationSort history Hlen Hplain).
  - reflexivity.
  - vm_compute. repeat split.
Qed.

(** *** Time-estimation accuracy *)

(** A completed record with the given estimate and actual duration. *)
Definition timed (k : string) (e a : option float) : Task :=
  mkTask k "task" "work" true "2026-11-01" e a "medium".

Definition fiveOf (e a : float) : list Task :=
  [timed "1" (Some e) (Some a); timed "2" (Some e) (Some a);
   timed "3" (Some e) (Some a); timed "4" (Some e) (Some a);
   timed "5" (Some e) (Some a)].

(** The insight of the time-estimation rule for a mean [avg]. *)
Definition timeEstimationInsight (avg : float) : Insight :=
  mkInsight "time-estimation" recommendation "Improve Time Estimation"
    [ Lit "Your time estimates are "; Num (mathRound (avg * 100)%float);
      Lit "% accurate. Try tracking actual time more carefully." ]
    0x1.ccccccccccccdp-1 true Clock.

(** The specification's reading of a qualifying record: both durations
    present and the estimate positive. *)
Definition presentPositive (t : Task) : bool :=
  match estimatedMinutes t, actualMinutes t with
  | Some e, Some _ => (0 <? e)%float
  | _, _ => false
  end.

Lemma hasTimes_spec t :
  hasTimes t = true <->
  exists e a, estimatedMinutes t = Some e /\ actualMinutes t = Some a /\
              truthy e = true /\ truthy a = true.
Proof.
  unfold hasTimes. destruct (estimatedMinutes t) as [e|], (actualMinutes t) as [a|];
    split; try discriminate; try (intros (? & ? & ? & ? & _); discriminate).
  - intros H. apply andb_true_iff in H. exists e, a. tauto.
  - intros (e' & a' & [= <-] & [= <-] & He & Ha). now rewrite He, Ha.
Qed.

(** C9, as amended: the qualifying records are those whose estimate and
    actual duration are both present and both truthy (neither 0 nor NaN).
    With at least 5 of them the rule computes the mean of
    max(0, 1 - |estimated - actual| / estimated) over them in binary64
    arithmetic and emits its [recommendation] insight, reporting the mean as
    a rounded percentage with confidence 0.9, if and only if the mean is
    strictly less than 0.7; with fewer than 5 it emits nothing. Five records
    of accuracy 0.7 have the mean 0.7 and emit nothing; five of accuracy
    0.6999 emit the insight, which reports 70. *)
Theorem timeInsight_strict_threshold :
  (forall history t,
     In t (tasksWithTime history) <->
     In t history /\
     exists e a, estimatedMinutes t = Some e /\ actualMinutes t = Some a /\
                 truthy e = true /\ truthy a = true) /\
  (forall history,
     5 <= length (tasksWithTime history) ->
     timeInsight history
     = if (avgAccuracy (tasksWithTime history) <? 0x1.6666666666666p-1)%float
       then [timeEstimationInsight (avgAccuracy (tasksWithTime history))]
       else []) /\
  (forall history,
     length (tasksWithTime history) < 5 -> timeInsight history = []) /\
  (avgAccuracy (fiveOf 10 7) = 0x1.6666666666666p-1%float /\
   timeInsight (fiveOf 10 7) = []) /\
  (avgAccuracy (fiveOf 10000 6999) = 0x1.66594af4f0d84p-1%float /\
   timeInsight (fiveOf 10000 6999)
   = [timeEstimationInsight 0x1.66594af4f0d84p-1] /\
   mathRound (0x1.66594af4f0d84p-1 * 100) = 70%float).
Proof.
  split.
  { intros history t. unfold tasksWithTime. rewrite filter_In, hasTimes_spec.
    reflexivity. }
  split.
  { intros history H. unfold timeInsight. apply Nat.leb_le in H. now rewrite H. }
  split.
  { intros history H. unfold timeInsight.
    apply Nat.leb_gt in H. now rewrite H. }
  split; [split; reflexivity|]. repeat split; reflexivity.
Qed.

Lemma timeInsight_strict_threshold_witness :
  (5 <= length (tasksWithTime (fiveOf 30 45)) /\
   timeInsight (fiveOf 30 45)
   = if (avgAccuracy (tasksWithTime (fiveOf 30 45)) <? 0x1.6666666666666p-1)%float
     then [timeEstimationInsight (avgAccuracy (tasksWithTime (fiveOf 30 45)))]
     else []) /\
  timeInsight (take 4 (fiveOf 30 45)) = [].
Proof.
  pose proof timeInsight_strict_threshold as (_ & Hfive & Hfew & _).
  split; [split; [vm_compute; lia|]|].
  - apply Hfive. vm_compute. lia.
  - apply Hfew. vm_compute. lia.
Defined.

Example timeInsight_half_accurate :
  timeInsight (fiveOf 30 45) = [timeEstimationInsight 0.5].
Proof. reflexivity. Qed.

(** Four records estimated at 10 minutes and done in 5, and one estimated
    at 10 minutes whose recorded actual time is 0. *)
Definition withZeroActual : list Task :=
  [timed "1" (Some 10%float) (Some 5%float); timed "2" (Some 10%float) (Some 5%float);
   timed "3" (Some 10%float) (Some 5%float); timed "4" (Some 10%float) (Some 5%float);
   timed "5" (Some 10%float) (Some 0%float)].

(** C9 as stated fails on a recorded actual time of 0: all five records
    have both durations present and a positive estimate, and the mean of
    their accuracies is 0.4, yet the rule emits nothing, because the record
    with actual time 0 does not pass the filter and only 4 remain. *)
Lemma timeInsight_zero_actual :
  length (List.filter presentPositive withZeroActual) = 5 /\
  avgAccuracy (List.filter presentPositive withZeroActual) = 0x1.999999999999ap-2%float /\
  (avgAccuracy (List.filter presentPositive withZeroActual) <? 0x1.6666666666666p-1)%float
  = true /\
  length (tasksWithTime withZeroActual) = 4 /\
  timeInsight withZeroActual = [].
Proof. vm_compute. repeat split. Qed.

End InsightProofs.

(** ** More on the streak calculator *)

Module StreakFacts.
Import JS App StreakProofs.

Lemma existsb_swap {A B} (f : A -> B -> bool) (l : list A) (m : list B) :
  existsb (fun a => existsb (f a) m) l
  = existsb (fun b => existsb (fun a => f a b) l) m.
Proof.
  induction l as [|a l IH]; cbn.
  - induction m as [|b m IHm]; [reflexivity|cbn; now rewrite <- IHm].
  - rewrite IH. clear IH. induction m as [|b m IHm]; cbn.
    + reflexivity.
    + rewrite <- IHm.
      destruct (f a b), (existsb (f a) m), (existsb (fun a0 => f a0 b) l);
        cbn; try reflexivity; now rewrite ?orb_true_r.
Qed.

Lemma hasInheritedDate_dates completedTasks :
  hasInheritedDate completedTasks
  = existsb (hasRecordOn completedTasks) objectPrototypeNames.
Proof.
  unfold hasInheritedDate, hasRecordOn, inherited.
  apply (existsb_swap (fun t k => String.eqb (date t) k)).
Qed.

Lemma existsb_pointwise {A} (p q : A -> bool) (l : list A) :
  (forall a, p a = q a) -> existsb p l = existsb q l.
Proof.
  intros Hpq. induction l as [|a l IH]; cbn; [reflexivity|].
  now rewrite Hpq, IH.
Qed.

Lemma existsb_le {A} (p q : A -> bool) (l : list A) :
  (forall a, p a = true -> q a = true) ->
  existsb p l = true -> existsb q l = true.
Proof.
  intros Hpq. induction l as [|a l IH]; cbn; [discriminate|].
  intros H. apply orb_true_iff in H as [H|H].
  - now rewrite (Hpq a H).
  - rewrite (IH H). apply orb_true_r.
Qed.

Lemma leading_mono p q bound : forall i,
  (forall j, p j = true -> q j = true) ->
  leading p bound i <= leading q bound i.
Proof.
  induction bound as [|bound IH]; intros i Hpq; cbn; [lia|].
  destruct (p i) eqn:Hp; [|lia].
  rewrite (Hpq i Hp). specialize (IH (S i) Hpq). lia.
Qed.

(** The streak depends on the history only through the set of its dates:
    two histories with a record on the same days give the same result,
    whatever the order, the number of records per day and their other
    fields. *)
Theorem calculateStreak_depends_on_dates checkDay completedTasks completedTasks' :
  (forall d, hasRecordOn completedTasks d = hasRecordOn completedTasks' d) ->
  calculateStreak checkDay completedTasks
  = calculateStreak checkDay completedTasks'.
Proof.
  intros Hsame. rewrite !calculateStreak_closed, !hasInheritedDate_dates.
  rewrite (existsb_pointwise _ _ objectPrototypeNames Hsame).
  destruct (existsb _ _); [reflexivity|].
  apply (f_equal (@Normal nat)). apply leading_ext.
  intros j _. unfold recordAt. apply Hsame.
Qed.

(** Records added to a history never shorten the streak. *)
Theorem calculateStreak_monotone checkDay completedTasks completedTasks' :
  (forall d, hasRecordOn completedTasks d = true ->
             hasRecordOn completedTasks' d = true) ->
  hasInheritedDate completedTasks' = false ->
  exists n m,
    calculateStreak checkDay completedTasks = Normal n /\
    calculateStreak checkDay completedTasks' = Normal m /\ n <= m.
Proof.
  intros Hsub Hown.
  assert (Hown0 : hasInheritedDate completedTasks = false).
  { destruct (hasInheritedDate completedTasks) eqn:E; [|reflexivity].
    rewrite hasInheritedDate_dates in E, Hown.
    rewrite (existsb_le _ _ _ Hsub E) in Hown. discriminate. }
  rewrite !calculateStreak_closed, Hown, Hown0.
  eexists _, _. split; [reflexivity|]. split; [reflexivity|].
  apply leading_mono. intros j. unfold recordAt. apply Hsub.
Qed.

(** The three-day run with its records in another order and one of them
    twice. *)
Definition threeDayRunAgain : list Task :=
  [recordOn 20759; recordOn 20758; recordOn 20759; recordOn 20755;
   recordOn 20757].

Lemma threeDayRunAgain_dates d :
  hasRecordOn threeDayRun d = hasRecordOn threeDayRunAgain d.
Proof.
  unfold hasRecordOn, threeDayRun, threeDayRunAgain. cbn [existsb].
  destruct (String.eqb (date (recordOn 20757)) d),
           (String.eqb (date (recordOn 20759)) d),
           (String.eqb (date (recordOn 20755)) d),
           (String.eqb (date (recordOn 20758)) d); reflexivity.
Defined.

Lemma calculateStreak_depends_on_dates_witness :
  calculateStreak (utcCheckDay 20759) threeDayRun
  = calculateStreak (utcCheckDay 20759) threeDayRunAgain.
Proof.
  exact (calculateStreak_depends_on_dates (utcCheckDay 20759) threeDayRun
           threeDayRunAgain threeDayRunAgain_dates).
Defined.

Lemma hasRecordOn_cons t l d :
  hasRecordOn l d = true -> hasRecordOn (t :: l) d = true.
Proof. intros H. unfold hasRecordOn in *. cbn. rewrite H. apply orb_true_r. Defined.

Lemma calculateStreak_monotone_witness :
  exists n m,
    calculateStreak (utcCheckDay 20759) threeDayRun = Normal n /\
    calculateStreak (utcCheckDay 20759) (recordOn 20756 :: threeDayRun) = Normal m /\
    n <= m.
Proof.
  apply (calculateStreak_monotone (utcCheckDay 20759) threeDayRun
           (recordOn 20756 :: threeDayRun)).
  - intros d. apply hasRecordOn_cons.
  - reflexivity.
Defined.

End StreakFacts.

(** ** More on the badge awards and the insights *)

Module BadgeFacts.
Import JS Gamification BadgeProofs.

(** The badges the award loop adds: one per badge type whose create call is
    fulfilled, the latest in front. *)
Lemma award_fulfilled env uid cs wp new : forall st,
  map badge_type (badges (foldl (award env uid cs wp) st new))
  = rev (List.filter (createOk env) new) ++ map badge_type (badges st) /\
  (forall b, In b (badges (foldl (award env uid cs wp) st new)) ->
     In b (badges st) \/
     (In (badge_type b) new /\ user_id b = uid /\
      createOk env (badge_type b) = true)).
Proof.
  induction new as [|n new IH]; intros st; [cbn; auto|].
  cbn [foldl List.filter]. destruct (IH (award env uid cs wp st n)) as [IH1 IH2].
  split.
  - rewrite IH1. unfold award. destruct (createOk env n); cbn; [|reflexivity].
    now rewrite <- app_assoc.
  - intros b Hb. destruct (IH2 b Hb) as [Hin|(Hin & Hu & Hok)].
    + unfold award in Hin. destruct (createOk env n) eqn:Hok; cbn in Hin.
      * destruct Hin as [<-|Hin]; [right|now left]. cbn. auto.
      * now left.
    + right. cbn. auto.
Qed.

Lemma ListNoDup_filter {A} (f : A -> bool) (l : list A) :
  List.NoDup l -> List.NoDup (List.filter f l).
Proof.
  induction 1 as [|a l Hnot Hnd IH]; cbn; [constructor|].
  destruct (f a); [|exact IH]. constructor; [|exact IH].
  intros Hin. apply Hnot. now apply filter_In in Hin.
Qed.

Lemma catalog_NoDup : List.NoDup catalog.
Proof. apply NoDup_ListNoDup. refine (bool_decide_unpack _ _). vm_compute. exact I. Qed.

(** A badge that [checkAndAwardBadges] adds is of one of the five types of
    the checks, belongs to the signed-in user, and its create call was
    fulfilled. *)
Theorem checkAndAwardBadges_adds_catalog_badges env st b :
  In b (badges (checkAndAwardBadges env st)) ->
  In b (badges st) \/
  (In (badge_type b) catalog /\ userId st = Some (user_id b) /\
   createOk env (badge_type b) = true).
Proof.
  unfold checkAndAwardBadges. destruct (userId st) as [uid|]; [|now left].
  intros Hb.
  match type of Hb with context [foldl (award env uid ?cs ?wp) ?s ?new] =>
    destruct (award_fulfilled env uid cs wp new s) as [_ H]
  end.
  destruct (H b Hb) as [Hin|(Hin & Hu & Hok)]; [now left|right].
  rewrite newBadges_filter in Hin. apply filter_In in Hin as [Hin _].
  rewrite Hu. auto.
Qed.

Definition awardedBadge : Badge :=
  mkBadge "badge_1793600000000_streak_7" "u1" "streak_7"
    "2026-11-02T10:00:00.000Z" (mkBadgeData 10 57).

Lemma checkAndAwardBadges_adds_catalog_badges_witness :
  In awardedBadge (badges (checkAndAwardBadges everyCreateOk oneBadge)) /\
  (In awardedBadge (badges oneBadge) \/
   (In (badge_type awardedBadge) catalog /\
    userId oneBadge = Some (user_id awardedBadge) /\
    createOk everyCreateOk (badge_type awardedBadge) = true)).
Proof.
  assert (H : In awardedBadge (badges (checkAndAwardBadges everyCreateOk oneBadge))).
  { vm_compute. left. reflexivity. }
  split; [exact H|].
  exact (checkAndAwardBadges_adds_catalog_badges everyCreateOk oneBadge awardedBadge H).
Defined.

End BadgeFacts.

(** ** The award loop across its [await]s *)

Module AwardingFacts.
Import JS Gamification BadgeProofs BadgeFacts Awarding.

(** The badge types of the create calls in flight, and of those logged. *)
Definition pendingTypes (s : System) : list string :=
  map (fun r => badge_type (newBadge r)) (inFlight s).

Definition createdTypes (calls : list StoreCall) : list string :=
  omap (fun c => match c with
                 | UserBadgesCreate b => Some (badge_type b)
                 | UserBadgesList _ => None
                 end) calls.

Lemma filter_filter {A} (f g : A -> bool) (l : list A) :
  List.filter f (List.filter g l) = List.filter (fun x => g x && f x) l.
Proof.
  induction l as [|a l IH]; [reflexivity|]. cbn [List.filter].
  destruct (g a); cbn [List.filter andb]; [destruct (f a)|]; now rewrite IH.
Qed.

Lemma filter_pointwise {A} (f g : A -> bool) (l : list A) :
  (forall x, f x = g x) -> List.filter f l = List.filter g l.
Proof.
  intros H. induction l as [|a l IH]; [reflexivity|]. cbn [List.filter].
  now rewrite H, IH.
Qed.

Lemma newBadges_NoDup existing s c g : List.NoDup (newBadges existing s c g).
Proof.
  rewrite newBadges_filter. apply ListNoDup_filter, catalog_NoDup.
Qed.

(** Once the first badge type due is held, the checks give the others. *)
Lemma newBadges_after_first existing s c g t1 due' :
  newBadges existing s c g = t1 :: due' ->
  newBadges (t1 :: existing) s c g = due'.
Proof.
  intros H. pose proof (newBadges_NoDup existing s c g) as Hnd.
  rewrite H in Hnd. inversion Hnd as [|? ? Hnot Hrest]; subst.
  rewrite newBadges_filter in *.
  rewrite (filter_pointwise (due (t1 :: existing) s c g)
             (fun b => due existing s c g b && negb (String.eqb b t1))).
  - rewrite <- filter_filter, H. cbn [List.filter].
    rewrite String.eqb_refl. cbn [negb].
    apply forallb_filter_id. apply forallb_forall. intros b Hb.
    apply negb_true_iff, String.eqb_neq. intros ->. contradiction.
  - intros b. unfold due, includes. cbn [existsb].
    destruct (eligible s c g b), (String.eqb b t1), (existsb _ existing);
      reflexivity.
Qed.

Lemma iterate_badges clock u cs wp types st :
  badges (fst (iterate clock u cs wp types st)) = badges st.
Proof. destruct types; reflexivity. Qed.

Lemma checkAndAwardBadges_keeps clock s :
  badges (component (Awarding.checkAndAwardBadges clock s)) = badges (component s) /\
  exists started,
    inFlight (Awarding.checkAndAwardBadges clock s) = inFlight s ++ started.
Proof.
  unfold Awarding.checkAndAwardBadges. destruct (userId (component s)).
  - match goal with |- context [iterate ?c ?u ?cs ?wp ?n ?st] =>
      pose proof (iterate_badges c u cs wp n st) as Hb;
      destruct (iterate c u cs wp n st) as [st' started]
    end.
    cbn in *. split; [exact Hb|]. now exists started.
  - split; [reflexivity|]. exists []. now rewrite app_nil_r.
Qed.

Lemma awardEffect_keeps clock s :
  badges (component (Awarding.awardEffect clock s)) = badges (component s) /\
  exists started, inFlight (Awarding.awardEffect clock s) = inFlight s ++ started.
Proof.
  unfold Awarding.awardEffect. destruct (0 <? _)%nat.
  - apply checkAndAwardBadges_keeps.
  - split; [reflexivity|]. exists []. now rewrite app_nil_r.
Qed.

(** A fulfilled create call puts its badge in front of [badges] and takes
    its call out of the head of the queue; the calls behind it stay. *)
Lemma settle_head clock later r others s :
  inFlight s = r :: others ->
  badges (component (settle clock later 0 true s))
  = newBadge r :: badges (component s) /\
  exists more, inFlight (settle clock later 0 true s) = others ++ more.
Proof.
  intros Hq. unfold settle. rewrite Hq. cbn [lookup list_lookup delete list_delete].
  match goal with |- context [iterate ?c ?u ?cs ?wp ?n ?st] =>
    pose proof (iterate_badges c u cs wp n st) as Hb;
    destruct (iterate c u cs wp n st) as [st' continued]
  end.
  cbn [fst badges] in Hb.
  match goal with |- context [Awarding.awardEffect later ?x] =>
    destruct (awardEffect_keeps later x) as (Hb' & started & Hq')
  end.
  cbn [component inFlight] in Hb', Hq'. rewrite Hb', Hq', Hb.
  split; [reflexivity|]. exists (continued ++ started). now rewrite app_assoc.
Qed.

(** A user who holds the streak_3 badge reaches a streak of 7 days on the
    day the weekly goal of 35 tasks is met. *)
Definition goalDay : State :=
  mkState (mkProps (Some "u1"%string) 7 35 35)
    [mkBadge "badge_1_streak_3" "u1" "streak_3" "2026-10-26T08:00:00.000Z"
       (mkBadgeData 3 20)]
    35 None [] [] 0 [].

Definition clockAt (ms : string) : Clock :=
  mkClock ("179360000000" +:+ ms) ("2026-11-02T10:00:00.00" +:+ ms +:+ "Z").

(** When the checks find two badge types due, the second is awarded twice.
    The first create call fulfilled, the call goes on to create the second
    badge and the component renders with the first badge in [badges]; the
    effect calls [checkAndAwardBadges] again, whose checks no longer see the
    first type but still see the second as missing: two create calls for it
    are in flight. Fulfilled both, in the order they were issued, they leave
    the second type twice in [badges], in front of the first. *)
Theorem award_loop_awards_twice c0 c1 e1 c2 e2 c3 e3 st user t1 t2 rest :
  userId st = Some user ->
  (0 < length (badges st))%nat ->
  newBadges (map badge_type (badges st)) (currentStreak (props st))
    (completedTasksThisWeek (props st)) (weeklyGoal st) = t1 :: t2 :: rest ->
  let s0 := Awarding.awardEffect c0 (mkSystem st []) in
  let s1 := settle c1 e1 0 true s0 in
  let s3 := settle c3 e3 0 true (settle c2 e2 0 true s1) in
  pendingTypes s0 = [t1] /\
  pendingTypes s1 = [t2; t2] /\
  createdTypes (calls (component s1))
  = createdTypes (calls st) ++ [t1; t2; t2] /\
  map badge_type (badges (component s3))
  = t2 :: t2 :: t1 :: map badge_type (badges st).
Proof.
  intros Hu Hlen Hnew.
  assert (Hnew1 : newBadges (t1 :: map badge_type (badges st))
                    (currentStreak (props st)) (completedTasksThisWeek (props st))
                    (weeklyGoal st) = t2 :: rest).
  { exact (newBadges_after_first _ _ _ _ _ _ Hnew). }
  apply Nat.ltb_lt in Hlen.
  destruct st as [p bs g shown rows log n ts].
  cbn [badges props weeklyGoal calls] in Hu, Hlen, Hnew, Hnew1.
  unfold userId in Hu. cbn [props] in Hu.
  intros s0.
  remember s0 as x0 eqn:E0. unfold s0 in E0. clear s0.
  unfold Awarding.awardEffect in E0. cbn [component badges] in E0.
  rewrite Hlen in E0.
  unfold Awarding.checkAndAwardBadges, userId in E0.
  cbn [component props] in E0. rewrite Hu in E0.
  cbn [badges props weeklyGoal] in E0. rewrite Hnew in E0.
  cbn [iterate inFlight app props badges weeklyGoal showNewBadge db calls checks toasts] in E0.
  intros s1.
  remember s1 as x1 eqn:E1. unfold s1 in E1. clear s1. rewrite E0 in E1.
  unfold settle in E1. cbn [inFlight lookup list_lookup component delete list_delete] in E1.
  cbn [newBadge remaining uid streakSeen progressSeen badge_type app
       props badges weeklyGoal showNewBadge db calls checks toasts iterate] in E1.
  unfold Awarding.awardEffect in E1. cbn [component badges length Nat.ltb Nat.leb] in E1.
  unfold Awarding.checkAndAwardBadges, userId in E1.
  cbn [component props] in E1. rewrite Hu in E1.
  cbn [badges props weeklyGoal map badge_type] in E1. rewrite Hnew1 in E1.
  cbn [iterate inFlight app props badges weeklyGoal showNewBadge db calls checks toasts] in E1.
  intros s3. split; [rewrite E0; reflexivity|].
  split; [rewrite E1; reflexivity|]. split.
  - rewrite E1. cbn [component calls]. unfold createdTypes.
    rewrite !omap_app. cbn [omap list_omap badge_type]. now rewrite <- !app_assoc.
  - assert (Hq1 : exists r1 r2,
               inFlight x1 = [r1; r2] /\ badge_type (newBadge r1) = t2 /\
               badge_type (newBadge r2) = t2 /\
               map badge_type (badges (component x1)) = t1 :: map badge_type bs).
    { rewrite E1. cbn [inFlight component badges]. eexists _, _.
      split; [reflexivity|]. repeat split. }
    destruct Hq1 as (r1 & r2 & Hq1 & Hr1 & Hr2 & Hb1).
    destruct (settle_head c2 e2 r1 [r2] x1 Hq1) as (Hb2 & more & Hq2).
    cbn [app] in Hq2.
    destruct (settle_head c3 e3 r2 more _ Hq2) as (Hb3 & _).
    unfold s3. rewrite Hb3, Hb2. cbn [map]. now rewrite Hr1, Hr2, Hb1.
Qed.

Lemma award_loop_awards_twice_witness :
  let s0 := Awarding.awardEffect (clockAt "1") (mkSystem goalDay []) in
  let s1 := settle (clockAt "2") (clockAt "3") 0 true s0 in
  let s3 := settle (clockAt "6") (clockAt "7") 0 true
              (settle (clockAt "4") (clockAt "5") 0 true s1) in
  pendingTypes s0 = ["streak_7"%string] /\
  pendingTypes s1 = ["weekly_goal"; "weekly_goal"]%string /\
  createdTypes (calls (component s1))
  = createdTypes (calls goalDay) ++ ["streak_7"; "weekly_goal"; "weekly_goal"]%string /\
  map badge_type (badges (component s3))
  = "weekly_goal"%string :: "weekly_goal"%string :: "streak_7"%string
      :: map badge_type (badges goalDay).
Proof.
  apply (award_loop_awards_twice (clockAt "1") (clockAt "2") (clockAt "3")
           (clockAt "4") (clockAt "5") (clockAt "6") (clockAt "7") goalDay
           "u1"%string "streak_7"%string "weekly_goal"%string []).
  - reflexivity.
  - vm_compute. lia.
  - vm_compute. reflexivity.
Defined.

Example goalDay_rows :
  let s1 := settle (clockAt "2") (clockAt "3") 0 true
              (Awarding.awardEffect (clockAt "1") (mkSystem goalDay [])) in
  let s3 := settle (clockAt "6") (clockAt "7") 0 true
              (settle (clockAt "4") (clockAt "5") 0 true s1) in
  map (fun b => (id b, badge_type b)) (db (component s3))
  = [("badge_1793600000001_streak_7", "streak_7");
     ("badge_1793600000002_weekly_goal", "weekly_goal");
     ("badge_1793600000003_weekly_goal", "weekly_goal")]%string /\
  toasts (component s3) = ["streak_7"; "weekly_goal"; "weekly_goal"]%string /\
  inFlight s3 = [].
Proof. vm_compute. repeat split. Qed.

End AwardingFacts.

Module InsightFacts.
Import JS AIInsights InsightProofs.

Definition insightIds : list string :=
  ["category-pattern"; "time-estimation"; "streak-achievement"; "daily-momentum"]%string.

Lemma sublist_one (x : string) (l : list string) :
  l = [] \/ l = [x] -> sublist l [x].
Proof. intros [->| ->]; [apply sublist_nil_l|reflexivity]. Qed.

(** A record of category [__proto__] leaves the statistics as they are. *)
Lemma bump_proto acc :
  existsb (fun e => String.eqb (fst e) "__proto__") acc = false ->
  bump "__proto__" acc = acc.
Proof.
  induction acc as [|[k v] rest IH]; intros H; [reflexivity|].
  cbn in H. apply orb_false_iff in H as [Hk Hrest].
  cbn [bump]. rewrite Hk. now rewrite (IH Hrest).
Qed.

Lemma bump_no_proto c acc :
  existsb (fun e => String.eqb (fst e) "__proto__") acc = false ->
  existsb (fun e => String.eqb (fst e) "__proto__") (bump c acc) = false.
Proof.
  induction acc as [|[k v] rest IH]; intros H.
  - cbn [bump]. destruct (String.eqb c "__proto__") eqn:E; [reflexivity|].
    destruct (inherited c); cbn; now rewrite E.
  - cbn in H. apply orb_false_iff in H as [Hk Hrest]. cbn [bump].
    destruct (String.eqb k c); cbn; rewrite Hk; [exact Hrest|].
    now apply IH.
Qed.

Lemma bump_other_nonempty c acc :
  String.eqb c "__proto__" = false -> bump c acc <> [].
Proof.
  intros Hc. destruct acc as [|[k v] rest]; cbn [bump].
  - rewrite Hc. destruct (inherited c); discriminate.
  - destruct (String.eqb k c); discriminate.
Qed.

Lemma bump_grows c acc : acc <> [] -> bump c acc <> [].
Proof.
  destruct acc as [|[k v] rest]; [tauto|]. intros _. cbn [bump].
  destruct (String.eqb k c); discriminate.
Qed.

(** Some record is of a category other than [__proto__]. *)
Definition hasOwnableCategory (window : list Task) : bool :=
  existsb (fun t => negb (String.eqb (category t) "__proto__")) window.


Lemma stats_from_empty window : forall acc,
  existsb (fun e => String.eqb (fst e) "__proto__") acc = false ->
  (foldl (fun acc task => bump (category task) acc) acc window = []
   <-> acc = [] /\ hasOwnableCategory window = false).
Proof.
  induction window as [|t window IH]; intros acc Hacc; cbn [foldl].
  - cbn. tauto.
  - rewrite (IH _ (bump_no_proto (category t) acc Hacc)). cbn.
    destruct (String.eqb (category t) "__proto__") eqn:E; cbn.
    + apply String.eqb_eq in E. rewrite E, (bump_proto acc Hacc). tauto.
    + split; [|intros [_ H]; discriminate H].
      intros [H _]. now apply bump_other_nonempty in H.
Qed.

(** The statistics are empty exactly when every record of the window is of
    category [__proto__]. *)
Lemma categoryStats_empty window :
  categoryStats window = [] <-> hasOwnableCategory window = false.
Proof.
  unfold categoryStats. rewrite (stats_from_empty window [] eq_refl). tauto.
Qed.

(** A window of records of one category [c] that names an inherited method:
    the one value is a text. *)
Lemma stats_from_glued c window : forall ones,
  Forall (fun t => category t = c) window ->
  foldl (fun acc task => bump (category task) acc) [(c, Glued ones)] window
  = [(c, Glued (ones + length window))].
Proof.
  induction window as [|t window IH]; intros ones H; cbn [foldl length].
  - now rewrite Nat.add_0_r.
  - inversion H as [|? ? Ht Hrest]; subst. cbn [bump].
    rewrite String.eqb_refl. cbn [plusOne]. rewrite (IH _ Hrest).
    do 3 f_equal. lia.
Qed.

Lemma categoryStats_glued c t window :
  inherited c = true -> String.eqb c "__proto__" = false ->
  Forall (fun t => category t = c) (t :: window) ->
  categoryStats (t :: window) = [(c, Glued (S (length window)))].
Proof.
  intros Hin Hc H. inversion H as [|? ? Ht Hrest]; subst.
  unfold categoryStats. cbn [foldl bump]. rewrite Hc, Hin.
  now rewrite (stats_from_glued _ window 1 Hrest).
Qed.

Lemma inherited_no_index c : inherited c = true -> arrayIndex c = None.
Proof.
  unfold inherited. cbn [existsb objectPrototypeNames].
  repeat (destruct (String.eqb c _) eqn:E;
          [apply String.eqb_eq in E; subst c; reflexivity|clear E]).
  discriminate.
Qed.

Lemma nan_share n :
  7 <= n <= 14 -> mathRound (nan / ofNat n * 100)%float = nan.
Proof.
  intros H.
  assert (Hn : n = 7 \/ n = 8 \/ n = 9 \/ n = 10 \/ n = 11 \/ n = 12 \/ n = 13
               \/ n = 14) by lia.
  repeat (destruct Hn as [->|Hn]; [reflexivity|]). now subst n.
Qed.

Lemma head_perm_nonempty (l l' : list (string * Stat)) :
  Permutation l' l -> l <> [] -> exists e, head l' = Some e.
Proof.
  intros Hp Hl. destruct l' as [|e rest]; [|now exists e].
  apply Permutation_nil in Hp. contradiction.
Qed.

Lemma sortByCount_perm implementationSort l :
  (forall l, Permutation (implementationSort l) l) ->
  Permutation (sortByCount implementationSort l) l.
Proof.
  intros Hperm. unfold sortByCount. destruct (consistent (map snd l)).
  - apply (stableSort_perm l).
  - apply Hperm.
Qed.

(** [generateInsights] hands over at most four insights, one per rule, in
    the order of the rules: their ids are a sublist of the four ids, so no id
    comes twice. Where the implementation's [sort] permutes its array, the
    category insight is there exactly when the history has at least 7
    records and some record of the window is of a category other than
    [__proto__]; and when all records of the window are of one category that
    names an inherited method, the insight names it with the percentage
    [NaN]. *)
Theorem generateInsights_one_per_rule
    implementationSort tasks completedTasksHistory currentStreak :
  let insights :=
    generateInsights implementationSort tasks completedTasksHistory currentStreak in
  sublist (map insightId insights) insightIds /\
  length insights <= 4 /\ List.NoDup (map insightId insights) /\
  ((forall l, Permutation (implementationSort l) l) ->
   (In "category-pattern"%string (map insightId insights) <->
    7 <= length completedTasksHistory /\
    hasOwnableCategory (sliceLast14 completedTasksHistory) = true) /\
   (forall c,
      7 <= length completedTasksHistory ->
      inherited c = true -> c <> "__proto__"%string ->
      Forall (fun t => category t = c) (sliceLast14 completedTasksHistory) ->
      categoryInsight implementationSort completedTasksHistory
      = [categoryPatternInsight nan c])).
Proof.
  intros insights. unfold insights, generateInsights.
  set (first := categoryInsight implementationSort completedTasksHistory).
  assert (Hcat : map insightId first = [] \/
                 map insightId first = ["category-pattern"%string]).
  { unfold first, categoryInsight. destruct (7 <=? _)%nat; [|now left].
    cbv zeta. destruct (head _); [now right|now left]. }
  assert (Htime : map insightId (timeInsight completedTasksHistory) = [] \/
                  map insightId (timeInsight completedTasksHistory)
                  = ["time-estimation"%string]).
  { unfold timeInsight. destruct (5 <=? _)%nat; [|now left].
    destruct (_ <? _)%float; [now right|now left]. }
  assert (Hstreak : map insightId (streakInsight currentStreak) = [] \/
                    map insightId (streakInsight currentStreak)
                    = ["streak-achievement"%string]).
  { unfold streakInsight. destruct (7 <=? _)%float; [now right|now left]. }
  assert (Hmom : map insightId (momentumInsight tasks) = [] \/
                 map insightId (momentumInsight tasks) = ["daily-momentum"%string]).
  { unfold momentumInsight. destruct (_ && _); [now right|now left]. }
  assert (Hsub : sublist
                   (map insightId
                      (first ++ timeInsight completedTasksHistory
                         ++ streakInsight currentStreak ++ momentumInsight tasks))
                   insightIds).
  { rewrite !map_app.
    change insightIds with (["category-pattern"%string] ++ ["time-estimation"%string]
                              ++ ["streak-achievement"%string] ++ ["daily-momentum"%string]).
    repeat apply sublist_app; apply sublist_one; assumption. }
  split; [exact Hsub|]. split; [|split].
  - apply sublist_length in Hsub. now rewrite length_map in Hsub.
  - apply NoDup_ListNoDup. refine (sublist_NoDup _ _ _ Hsub).
    refine (bool_decide_unpack _ _). vm_compute. exact I.
  - intros Hperm. split.
    + assert (Hothers : ~ In "category-pattern"%string
                          (map insightId
                             (timeInsight completedTasksHistory
                                ++ streakInsight currentStreak ++ momentumInsight tasks))).
      { rewrite !map_app, !in_app_iff.
        destruct Htime as [-> | ->], Hstreak as [-> | ->], Hmom as [-> | ->];
          cbn; intuition discriminate. }
      rewrite map_app, in_app_iff.
      assert (Hfirst : In "category-pattern"%string (map insightId first) <->
                       7 <= length completedTasksHistory /\
                       hasOwnableCategory (sliceLast14 completedTasksHistory) = true).
      { unfold first, categoryInsight.
        destruct (7 <=? length completedTasksHistory)%nat eqn:Hlen.
        - apply Nat.leb_le in Hlen. cbv zeta.
          destruct (hasOwnableCategory (sliceLast14 completedTasksHistory)) eqn:Hown.
          + assert (Hne : entries (categoryStats (sliceLast14 completedTasksHistory)) <> []).
            { intros Hnil.
              pose proof (entries_perm (categoryStats (sliceLast14 completedTasksHistory)))
                as Hp.
              rewrite Hnil in Hp. apply Permutation_nil in Hp.
              apply categoryStats_empty in Hp. congruence. }
            destruct (head_perm_nonempty _ _
                        (sortByCount_perm implementationSort _ Hperm) Hne) as (e & ->).
            cbn. intuition.
          + assert (Hnil : categoryStats (sliceLast14 completedTasksHistory) = []).
            { now apply categoryStats_empty. }
            rewrite Hnil.
            assert (Hs : sortByCount implementationSort (entries []) = []).
            { apply Permutation_nil. apply Permutation_sym.
              apply (sortByCount_perm implementationSort _ Hperm). }
            rewrite Hs. cbn. intuition discriminate.
        - apply Nat.leb_gt in Hlen. cbn. intuition lia. }
      tauto.
    + intros c Hlen Hin Hc Hall.
      pose proof (sliceLast14_length completedTasksHistory) as Hwin.
      unfold first, categoryInsight.
      rewrite (proj2 (Nat.leb_le _ _) Hlen). cbv zeta.
      destruct (sliceLast14 completedTasksHistory) as [|t window] eqn:Ew;
        [cbn [length] in Hwin; lia|].
      assert (Hc' : String.eqb c "__proto__" = false) by now apply String.eqb_neq.
      rewrite (categoryStats_glued c t window Hin Hc' Hall).
      assert (He : entries [(c, Glued (S (length window)))]
                   = [(c, Glued (S (length window)))]).
      { unfold entries. cbn. now rewrite (inherited_no_index c Hin). }
      rewrite He.
      assert (Hs : sortByCount implementationSort [(c, Glued (S (length window)))]
                   = [(c, Glued (S (length window)))]).
      { apply Permutation_length_1_inv. apply Permutation_sym.
        apply (sortByCount_perm implementationSort _ Hperm). }
      rewrite Hs. cbn [head fst snd toNumber].
      rewrite nan_share by (cbn [length] in *; lia). reflexivity.
Qed.

(** Seven records of the category "constructor", and seven of the category
    "__proto__", under a sort that leaves its array as it is. *)
Example constructor_week :
  generateInsights keepOrder [] (historyOf (replicate 7 "constructor"%string)) 0
  = [categoryPatternInsight nan "constructor"].
Proof. vm_compute. reflexivity. Qed.

Example proto_week :
  generateInsights keepOrder [] (historyOf (replicate 7 "__proto__"%string)) 0 = [].
Proof. vm_compute. reflexivity. Qed.

End InsightFacts.

(** ** Round trips of the task operations *)

Module TaskFacts.
Import JS App TaskProofs.

Lemma id_key (l : list Task) a b :
  List.NoDup (map id l) -> In a l -> In b l -> id a = id b -> a = b.
Proof.
  induction l as [|t l IH]; cbn; intros Hnd Ha Hb Hid; [contradiction|].
  inversion Hnd as [|? ? Hnot Hrest]; subst.
  destruct Ha as [->|Ha], Hb as [->|Hb].
  - reflexivity.
  - exfalso. apply Hnot. rewrite Hid. now apply in_map.
  - exfalso. apply Hnot. rewrite <- Hid. now apply in_map.
  - now apply IH.
Qed.

Lemma find_toggled taskId c l task :
  find (fun t => String.eqb (id t) taskId) l = Some task ->
  find (fun t => String.eqb (id t) taskId) (map (toggled taskId c) l)
  = Some (setCompleted c task).
Proof.
  induction l as [|t l IH]; cbn [find map]; [discriminate|].
  assert (Hid : id (toggled taskId c t) = id t).
  { unfold toggled. now destruct (String.eqb (id t) taskId). }
  rewrite Hid. destruct (String.eqb (id t) taskId) eqn:E.
  - intros [= ->]. unfold toggled. now rewrite E.
  - exact IH.
Qed.

Lemma toggled_back taskId c c' l :
  (forall t, In t l -> id t = taskId -> completed t = c) ->
  map (toggled taskId c) (map (toggled taskId c') l) = l.
Proof.
  intros H. rewrite map_map. rewrite <- (map_id l) at 2.
  apply map_ext_in. intros t Ht. unfold toggled.
  destruct (String.eqb (id t) taskId) eqn:E; cbn; rewrite E; [|reflexivity].
  apply String.eqb_eq in E. rewrite <- (H t Ht E). now destruct t.
Qed.

Lemma toggleTask_fulfilled checkDay taskId reloadOk h st task :
  find (fun t => String.eqb (id t) taskId) (tasks st) = Some task ->
  let st' := toggleTask checkDay taskId true reloadOk h st in
  tasks st' = map (toggled taskId (negb (completed task))) (tasks st) /\
  db st' = map (toggled taskId (negb (completed task))) (db st).
Proof.
  intros Hf. cbv zeta. unfold toggleTask. rewrite Hf.
  destruct (negb (completed task)); [|split; reflexivity].
  match goal with |- context [loadCompletedTasksHistory ?c ?h ?s] =>
    pose proof (loadCompletedTasksHistory_frame c h s) as (_ & Ht & Hd & _)
  end.
  rewrite Ht, Hd. split; reflexivity.
Qed.

(** Toggling a task twice, both updates fulfilled, brings the day's list and
    the store back to where they were. *)
Theorem toggleTask_twice_restores uid st checkDay taskId r1 r2 h1 h2 :
  consistent uid st ->
  let st' := toggleTask checkDay taskId true r1 h1 st in
  let st'' := toggleTask checkDay taskId true r2 h2 st' in
  tasks st'' = tasks st /\ db st'' = db st.
Proof.
  intros Hc. pose proof (consistent_ids uid st Hc) as Hids.
  destruct Hc as [_ _ Hcoh Hkeys]. cbv zeta.
  destruct (find (fun t => String.eqb (id t) taskId) (tasks st)) as [task|] eqn:Hf.
  - pose proof (toggleTask_fulfilled checkDay taskId r1 h1 st task Hf) as [Ht1 Hd1].
    cbv zeta in Ht1, Hd1.
    assert (Hf' : find (fun t => String.eqb (id t) taskId)
                    (tasks (toggleTask checkDay taskId true r1 h1 st))
                  = Some (setCompleted (negb (completed task)) task)).
    { rewrite Ht1. now apply find_toggled. }
    pose proof (toggleTask_fulfilled checkDay taskId r2 h2 _ _ Hf') as [Ht2 Hd2].
    cbv zeta in Ht2, Hd2. rewrite Ht2, Hd2, Ht1, Hd1.
    cbn [completed setCompleted]. rewrite negb_involutive.
    apply find_some in Hf as [Hin Hid]. apply String.eqb_eq in Hid.
    assert (Hdb : In task (db st)).
    { assert (In task (dayRows uid st)) as Hd
        by (eapply Permutation_in; [exact Hcoh|exact Hin]).
      unfold dayRows in Hd. now apply filter_In in Hd. }
    split; apply toggled_back.
    + intros t Ht Hidt. f_equal. apply (id_key (tasks st)); congruence.
    + intros t Ht Hidt. f_equal. apply (id_key (db st)); congruence.
  - unfold toggleTask. rewrite Hf. cbn. rewrite Hf. split; reflexivity.
Qed.

Lemma toggleTask_twice_restores_witness :
  let st' := toggleTask (utcCheckDay 20759) "c" true true (Some []) (withTasks fiveTasks) in
  let st'' := toggleTask (utcCheckDay 20759) "c" true true (Some []) st' in
  tasks st'' = tasks (withTasks fiveTasks) /\ db st'' = db (withTasks fiveTasks).
Proof.
  exact (toggleTask_twice_restores "u1" (withTasks fiveTasks) (utcCheckDay 20759)
           "c" true true (Some []) (Some []) withTasks_consistent).
Defined.

(** [renumber] in terms of the position written to each element. *)
Definition stamp (k : nat) (t : Task) : Task := setPriority (Z.of_nat k + 1) t.

Lemma stamp_stamp j k t : stamp j (stamp k t) = stamp j t.
Proof. reflexivity. Qed.

Lemma imap_stamp_twice (f g : nat -> nat) l :
  imap (fun k => stamp (f k)) (imap (fun k => stamp (g k)) l)
  = imap (fun k => stamp (f k)) l.
Proof.
  revert f g. induction l as [|t l IH]; intros f g; [reflexivity|].
  cbn [imap]. f_equal. apply (IH (fun k => f (S k)) (fun k => g (S k))).
Qed.

Lemma renumber_swap pre x y post :
  renumber (pre ++ x :: y :: post)
  = imap stamp pre ++ stamp (length pre) x :: stamp (S (length pre)) y
      :: imap (fun k => stamp (S (S (length pre + k)))) post.
Proof.
  unfold renumber. fold stamp. change (fun index task => stamp index task) with stamp.
  rewrite imap_app. cbn [imap]. rewrite Nat.add_0_r.
  apply (f_equal (app (imap stamp pre))). apply (f_equal (cons (stamp (length pre) x))).
  unfold compose. replace (length pre + 1) with (S (length pre)) by lia.
  apply (f_equal (cons (stamp (S (length pre)) y))).
  apply imap_ext. intros k t _. cbn. f_equal. lia.
Qed.

Lemma findIndex_split taskId l i :
  findIndex taskId l = Some i ->
  exists pre t post,
    l = pre ++ t :: post /\ length pre = i /\ String.eqb (id t) taskId = true /\
    forallb (fun u => negb (String.eqb (id u) taskId)) pre = true.
Proof.
  revert i. induction l as [|u l IH]; cbn; intros i; [discriminate|].
  destruct (String.eqb (id u) taskId) eqn:E.
  - intros [= <-]. now exists [], u, l.
  - destruct (findIndex taskId l) as [j|]; [|discriminate].
    intros [= <-]. destruct (IH j eq_refl) as (pre & t & post & -> & Hlen & Ht & Hpre).
    exists (u :: pre), t, post. cbn. rewrite E, Hpre, Hlen. auto.
Qed.

Lemma findIndex_at taskId pre t post :
  forallb (fun u => negb (String.eqb (id u) taskId)) pre = true ->
  String.eqb (id t) taskId = true ->
  findIndex taskId (pre ++ t :: post) = Some (length pre).
Proof.
  induction pre as [|u pre IH]; cbn; intros Hpre Ht.
  - now rewrite Ht.
  - apply andb_true_iff in Hpre as [Hu Hpre]. apply negb_true_iff in Hu.
    rewrite Hu, (IH Hpre Ht). reflexivity.
Qed.

Lemma forallb_imap_stamp (p : Task -> bool) (f : nat -> nat) l :
  (forall k t, p (stamp k t) = p t) ->
  forallb p (imap (fun k => stamp (f k)) l) = forallb p l.
Proof.
  intros Hp. revert f. induction l as [|t l IH]; intros f; [reflexivity|].
  cbn [imap forallb]. rewrite Hp. f_equal. apply (IH (fun k => f (S k))).
Qed.

Lemma splice_after_delete (pre : list Task) x y post :
  spliceIn (length pre) y (delete (S (length pre)) (pre ++ x :: y :: post))
  = pre ++ y :: x :: post.
Proof.
  unfold spliceIn.
  assert (Hdel : delete (S (length pre)) (pre ++ x :: y :: post) = pre ++ x :: post).
  { induction pre as [|a pre IH]; [reflexivity|]. cbn. now f_equal. }
  rewrite Hdel, take_app_length, drop_app_length. reflexivity.
Qed.

Lemma splice_before_delete (pre : list Task) x y post :
  spliceIn (S (length pre)) x (delete (length pre) (pre ++ x :: y :: post))
  = pre ++ y :: x :: post.
Proof.
  unfold spliceIn.
  assert (Hdel : delete (length pre) (pre ++ x :: y :: post) = pre ++ y :: post).
  { induction pre as [|a pre IH]; [reflexivity|]. cbn. now f_equal. }
  rewrite Hdel.
  change (pre ++ y :: post) with (pre ++ [y] ++ post). rewrite app_assoc.
  replace (S (length pre)) with (length (pre ++ [y])) by (rewrite length_app; cbn; lia).
  rewrite take_app_length, drop_app_length, <- app_assoc. reflexivity.
Qed.

Lemma renumber_in_order l :
  map priority l = oneToN (length l) -> renumber l = l.
Proof.
  unfold renumber, oneToN.
  assert (H : forall (f : nat -> Z) l,
            map priority l = map f (seq 0 (length l)) ->
            imap (fun k t => setPriority (f k) t) l = l).
  { clear l. intros f l. revert f. induction l as [|t l IH]; intros f Hp; [reflexivity|].
    cbn in Hp. injection Hp as Hp0 Hp. cbn [imap]. f_equal.
    - rewrite <- Hp0. now destruct t.
    - apply (IH (fun k => f (S k))). rewrite Hp, <- seq_shift, map_map. reflexivity. }
  intros Hp. exact (H (fun k => (Z.of_nat k + 1)%Z) l Hp).
Qed.

(** The state after a move whose updates are all fulfilled. *)
Lemma movePriority_fulfilled taskId direction reloadOk st i t :
  findIndex taskId (tasks st) = Some i -> tasks st !! i = Some t ->
  (0 <= neighbour direction i < Z.of_nat (length (tasks st)))%Z ->
  let updatedTasks :=
    renumber (spliceIn (Z.to_nat (neighbour direction i)) t (delete i (tasks st))) in
  let st' := movePriority taskId direction None reloadOk st in
  tasks st' = updatedTasks /\ db st' = applyUpdates updatedTasks (db st) /\
  user st' = user st /\ selectedDate st' = selectedDate st.
Proof.
  intros Hi Ht Hrange. cbv zeta. unfold movePriority. rewrite Hi.
  fold (neighbour direction i).
  replace ((neighbour direction i <? 0)%Z
           || (Z.of_nat (length (tasks st)) <=? neighbour direction i)%Z)
    with false by (symmetry; apply orb_false_iff; split; [apply Z.ltb_ge|apply Z.leb_gt]; lia).
  rewrite Ht.
  match goal with |- context [updatePriorities None ?l ?s] =>
    destruct (updatePriorities_fulfilled l s) as (st1 & E & Ets & Edb & Eu & Es & _)
  end.
  rewrite E. cbn in Ets, Edb, Eu, Es. cbn. auto.
Qed.

(** Moving a task up and then down again (every update fulfilled) leaves
    the day's tasks in their original order, renumbered by position; when
    the session is consistent and the priorities were already the positions,
    the list and the store are exactly what they were. *)
Theorem movePriority_up_then_down taskId r1 r2 st i :
  findIndex taskId (tasks st) = Some i -> 0 < i ->
  let st'' := movePriority taskId down None r2
                (movePriority taskId up None r1 st) in
  tasks st'' = renumber (tasks st) /\
  (forall uid, consistent uid st ->
     map priority (tasks st) = oneToN (length (tasks st)) ->
     tasks st'' = tasks st /\ db st'' = db st).
Proof.
  intros Hi Hpos.
  destruct (findIndex_split taskId (tasks st) i Hi) as (pre0 & t & post & Hl & Hlen & Hid & Hpre0).
  destruct (exists_last (l := pre0)) as (pre & [u Hpre0eq]).
  { intros ->. cbn in Hlen. lia. }
  subst pre0. rewrite <- app_assoc in Hl. cbn in Hl.
  rewrite length_app in Hlen. cbn in Hlen.
  rewrite forallb_app in Hpre0. apply andb_true_iff in Hpre0 as [Hpre Hu].
  cbn in Hu. rewrite andb_true_r in Hu.
  assert (Hn : i = S (length pre)) by lia.
  (* the first move *)
  assert (Hti : tasks st !! i = Some t).
  { rewrite Hl, Hn. rewrite lookup_app_r by lia.
    replace (S (length pre) - length pre) with 1 by lia. reflexivity. }
  assert (Hlenl : length (tasks st) = S (S (length pre + length post))).
  { rewrite Hl, length_app. cbn. lia. }
  pose proof (movePriority_fulfilled taskId up r1 st i t Hi Hti) as H1.
  cbv zeta in H1. destruct H1 as (Ht1 & Hd1 & Hu1 & Hs1).
  { cbn [neighbour]. lia. }
  cbn [neighbour] in Ht1, Hd1.
  replace (Z.to_nat (Z.of_nat i - 1)) with (length pre) in Ht1, Hd1 by lia.
  rewrite Hn, Hl, splice_after_delete in Ht1, Hd1.
  rewrite renumber_swap in Ht1.
  set (st1 := movePriority taskId up None r1 st) in *.
  (* the second move *)
  assert (Hi1 : findIndex taskId (tasks st1) = Some (length pre)).
  { rewrite Ht1. transitivity (Some (length (imap stamp pre)));
      [|now rewrite length_imap].
    apply findIndex_at; [|exact Hid].
    rewrite <- Hpre. apply (forallb_imap_stamp _ (fun k => k)). reflexivity. }
  assert (Hti1 : tasks st1 !! length pre = Some (stamp (length pre) t)).
  { rewrite Ht1. rewrite lookup_app_r by (rewrite length_imap; lia).
    rewrite length_imap, Nat.sub_diag. reflexivity. }
  pose proof (movePriority_fulfilled taskId down r2 st1 _ _ Hi1 Hti1) as H2.
  cbv zeta in H2. destruct H2 as (Ht2 & Hd2 & Hu2 & Hs2).
  { cbn [neighbour]. rewrite Ht1, length_app. cbn [length].
    rewrite !length_imap. lia. }
  cbn [neighbour] in Ht2, Hd2.
  replace (Z.to_nat (Z.of_nat (length pre) + 1)) with (S (length pre)) in Ht2, Hd2 by lia.
  assert (Hback : renumber
                    (spliceIn (S (length pre)) (stamp (length pre) t)
                       (delete (length pre) (tasks st1)))
                  = renumber (tasks st)).
  { rewrite Ht1.
    pose proof (splice_before_delete (imap stamp pre) (stamp (length pre) t)
                  (stamp (S (length pre)) u)
                  (imap (fun k => stamp (S (S (length pre + k)))) post)) as Hs.
    rewrite length_imap in Hs. rewrite Hs. rewrite !Hl, !renumber_swap.
    rewrite !length_imap.
    rewrite (imap_stamp_twice (fun k => k) (fun k => k)).
    rewrite (imap_stamp_twice (fun k => S (S (length pre + k)))
               (fun k => S (S (length pre + k)))).
    reflexivity. }
  rewrite Hback in Ht2, Hd2. cbv zeta. split; [exact Ht2|].
  intros uid Hc Hord. pose proof (consistent_ids uid st Hc) as Hids.
  destruct Hc as [_ _ Hcoh Hkeys].
  rewrite (renumber_in_order _ Hord) in Ht2, Hd2. split; [exact Ht2|].
  rewrite Hd2, Hd1.
  assert (Hnd1 : List.NoDup (map id (renumber (pre ++ t :: u :: post)))).
  { rewrite renumber_id.
    apply (Permutation_NoDup (l := map id (tasks st))); [|exact Hids].
    rewrite Hl. apply Permutation_map.
    apply Permutation_app_head. apply perm_swap. }
  rewrite (applyUpdates_map _ Hnd1), (applyUpdates_map _ Hids).
  rewrite map_map. rewrite <- (map_id (db st)) at 2.
  apply map_ext_in. intros r Hr.
  assert (Hpid : id (patchFrom (renumber (pre ++ t :: u :: post)) r) = id r).
  { unfold patchFrom. now destruct (find _ _). }
  unfold patchFrom at 1. rewrite Hpid.
  destruct (find (fun v => String.eqb (id v) (id r)) (tasks st)) as [v|] eqn:Hv.
  - apply find_some in Hv as [Hvin Hvid]. apply String.eqb_eq in Hvid.
    assert (Hvdb : In v (db st)).
    { assert (In v (dayRows uid st)) as Hd
        by (eapply Permutation_in; [exact Hcoh|exact Hvin]).
      unfold dayRows in Hd. now apply filter_In in Hd. }
    assert (v = r) as -> by (apply (id_key (db st)); assumption).
    unfold patchFrom. destruct (find _ _); now destruct r.
  - unfold patchFrom.
    destruct (find (fun v => String.eqb (id v) (id r)) (renumber (pre ++ t :: u :: post)))
      as [w|] eqn:Hw; [|reflexivity].
    exfalso. apply find_some in Hw as [Hwin Hwid]. apply String.eqb_eq in Hwid.
    assert (Hin : In (id r) (map id (tasks st))).
    { rewrite Hl. apply (Permutation_in (l := map id (pre ++ t :: u :: post))).
      - apply Permutation_map, Permutation_app_head, perm_swap.
      - rewrite <- renumber_id, <- Hwid. now apply in_map. }
    apply in_map_iff in Hin as (v & Hvid & Hvin).
    pose proof (find_none _ _ Hv v Hvin) as Hno. cbn in Hno.
    rewrite Hvid, String.eqb_refl in Hno. discriminate.
Qed.

Lemma movePriority_up_then_down_witness :
  let st'' := movePriority "c" down None true
                (movePriority "c" up None true (withTasks fiveTasks)) in
  tasks st'' = renumber (tasks (withTasks fiveTasks)) /\
  tasks st'' = tasks (withTasks fiveTasks) /\ db st'' = db (withTasks fiveTasks).
Proof.
  pose proof (movePriority_up_then_down "c" true true (withTasks fiveTasks) 2
                eq_refl ltac:(lia)) as [H1 H2].
  split; [exact H1|]. exact (H2 "u1"%string withTasks_consistent eq_refl).
Defined.

(** A toggle whose update the store rejects is rolled back by the reload:
    when the list on screen was the store's list of the day, it is again the
    same list once the reload is fulfilled, the store is untouched, and the
    failure is reported. *)
Theorem toggleTask_rejected_rolls_back checkDay taskId h st uid :
  userId st = Some uid ->
  tasks st = storeListDay uid (dateStr st) (db st) ->
  In taskId (map id (tasks st)) ->
  let st' := toggleTask checkDay taskId false true h st in
  tasks st' = tasks st /\ db st' = db st /\
  toasts st' = toasts st ++ [ToastUpdateFailed].
Proof.
  intros Hu Hsync Hin. cbv zeta. unfold toggleTask.
  destruct (find (fun t => String.eqb (id t) taskId) (tasks st)) as [task|] eqn:Hf.
  - match goal with |- context [loadTasks true ?s] =>
      destruct (loadTasks_true uid s Hu) as (Ht & Hd & _);
      assert (Hto : toasts (loadTasks true s) = toasts s)
        by (unfold loadTasks; change (userId s) with (userId st); now rewrite Hu)
    end.
    rewrite Ht, Hd, Hto. cbn [db toasts toast logCall setTasks].
    split; [symmetry; exact Hsync|]. split; reflexivity.
  - exfalso. apply in_map_iff in Hin as (t & Hid & Ht).
    pose proof (find_none _ _ Hf t Ht) as Hno. cbn in Hno.
    rewrite Hid, String.eqb_refl in Hno. discriminate.
Qed.

Lemma toggleTask_rejected_rolls_back_witness :
  let st' := toggleTask (utcCheckDay 20759) "b" false true None (withTasks fiveTasks) in
  tasks st' = tasks (withTasks fiveTasks) /\ db st' = db (withTasks fiveTasks) /\
  toasts st' = toasts (withTasks fiveTasks) ++ [ToastUpdateFailed].
Proof.
  apply (toggleTask_rejected_rolls_back (utcCheckDay 20759) "b" None
           (withTasks fiveTasks) "u1").
  - reflexivity.
  - vm_compute. reflexivity.
  - vm_compute. right. left. reflexivity.
Defined.

End TaskFacts.

(** ** The list on screen and the store's order *)

Module OrderFacts.
Import JS App TaskProofs.

(** Priorities that grow strictly, and priorities that do not fall, along a
    list. *)
Fixpoint increasing (l : list Task) : bool :=
  match l with
  | a :: (b :: _) as rest => (priority a <? priority b)%Z && increasing rest
  | _ => true
  end.

Fixpoint ascending (l : list Task) : bool :=
  match l with
  | a :: (b :: _) as rest => (priority a <=? priority b)%Z && ascending rest
  | _ => true
  end.

Lemma increasing_cons a b l :
  increasing (a :: b :: l) = (priority a <? priority b)%Z && increasing (b :: l).
Proof. reflexivity. Qed.

Lemma ascending_cons a b l :
  ascending (a :: b :: l) = (priority a <=? priority b)%Z && ascending (b :: l).
Proof. reflexivity. Qed.

Lemma increasing_head a l :
  increasing (a :: l) = true ->
  increasing l = true /\ forall b, In b l -> (priority a < priority b)%Z.
Proof.
  revert a. induction l as [|b l IH]; intros a H; [split; [reflexivity|contradiction]|].
  rewrite increasing_cons in H. apply andb_true_iff in H as [Hab Hl].
  apply Z.ltb_lt in Hab. split; [exact Hl|].
  intros c [<-|Hc]; [exact Hab|].
  destruct (IH b Hl) as [_ Hb]. specialize (Hb c Hc). lia.
Qed.

Lemma ascending_head a l :
  ascending (a :: l) = true ->
  ascending l = true /\ forall b, In b l -> (priority a <= priority b)%Z.
Proof.
  revert a. induction l as [|b l IH]; intros a H; [split; [reflexivity|contradiction]|].
  rewrite ascending_cons in H. apply andb_true_iff in H as [Hab Hl].
  apply Z.leb_le in Hab. split; [exact Hl|].
  intros c [<-|Hc]; [exact Hab|].
  destruct (IH b Hl) as [_ Hb]. specialize (Hb c Hc). lia.
Qed.

Lemma increasing_ascending l : increasing l = true -> ascending l = true.
Proof.
  induction l as [|a l IH]; [reflexivity|]. destruct l as [|b l]; [reflexivity|].
  rewrite increasing_cons, ascending_cons. intros H.
  apply andb_true_iff in H as [Hab Hl]. rewrite (IH Hl), andb_true_r.
  apply Z.ltb_lt in Hab. apply Z.leb_le. lia.
Qed.

Lemma insertByPriority_ascending t sorted :
  ascending sorted = true -> ascending (insertByPriority t sorted) = true.
Proof.
  induction sorted as [|u rest IH]; intros Hs; [reflexivity|].
  cbn [insertByPriority]. destruct (priority u <=? priority t)%Z eqn:E.
  - destruct (ascending_head u rest Hs) as [Hrest _]. specialize (IH Hrest).
    destruct rest as [|v rest'].
    + cbn. now rewrite E.
    + change (ascending (u :: v :: rest'))
        with ((priority u <=? priority v)%Z && ascending (v :: rest')) in Hs.
      apply andb_true_iff in Hs as [Huv _].
      cbn [insertByPriority] in *.
      destruct (priority v <=? priority t)%Z.
      * change (ascending (u :: v :: insertByPriority t rest'))
          with ((priority u <=? priority v)%Z
                && ascending (v :: insertByPriority t rest')).
        now rewrite Huv.
      * change (ascending (u :: t :: v :: rest'))
          with ((priority u <=? priority t)%Z && ascending (t :: v :: rest')).
        now rewrite E.
  - apply Z.leb_gt in E.
    change (ascending (t :: u :: rest))
      with ((priority t <=? priority u)%Z && ascending (u :: rest)).
    rewrite Hs, andb_true_r. apply Z.leb_le. lia.
Qed.

Lemma orderByPriority_ascending rows : ascending (orderByPriority rows) = true.
Proof.
  unfold orderByPriority.
  assert (H : forall acc, ascending acc = true ->
            ascending (foldl (fun sorted t => insertByPriority t sorted) acc rows) = true).
  { induction rows as [|r rows IH]; intros acc Hacc; [exact Hacc|].
    cbn [foldl]. apply IH. now apply insertByPriority_ascending. }
  now apply H.
Qed.

(** A list has one arrangement in priority order when its priorities are
    distinct. *)
Lemma ordered_unique l : forall l',
  Permutation l l' -> increasing l = true -> ascending l' = true -> l = l'.
Proof.
  induction l as [|a l IH]; intros l' Hp Hi Ha.
  - apply Permutation_nil in Hp. now subst.
  - destruct l' as [|a' l']; [apply Permutation_sym, Permutation_nil in Hp; discriminate|].
    destruct (increasing_head a l Hi) as [Hl Hlt].
    destruct (ascending_head a' l' Ha) as [Hl' Hle].
    assert (Ha' : In a' (a :: l)) by (eapply Permutation_in; [symmetry; exact Hp|now left]).
    assert (Hain : In a (a' :: l')) by (eapply Permutation_in; [exact Hp|now left]).
    assert (a = a') as <-.
    { destruct Ha' as [E|Hin]; [exact E|].
      destruct Hain as [E|Hin']; [now symmetry|].
      specialize (Hlt a' Hin). specialize (Hle a Hin'). lia. }
    f_equal. apply IH; [now apply Permutation_cons_inv in Hp|exact Hl|exact Hl'].
Qed.

(** In a consistent session whose list is in priority order, the list on
    screen is exactly what the store lists for the day. *)
Lemma consistent_in_order uid st :
  consistent uid st -> increasing (tasks st) = true ->
  tasks st = storeListDay uid (dateStr st) (db st).
Proof.
  intros Hc Hi. apply ordered_unique; [|exact Hi|apply orderByPriority_ascending].
  unfold storeListDay. rewrite orderByPriority_perm. apply Hc.
Qed.

Lemma increasing_priorities l l' :
  map priority l = map priority l' -> increasing l = increasing l'.
Proof.
  revert l'. induction l as [|a l IH]; intros [|a' l'] H; try discriminate; [reflexivity|].
  cbn in H. injection H as Ha Hl. specialize (IH l' Hl).
  destruct l as [|b l], l' as [|b' l']; try discriminate; [reflexivity|].
  rewrite !increasing_cons. cbn in Hl. injection Hl as Hb _. now rewrite Ha, Hb, IH.
Qed.

Lemma increasing_oneToN l :
  map priority l = oneToN (length l) -> increasing l = true.
Proof.
  unfold oneToN.
  assert (H : forall k l, map priority l
                          = map (fun i => (Z.of_nat i + 1)%Z) (seq k (length l)) ->
                          increasing l = true).
  { clear l. intros k l. revert k. induction l as [|a l IH]; intros k Hp; [reflexivity|].
    cbn in Hp. injection Hp as Ha Hl. specialize (IH (S k) Hl).
    destruct l as [|b l]; [reflexivity|].
    rewrite increasing_cons, IH, andb_true_r. cbn in Hl. injection Hl as Hb _.
    apply Z.ltb_lt. lia. }
  apply H.
Qed.

Lemma increasing_snoc l t :
  increasing l = true -> (forall a, In a l -> (priority a < priority t)%Z) ->
  increasing (l ++ [t]) = true.
Proof.
  induction l as [|a l IH]; intros Hi Hlt; [reflexivity|].
  destruct (increasing_head a l Hi) as [Hl _].
  destruct l as [|b l].
  - cbn. rewrite andb_true_r. apply Z.ltb_lt, Hlt. now left.
  - rewrite increasing_cons in Hi. apply andb_true_iff in Hi as [Hab _].
    change ((a :: b :: l) ++ [t]) with (a :: b :: (l ++ [t])).
    rewrite increasing_cons, Hab. apply IH; [exact Hl|].
    intros c Hc. apply Hlt. now right.
Qed.

Lemma oneToN_NoDup n : List.NoDup (oneToN n).
Proof.
  induction n as [|n IH]; [constructor|].
  rewrite oneToN_S. apply List.NoDup_app; [exact IH|repeat constructor; intros []|].
  intros p Hp [<-|[]]. unfold oneToN in Hp.
  apply in_map_iff in Hp as (k & Hk & Hin). apply in_seq in Hin. lia.
Qed.

Lemma ascending_distinct l :
  ascending l = true -> List.NoDup (map priority l) -> increasing l = true.
Proof.
  induction l as [|a l IH]; intros Ha Hnd; [reflexivity|].
  destruct l as [|b l]; [reflexivity|].
  rewrite ascending_cons in Ha. apply andb_true_iff in Ha as [Hab Hl].
  cbn [map] in Hnd. inversion Hnd as [|? ? Hnot Hrest]; subst.
  rewrite increasing_cons, (IH Hl Hrest), andb_true_r.
  apply Z.leb_le in Hab. apply Z.ltb_lt.
  assert (priority a <> priority b) by (intros E; apply Hnot; rewrite E; now left).
  lia.
Qed.

Lemma consistent_ascending uid st :
  consistent uid st -> ascending (tasks st) = true -> increasing (tasks st) = true.
Proof.
  intros [_ Hcont _ _] Ha. apply ascending_distinct; [exact Ha|].
  apply (Permutation_NoDup (l := oneToN (length (tasks st))));
    [symmetry; exact Hcont|apply oneToN_NoDup].
Qed.

(** What the screen shows is what a reload would show. *)
Definition inOrder (uid : string) (st : State) : Prop :=
  consistent uid st /\ increasing (tasks st) = true.

(** In a consistent session whose list is in priority order, the list on
    screen is exactly the list a reload would show; and adding a task,
    toggling one and moving one (store calls fulfilled as far as the
    operation needs) keep it so. *)
Theorem screen_shows_store_order uid st :
  inOrder uid st ->
  tasks st = storeListDay uid (dateStr st) (db st) /\
  (forall newId createOk,
     ~ In newId (map id (db st)) -> inOrder uid (addTask newId createOk st)) /\
  (forall checkDay taskId updateOk reloadOk h,
     updateOk = true \/ reloadOk = true ->
     inOrder uid (toggleTask checkDay taskId updateOk reloadOk h st)) /\
  (forall taskId direction reloadOk,
     inOrder uid (movePriority taskId direction None reloadOk st)).
Proof.
  intros [Hc Hi]. split; [now apply consistent_in_order|]. split; [|split].
  - intros newId createOk Hfresh.
    destruct (addTask_consistent uid st newId createOk Hc Hfresh) as [Hc' [E|(t & E & Hp)]];
      (split; [exact Hc'|]); rewrite E; [exact Hi|].
    apply increasing_snoc; [exact Hi|]. intros a Ha. rewrite Hp.
    destruct Hc as [_ Hcont _ _]. unfold contiguous in Hcont.
    assert (In (priority a) (oneToN (length (tasks st)))) as Hin
      by (eapply Permutation_in; [exact Hcont|now apply in_map]).
    unfold oneToN in Hin. apply in_map_iff in Hin as (k & <- & Hk).
    apply in_seq in Hk. lia.
  - intros checkDay taskId updateOk reloadOk h Hok.
    pose proof (toggleTask_consistent uid st checkDay taskId updateOk reloadOk h Hc Hok)
      as (Hc' & Hp & _). cbv zeta in Hc', Hp.
    split; [exact Hc'|].
    destruct updateOk.
    + rewrite (increasing_priorities _ _ (Hp eq_refl)). exact Hi.
    + destruct Hok as [Hok|Hok]; [discriminate|]. subst reloadOk.
      apply (consistent_ascending uid _ Hc').
      unfold toggleTask.
      destruct (find _ (tasks st)); [|now apply increasing_ascending].
      destruct Hc as [Hu _ _ _].
      match goal with |- context [loadTasks true ?s] =>
        destruct (loadTasks_true uid s Hu) as (Ht & _)
      end.
      rewrite Ht. unfold storeListDay. apply orderByPriority_ascending.
  - intros taskId direction reloadOk.
    pose proof (movePriority_consistent uid st taskId direction reloadOk Hc) as (Hc' & Hor).
    cbv zeta in Hc', Hor. split; [exact Hc'|].
    destruct Hor as [->|Hp]; [exact Hi|].
    apply increasing_oneToN. rewrite Hp. f_equal.
    apply (f_equal (@length Z)) in Hp. rewrite length_map in Hp. rewrite Hp.
    unfold oneToN. now rewrite length_map, length_seq.
Qed.

Lemma screen_shows_store_order_witness :
  tasks (withTasks fiveTasks)
  = storeListDay "u1" (dateStr (withTasks fiveTasks)) (db (withTasks fiveTasks)) /\
  inOrder "u1" (movePriority "c" up None true (withTasks fiveTasks)) /\
  inOrder "u1"
    (toggleTask (utcCheckDay 20759) "c" false true None (withTasks fiveTasks)).
Proof.
  assert (H0 : inOrder "u1" (withTasks fiveTasks))
    by (split; [exact withTasks_consistent|reflexivity]).
  pose proof (screen_shows_store_order "u1" (withTasks fiveTasks) H0)
    as (Hshow & _ & Htoggle & Hmove).
  split; [exact Hshow|]. split.
  - apply Hmove.
  - apply Htoggle. right. reflexivity.
Defined.

End OrderFacts.

(** ** The retry helper *)

Module RetryProofs.
Import Retry.

Section Proofs.
Context {A E : Type} (status : E -> option Z).

(** The waits before attempts [1 .. n]. *)
Definition backoff (baseDelay : Z) (n : nat) : list Z :=
  map (fun i => (baseDelay * 2 ^ Z.of_nat i)%Z) (seq 0 n).

Definition retried (fn : nat -> Outcome A E) (k : nat) : bool :=
  match fn k with
  | Rejected e => rateLimited status e
  | Fulfilled _ => false
  end.

Lemma backoff_S baseDelay n :
  backoff baseDelay (S n) = backoff baseDelay n ++ [(baseDelay * 2 ^ Z.of_nat n)%Z].
Proof. unfold backoff. now rewrite seq_S, map_app. Qed.

Lemma retryLoop_spec (fn : nat -> Outcome A E) maxRetries baseDelay : forall remaining i,
  i + remaining = maxRetries -> i = 0 \/ i < maxRetries ->
  (forall k, k < i -> retried fn k = true) ->
  let r := retryLoop status fn maxRetries baseDelay remaining i (backoff baseDelay i) in
  attempts r <= maxRetries /\
  delays r = backoff baseDelay (attempts r - 1) /\
  (forall k, k < attempts r - 1 -> retried fn k = true) /\
  (maxRetries = 0 -> r = mkRun A E (Returned None) 0 []) /\
  (0 < maxRetries -> 0 < attempts r /\
     match fn (attempts r - 1) with
     | Fulfilled v => result r = Returned (Some v)
     | Rejected e =>
         result r = Thrown e /\
         (rateLimited status e = false \/ attempts r = maxRetries)
     end).
Proof.
  induction remaining as [|remaining IH]; intros i Hi Hlt Hprev.
  - assert (i = 0 /\ maxRetries = 0) as [-> ->] by lia.
    cbn. repeat split; try lia; intros; lia.
  - cbn [retryLoop]. destruct (fn i) as [v|e] eqn:Hfn.
    + cbn. replace (i - 0) with i by lia. rewrite Hfn.
      repeat split; try lia; try assumption.
    + destruct (rateLimited status e && (Z.of_nat i <? Z.of_nat maxRetries - 1)%Z) eqn:Hretry.
      * apply andb_true_iff in Hretry as [H429 Hroom]. apply Z.ltb_lt in Hroom.
        rewrite <- backoff_S. apply IH; [lia|lia|].
        intros k Hk. destruct (Nat.eq_dec k i) as [->|Hne].
        -- unfold retried. now rewrite Hfn.
        -- apply Hprev. lia.
      * cbn. replace (i - 0) with i by lia. rewrite Hfn.
        repeat split; try lia; try assumption.
        apply andb_false_iff in Hretry as [H429|Hroom]; [now left|right].
        apply Z.ltb_ge in Hroom. lia.
Qed.

(** The attempts are bounded by [maxRetries]; every attempt but the last was
    rejected with status 429, and the wait before attempt [k + 1] is
    [baseDelay * 2^k] (plus the random part). *)
Theorem retryWithBackoff_bounded_attempts (fn : nat -> Outcome A E) maxRetries baseDelay :
  let r := retryWithBackoff status fn maxRetries baseDelay in
  attempts r <= maxRetries /\
  delays r = backoff baseDelay (attempts r - 1) /\
  (forall k, k < attempts r - 1 -> retried fn k = true).
Proof.
  pose proof (retryLoop_spec fn maxRetries baseDelay maxRetries 0 eq_refl
                (or_introl eq_refl) ltac:(intros; lia)) as (H1 & H2 & H3 & _).
  cbn zeta. unfold retryWithBackoff. change (@nil Z) with (backoff baseDelay 0).
  auto.
Qed.

(** With at least one attempt allowed, the promise settles as the last
    attempt did: fulfilled with its value, or rejected with its error; and an
    error is passed on as soon as it is not a 429, or when the attempts are
    used up. *)
Theorem retryWithBackoff_settles_as_last_attempt (fn : nat -> Outcome A E) maxRetries baseDelay :
  0 < maxRetries ->
  let r := retryWithBackoff status fn maxRetries baseDelay in
  0 < attempts r /\
  match fn (attempts r - 1) with
  | Fulfilled v => result r = Returned (Some v)
  | Rejected e =>
      result r = Thrown e /\
      (rateLimited status e = false \/ attempts r = maxRetries)
  end.
Proof.
  intros Hpos.
  pose proof (retryLoop_spec fn maxRetries baseDelay maxRetries 0 eq_refl
                (or_introl eq_refl) ltac:(intros; lia)) as (_ & _ & _ & _ & H).
  apply H, Hpos.
Qed.

(** The promise is fulfilled with [undefined] exactly when no attempt is
    allowed; [fn] is then never called. *)
Theorem retryWithBackoff_undefined_iff_no_attempts (fn : nat -> Outcome A E) maxRetries baseDelay :
  let r := retryWithBackoff status fn maxRetries baseDelay in
  (result r = Returned None <-> maxRetries = 0) /\
  (attempts r = 0 <-> maxRetries = 0).
Proof.
  pose proof (retryLoop_spec fn maxRetries baseDelay maxRetries 0 eq_refl
                (or_introl eq_refl) ltac:(intros; lia)) as (_ & _ & _ & H0 & H).
  cbn zeta in *. unfold retryWithBackoff.
  change (@nil Z) with (backoff baseDelay 0).
  split; split.
  - intros Hres. destruct maxRetries as [|m]; [reflexivity|exfalso].
    destruct (H ltac:(lia)) as [_ Hlast].
    destruct (fn _); [|destruct Hlast as [Hlast _]]; rewrite Hres in Hlast; discriminate.
  - intros ->. now rewrite (H0 eq_refl).
  - intros Hatt. destruct maxRetries as [|m]; [reflexivity|exfalso].
    destruct (H ltac:(lia)) as [Hpos _]. lia.
  - intros ->. now rewrite (H0 eq_refl).
Qed.

End Proofs.

(** A store that answers 429 twice and then delivers. *)
Definition twice429 (k : nat) : Outcome string (option Z) :=
  if (k <? 2)%nat then Rejected (Some 429%Z) else Fulfilled "rows"%string.

Lemma retryWithBackoff_settles_as_last_attempt_witness :
  let r := retryWithBackoff (fun e => e) twice429 3 1000 in
  attempts r = 3 /\ delays r = [1000; 2000]%Z /\
  (0 < attempts r /\
   match twice429 (attempts r - 1) with
   | Fulfilled v => result r = Returned (Some v)
   | Rejected e =>
       result r = Thrown e /\
       (rateLimited (fun e => e) e = false \/ attempts r = 3)
   end).
Proof.
  split; [reflexivity|]. split; [reflexivity|].
  apply (retryWithBackoff_settles_as_last_attempt (fun e => e) twice429 3 1000).
  lia.
Defined.

End RetryProofs.

(** ** The user settings *)

Module SettingsProofs.
Import JS Settings.

Section Proofs.
Variable stringToNumber : string -> float.

Lemma saveSetting_userId key v ok st :
  userId (saveSetting stringToNumber key v ok st) = userId st.
Proof.
  unfold saveSetting. destruct (userId st) as [uid|] eqn:Hu; [|assumption].
  destruct (updateData _ key v) as [[[c x]|]|]; [destruct ok| |]; exact Hu.
Qed.

Lemma storeList_storeUpdate uid sid c x rows :
  storeList uid (storeUpdate sid c x rows)
  = map (fun r => if String.eqb (id r) sid then setColumn c x r else r)
        (storeList uid rows).
Proof.
  unfold storeList, storeUpdate. induction rows as [|r rows IH]; [reflexivity|].
  cbn [map List.filter].
  assert (user_id (if String.eqb (id r) sid then setColumn c x r else r) = user_id r) as ->.
  { destruct (String.eqb (id r) sid); [|reflexivity]. now destruct c. }
  destruct (String.eqb (user_id r) uid); cbn [map]; now rewrite IH.
Qed.

Lemma load_found uid st c r rest :
  userId st = Some uid -> storeList uid (db st) = r :: rest ->
  settings (loadUserSettings stringToNumber true c st)
  = mkSettings
      (Boolean (0 <? toNumber stringToNumber (dark_mode r))%float)
      (orElse (daily_goal r) (Number 5))
      (Boolean false)
      (Boolean (0 <? toNumber stringToNumber (sound_enabled r))%float)
      (orElse (reset_time r) (Text "00:00")).
Proof.
  intros Hu Hl. unfold loadUserSettings. rewrite Hu. cbn [logCall db].
  now rewrite Hl.
Qed.

Lemma save_fulfilled uid st key v c x :
  userId st = Some uid -> updateData stringToNumber key v = Some (Some (c, x)) ->
  db (saveSetting stringToNumber key v true st) = storeUpdate ("settings_" +:+ uid) c x (db st).
Proof.
  intros Hu Hk. unfold saveSetting. rewrite Hu, Hk. reflexivity.
Qed.

(** A setting saved to the store is read back by the next load in its
    stored form: the two switches as booleans, the daily limit as a number
    (5 when it is zero or not a number), the reset time unless it is empty;
    [showOnboarding] is not stored and reads [false]. *)
Theorem saveSetting_read_back_by_load uid st r rest v c :
  userId st = Some uid ->
  storeList uid (db st) = r :: rest -> id r = ("settings_" +:+ uid)%string ->
  let reloaded key := settings (loadUserSettings stringToNumber true c (saveSetting stringToNumber key v true st)) in
  darkMode (reloaded "darkMode"%string) = Boolean (toBoolean v) /\
  dailyTaskLimit (reloaded "dailyTaskLimit"%string)
  = orElse (Number (toNumber stringToNumber v)) (Number 5) /\
  notifications (reloaded "notifications"%string) = Boolean (toBoolean v) /\
  resetTime (reloaded "resetTime"%string) = orElse v (Text "00:00") /\
  showOnboarding (reloaded "showOnboarding"%string) = Boolean false.
Proof.
  intros Hu Hl Hid reloaded.
  assert (Hread : forall key col x,
            updateData stringToNumber key v = Some (Some (col, x)) ->
            reloaded key
            = let r' := setColumn col x r in
              mkSettings
                (Boolean (0 <? toNumber stringToNumber (dark_mode r'))%float)
                (orElse (daily_goal r') (Number 5))
                (Boolean false)
                (Boolean (0 <? toNumber stringToNumber (sound_enabled r'))%float)
                (orElse (reset_time r') (Text "00:00"))).
  { intros key col x Hk. unfold reloaded.
    apply (load_found uid _ c _
             (map (fun r => if String.eqb (id r) ("settings_" +:+ uid)
                            then setColumn col x r else r) rest)).
    - now rewrite saveSetting_userId.
    - rewrite (save_fulfilled uid st key v col x Hu Hk), storeList_storeUpdate, Hl.
      cbn [map]. rewrite Hid, String.eqb_refl. reflexivity. }
  repeat split.
  - rewrite (Hread "darkMode"%string DarkMode _ eq_refl).
    cbn. now destruct (toBoolean v).
  - now rewrite (Hread "dailyTaskLimit"%string DailyGoal _ eq_refl).
  - rewrite (Hread "notifications"%string SoundEnabled _ eq_refl).
    cbn. now destruct (toBoolean v).
  - now rewrite (Hread "resetTime"%string ResetTime _ eq_refl).
  - unfold reloaded.
    rewrite (load_found uid _ c r rest); [reflexivity| |].
    + now rewrite saveSetting_userId.
    + unfold saveSetting. rewrite Hu. exact Hl.
Qed.

(** When the store rejects the update, or the key is not a setting, the
    settings on screen and the stored records stay as they were; only
    [showOnboarding] is changed without the store. *)
Theorem saveSetting_rejected_changes_nothing key v st :
  key <> "showOnboarding"%string ->
  settings (saveSetting stringToNumber key v false st) = settings st /\
  db (saveSetting stringToNumber key v false st) = db st /\
  onboardingShown (saveSetting stringToNumber key v false st) = onboardingShown st.
Proof.
  intros Hkey. unfold saveSetting. destruct (userId st); [|auto].
  unfold updateData.
  repeat (match goal with
          | |- context [String.eqb key ?k] =>
              destruct (String.eqb key k) eqn:?; [cbn; auto|]
          end).
  - apply String.eqb_eq in Heqb3. contradiction.
  - cbn. auto.
Qed.

(** A load never leaves the daily limit at a value that counts as false
    (zero, [NaN], an empty string, a missing column): such a stored limit
    reads as 5. *)
Theorem loadUserSettings_limit_truthy listOk createOk st :
  toBoolean (dailyTaskLimit (settings st)) = true ->
  toBoolean (dailyTaskLimit (settings (loadUserSettings stringToNumber listOk createOk st))) = true.
Proof.
  intros Hpre. unfold loadUserSettings. destruct (userId st); [|assumption].
  destruct listOk; [|reflexivity].
  cbn [logCall db]. destruct (storeList _ _) as [|r rest].
  - destruct createOk; [assumption|reflexivity].
  - cbn. unfold orElse. destruct (toBoolean (daily_goal r)) eqn:Hg; [assumption|reflexivity].
Qed.

(** A first session creates the settings record, with the defaults, and
    shows the onboarding; the next load finds that record, creates nothing
    and reads the defaults from it. *)
Theorem loadUserSettings_creates_once uid st createOk :
  userId st = Some uid -> storeList uid (db st) = [] ->
  let first := loadUserSettings stringToNumber true true st in
  let second := loadUserSettings stringToNumber true createOk first in
  onboardingShown first = true /\
  db first = db st ++ [defaultSettings uid] /\
  calls first
  = calls st ++ [UserSettingsList uid; UserSettingsCreate (defaultSettings uid)] /\
  db second = db first /\
  calls second = calls first ++ [UserSettingsList uid] /\
  settings second = defaults.
Proof.
  intros Hu Hl first second.
  assert (Hfirst : first
                   = setDb (db st ++ [defaultSettings uid])
                       (logCall (UserSettingsCreate (defaultSettings uid))
                          (setShowOnboarding true
                             (logCall (UserSettingsList uid) st)))).
  { unfold first, loadUserSettings. rewrite Hu. cbn [logCall db]. now rewrite Hl. }
  assert (Hrows : storeList uid (db first) = [defaultSettings uid]).
  { rewrite Hfirst. cbn [setDb db]. unfold storeList in *.
    rewrite List.filter_app, Hl. cbn. now rewrite String.eqb_refl. }
  assert (Hu' : userId first = Some uid) by (rewrite Hfirst; exact Hu).
  assert (Hsecond : second
                    = setSettings defaults (logCall (UserSettingsList uid) first)).
  { unfold second, loadUserSettings. rewrite Hu'. cbn [logCall db].
    rewrite Hrows. reflexivity. }
  rewrite Hsecond, Hfirst. cbn. rewrite <- app_assoc. repeat split.
Qed.

End Proofs.


(** A signed-in user whose record holds a zero limit and the dark mode. *)
Definition storedZeroLimit : State :=
  mkState (Some "u1"%string)
    (mkSettings (Boolean false) (Number 5) (Boolean true) (Boolean true)
       (Text "00:00"))
    false [] []
    [ mkRecord "settings_u1" "u1" (Number 1) (Number 0) (Number 0) (Number 1)
        (Number 0) (Text "") (Text "") (Text "UTC") ]
    [].

Definition noParse (s : string) : float := nan.

Lemma saveSetting_read_back_by_load_witness :
  let reloaded key :=
    settings (loadUserSettings noParse true true
                (saveSetting noParse key (Number 0) true storedZeroLimit)) in
  darkMode (reloaded "darkMode"%string) = Boolean false /\
  dailyTaskLimit (reloaded "dailyTaskLimit"%string) = Number 5 /\
  notifications (reloaded "notifications"%string) = Boolean false /\
  resetTime (reloaded "resetTime"%string) = Text "00:00" /\
  showOnboarding (reloaded "showOnboarding"%string) = Boolean false.
Proof.
  exact (saveSetting_read_back_by_load noParse "u1" storedZeroLimit
           _ [] (Number 0) true eq_refl eq_refl eq_refl).
Defined.

Lemma saveSetting_rejected_changes_nothing_witness :
  settings (saveSetting noParse "dailyTaskLimit" (Number 8) false storedZeroLimit)
  = settings storedZeroLimit /\
  db (saveSetting noParse "dailyTaskLimit" (Number 8) false storedZeroLimit)
  = db storedZeroLimit /\
  onboardingShown (saveSetting noParse "dailyTaskLimit" (Number 8) false storedZeroLimit)
  = onboardingShown storedZeroLimit.
Proof.
  apply (saveSetting_rejected_changes_nothing noParse "dailyTaskLimit" (Number 8)
           storedZeroLimit).
  discriminate.
Defined.

Lemma loadUserSettings_limit_truthy_witness :
  toBoolean (dailyTaskLimit (settings (loadUserSettings noParse true true storedZeroLimit)))
  = true.
Proof.
  apply (loadUserSettings_limit_truthy noParse true true storedZeroLimit).
  reflexivity.
Defined.

Definition firstSession : State :=
  mkState (Some "u2"%string)
    (mkSettings (Boolean false) (Number 5) (Boolean true) (Boolean true)
       (Text "00:00"))
    false [] [] (db storedZeroLimit) [].

Lemma loadUserSettings_creates_once_witness :
  let first := loadUserSettings noParse true true firstSession in
  let second := loadUserSettings noParse true false first in
  onboardingShown first = true /\
  db first = db firstSession ++ [defaultSettings "u2"] /\
  calls first
  = calls firstSession
    ++ [UserSettingsList "u2"; UserSettingsCreate (defaultSettings "u2")] /\
  db second = db first /\
  calls second = calls first ++ [UserSettingsList "u2"] /\
  settings second = defaults.
Proof.
  exact (loadUserSettings_creates_once noParse "u2" firstSession false
           eq_refl eq_refl).
Defined.

End SettingsProofs.

(** ** The additional tasks *)

Module AdditionalProofs.
Import JS Additional.

(** What a reload would show. *)
Definition stored (uid : string) (st : State) : list AdditionalTask :=
  storeListDay uid (dateStr st) (db st).

(** The list on screen is the one the store would answer with. *)
Definition inSync (uid : string) (st : State) : Prop :=
  userId st = Some uid /\ additionalTasks st = stored uid st.

Definition flipped (taskId : string) (c : bool) (t : AdditionalTask)
  : AdditionalTask :=
  if String.eqb (id t) taskId then setCompleted c t else t.

Lemma storeListDay_toggled uid d taskId c rows :
  storeListDay uid d (map (flipped taskId c) rows)
  = map (flipped taskId c) (storeListDay uid d rows).
Proof.
  unfold storeListDay. rewrite map_rev. f_equal.
  induction rows as [|r rows IH]; [reflexivity|].
  cbn [map List.filter].
  assert (user_id (flipped taskId c r) = user_id r /\
          date (flipped taskId c r) = date r) as [-> ->].
  { unfold flipped. now destruct (String.eqb (id r) taskId). }
  destruct (_ && _); cbn [map]; now rewrite IH.
Qed.

Lemma loadAdditionalTasks_inSync uid st :
  userId st = Some uid -> inSync uid (loadAdditionalTasks true st).
Proof.
  intros Hu. unfold loadAdditionalTasks. rewrite Hu. split; [exact Hu|reflexivity].
Qed.

(** The additional tasks on screen stay equal to what the store would list
    (latest first) when a task is added, whether or not the store accepts it,
    and when one is flipped, provided the update or else the reload after its
    failure is fulfilled. *)
Theorem additional_tasks_stay_in_sync uid st :
  inSync uid st ->
  (forall newId createOk, inSync uid (addAdditionalTask newId createOk st)) /\
  (forall taskId updateOk reloadOk,
     updateOk = true \/ reloadOk = true ->
     inSync uid (toggleAdditionalTask taskId updateOk reloadOk st)).
Proof.
  intros [Hu Hsync]. split.
  - intros newId createOk. unfold addAdditionalTask. rewrite Hu.
    destruct (trim (newAdditionalTaskTitle st)) as [|c s] eqn:Ht; [now split|].
    destruct createOk; (split; [exact Hu|]); [|exact Hsync].
    cbn. unfold stored, storeListDay, storeCreate. cbn.
    rewrite List.filter_app. cbn. rewrite !String.eqb_refl. cbn.
    rewrite rev_app_distr. cbn. f_equal. exact Hsync.
  - intros taskId updateOk reloadOk Hok. unfold toggleAdditionalTask.
    destruct (find _ (additionalTasks st)) as [task|]; [|now split].
    destruct updateOk.
    + assert (Hgoal : forall ts,
                inSync uid
                  (mkState (user st)
                     (map (flipped taskId (negb (completed task))) (additionalTasks st))
                     (newAdditionalTaskTitle st) (selectedDate st) ts
                     (map (flipped taskId (negb (completed task))) (db st))
                     (calls st ++ [AdditionalTasksUpdateCompleted taskId (negb (completed task))]))).
      { intros ts. split; [exact Hu|]. unfold stored, dateStr.
        cbn [additionalTasks db selectedDate].
        rewrite storeListDay_toggled. f_equal. exact Hsync. }
      destruct (negb (completed task)) eqn:Hc; apply Hgoal.
    + destruct Hok as [Hok|Hok]; [discriminate|]. subst reloadOk.
      apply loadAdditionalTasks_inSync. exact Hu.
Qed.

(** The new task of a fulfilled [addAdditionalTask]. *)
Definition entered (uid dateStr : string) (e : string * list N) : AdditionalTask :=
  mkTask (fst e) (trim (snd e)) false dateStr uid.

(** Typing a title and adding it, for each entry in turn, with every create
    call fulfilled. *)
Definition addAll (entries : list (string * list N)) (st : State) : State :=
  foldl (fun st e => addAdditionalTask (fst e) true
                       (setNewAdditionalTaskTitle (snd e) st))
        st entries.

Definition nonBlank (e : string * list N) : bool :=
  match trim (snd e) with [] => false | _ :: _ => true end.

(** Additional tasks have no capacity: however many there are, every
    non-blank title is added, in front of the earlier ones. *)
Theorem addAdditionalTask_unbounded uid entries : forall st,
  userId st = Some uid -> forallb nonBlank entries = true ->
  additionalTasks (addAll entries st)
  = rev (map (entered uid (dateStr st)) entries) ++ additionalTasks st /\
  length (additionalTasks (addAll entries st))
  = length entries + length (additionalTasks st).
Proof.
  assert (H : forall st, userId st = Some uid -> forallb nonBlank entries = true ->
            additionalTasks (addAll entries st)
            = rev (map (entered uid (dateStr st)) entries) ++ additionalTasks st).
  { induction entries as [|e entries IH]; intros st Hu Hnb; [reflexivity|].
    cbn [forallb] in Hnb. apply andb_true_iff in Hnb as [He Hnb].
    change (addAll (e :: entries) st)
      with (addAll entries (addAdditionalTask (fst e) true
                              (setNewAdditionalTaskTitle (snd e) st))).
    unfold nonBlank in He.
    destruct (trim (snd e)) as [|c s] eqn:Ht; [discriminate|].
    assert (Hstep : addAdditionalTask (fst e) true (setNewAdditionalTaskTitle (snd e) st)
                    = toast ToastAdditionalAdded
                        (setNewAdditionalTaskTitle []
                           (setAdditionalTasks (entered uid (dateStr st) e :: additionalTasks st)
                              (setDb (storeCreate (entered uid (dateStr st) e) (db st))
                                 (logCall (AdditionalTasksCreate (entered uid (dateStr st) e))
                                    (setNewAdditionalTaskTitle (snd e) st)))))).
    { unfold addAdditionalTask.
      change (userId (setNewAdditionalTaskTitle (snd e) st)) with (userId st).
      rewrite Hu. cbn [setNewAdditionalTaskTitle newAdditionalTaskTitle].
      rewrite Ht. unfold entered. rewrite Ht. reflexivity. }
    rewrite Hstep. rewrite IH; [|exact Hu|exact Hnb].
    cbn [map rev]. rewrite <- app_assoc. reflexivity. }
  intros st Hu Hnb. split; [now apply H|].
  rewrite H by assumption. rewrite length_app, length_rev, length_map. reflexivity.
Qed.

Definition noExtras : State :=
  mkState (Some "u1"%string) [] (utf16 " buy milk ") 20759 [] [] [].

Definition sevenEntries : list (string * list N) :=
  map (fun k => ("additional_" +:+ pad2 (Z.of_nat k), utf16 "errand"))
      (seq 1 7).

Lemma additional_tasks_stay_in_sync_witness :
  inSync "u1" noExtras /\
  inSync "u1" (addAdditionalTask "additional_1" true noExtras) /\
  inSync "u1"
    (toggleAdditionalTask "additional_1" false true
       (addAdditionalTask "additional_1" true noExtras)).
Proof.
  assert (H0 : inSync "u1" noExtras) by (split; reflexivity).
  split; [exact H0|]. split.
  - exact (proj1 (additional_tasks_stay_in_sync "u1" noExtras H0) "additional_1"%string true).
  - apply (additional_tasks_stay_in_sync "u1"
             (addAdditionalTask "additional_1" true noExtras)).
    + split; reflexivity.
    + right. reflexivity.
Defined.

Lemma addAdditionalTask_unbounded_witness :
  additionalTasks (addAll sevenEntries noExtras)
  = rev (map (entered "u1" (dateStr noExtras)) sevenEntries)
    ++ additionalTasks noExtras /\
  length (additionalTasks (addAll sevenEntries noExtras))
  = length sevenEntries + length (additionalTasks noExtras).
Proof.
  apply (addAdditionalTask_unbounded "u1" sevenEntries noExtras); reflexivity.
Defined.

End AdditionalProofs.

(** ** The onboarding wizard and its handler *)

Module WizardProofs.
Import JS OnboardingWizard.

Definition isUndefined (x : Slot) : bool :=
  match x with Undefined => true | _ => false end.

Lemma filterTrimmed_throws a :
  filterTrimmed a = Throw TypeError <-> existsb isUndefined a = true.
Proof.
  induction a as [|x a IH]; cbn; [split; discriminate|].
  destruct x; cbn.
  - exact IH.
  - split; reflexivity.
  - destruct (filterTrimmed a) as [kept|[]].
    + split; [discriminate|]. intros H. apply IH in H. discriminate.
    + split; [intros _; now apply IH|reflexivity].
Qed.

(** The priorities after typing [v] into field [i] of the untouched step. *)
Definition typedAt (i : nat) (v : list N) : State :=
  changePriority i v (mkState 4 (data initial)).

Lemma typedAt_priorities i v :
  priorities (data (typedAt i v)) = replicate i Empty ++ [Text v].
Proof.
  unfold typedAt, changePriority, assignAt. cbn.
  now rewrite Nat.sub_0_r.
Qed.

Lemma canProceed_priorities st :
  currentStep st = 4 ->
  canProceed st
  = match filterTrimmed (priorities (data st)) with
    | Normal kept => Normal (1 <=? length kept)%nat
    | Throw e => Throw e
    end.
Proof. intros H. unfold canProceed. now rewrite H. Qed.

Lemma changePriority_priorities j w st :
  priorities (data (changePriority j w st))
  = assignAt j w (spread (priorities (data st))).
Proof. reflexivity. Qed.

Lemma existsb_replicate_undefined n :
  existsb isUndefined (replicate n Undefined) = (0 <? n)%nat.
Proof. destruct n; reflexivity. Qed.

Ltac decide_bounds :=
  repeat match goal with
         | |- context [(0 <? ?n)%nat] => destruct (Nat.ltb_spec 0 n)
         end;
  cbn; split; intros; try lia; try discriminate; try reflexivity.

(** On the priorities step, a first keystroke in a field other than the
    first leaves empty slots before it, which the render accepts; the next
    keystroke copies them as [undefined], and [canProceed] then throws in the
    render, unless the only slot skipped is the first field and the
    keystroke fills it. *)
Theorem canProceed_throws_after_skipped_field i j v w :
  canProceed (typedAt i v)
  = Normal (match trim v with [] => false | _ :: _ => true end) /\
  (canProceed (changePriority j w (typedAt i v)) = Throw TypeError
   <-> 2 <= i \/ (i = 1 /\ j <> 0)).
Proof.
  split.
  - rewrite canProceed_priorities by reflexivity. rewrite typedAt_priorities.
    induction i as [|i IH]; cbn.
    + now destruct (trim v).
    + exact IH.
  - rewrite canProceed_priorities by reflexivity.
    rewrite changePriority_priorities, typedAt_priorities.
    set (a := assignAt j w (spread (replicate i Empty ++ [Text v]))).
    assert (Hthrow : existsb isUndefined a = true <-> 2 <= i \/ (i = 1 /\ j <> 0)).
    { assert (Hspread : spread (replicate i Empty ++ [Text v])
                          = replicate i Undefined ++ [Text v]).
      { unfold spread. rewrite map_app. f_equal.
        clear. induction i; cbn; [reflexivity|now f_equal]. }
      unfold a, assignAt. rewrite Hspread, length_app, length_replicate.
      cbn [length].
      destruct (j <? i + 1)%nat eqn:Hj.
      - apply Nat.ltb_lt in Hj.
        destruct (Nat.eq_dec j i) as [->|Hne].
        + rewrite insert_app_r_alt by (rewrite length_replicate; lia).
          rewrite length_replicate, Nat.sub_diag. cbn [insert list_insert].
          rewrite existsb_app, existsb_replicate_undefined. cbn [existsb isUndefined].
          decide_bounds.
        + rewrite insert_app_l by (rewrite length_replicate; lia).
          rewrite existsb_app. cbn [existsb isUndefined]. rewrite !orb_false_r.
          assert (Hins : <[j := Text w]> (replicate i Undefined)
                         = replicate j Undefined ++ Text w :: replicate (i - S j) Undefined).
          { assert (Hlt : j < i) by lia. clear -Hlt. revert j Hlt.
            induction i as [|i IH]; intros j Hlt; [lia|].
            destruct j; cbn; [now rewrite Nat.sub_0_r|].
            f_equal. apply IH. lia. }
          rewrite Hins, existsb_app. cbn.
          rewrite !existsb_replicate_undefined. decide_bounds.
      - apply Nat.ltb_ge in Hj.
        rewrite !existsb_app. cbn [existsb isUndefined].
        rewrite existsb_replicate_undefined.
        assert (Hempty : existsb isUndefined (replicate (j - (i + 1)) Empty) = false).
        { clear. induction (j - (i + 1)); [reflexivity|exact IHn]. }
        rewrite Hempty. decide_bounds. }
    rewrite <- Hthrow, <- filterTrimmed_throws.
    destruct (filterTrimmed a) as [kept|[]]; split; try discriminate; reflexivity.
Qed.

End WizardProofs.

Module OnboardingProofs.
Import JS OnboardingWizard Onboarding.

(** The positions the loop creates a task for, from iteration [i] on, with
    the text entered there. *)
Fixpoint plannedFrom (bound : Z) (i : nat) (rest : list Slot)
  : list (nat * list N) :=
  match rest with
  | [] => []
  | priority :: rest' =>
      if (Z.of_nat i <? bound)%Z then
        match priority with
        | Text s =>
            if filled priority then (i, s) :: plannedFrom bound (S i) rest'
            else plannedFrom bound (S i) rest'
        | Empty | Undefined => plannedFrom bound (S i) rest'
        end
      else []
  end.

Definition taskOf (env : Env) (uid : string) (e : nat * list N) : App.Task :=
  newTask env uid (fst e) (snd e).

Lemma createInitialTasks_planned env uid bound rest : forall i a,
  let a' := createInitialTasks env uid bound i rest a in
  App.calls a'
  = App.calls a ++ map (fun e => App.TasksCreate (taskOf env uid e))
                       (plannedFrom bound i rest) /\
  App.db a'
  = App.db a ++ map (taskOf env uid)
                    (List.filter (fun e => createOk env (fst e))
                       (plannedFrom bound i rest)) /\
  App.tasks a' = App.tasks a /\ App.user a' = App.user a.
Proof.
  induction rest as [|p rest IH]; intros i a; cbn zeta.
  - cbn. now rewrite !app_nil_r.
  - cbn [createInitialTasks plannedFrom].
    destruct (Z.of_nat i <? bound)%Z; [|cbn; now rewrite !app_nil_r].
    destruct p as [| |s]; [apply IH|apply IH|].
    destruct (filled (Text s)); [|apply IH].
    match goal with |- context [createInitialTasks env uid bound (S i) rest ?x] =>
      destruct (IH (S i) x) as (Hc & Hd & Ht & Hu)
    end.
    rewrite Hc, Hd, Ht, Hu. cbn [map List.filter fst].
    destruct (createOk env i); cbn; rewrite <- !app_assoc; auto.
Qed.

Lemma plannedFrom_In bound rest : forall i k s,
  In (k, s) (plannedFrom bound i rest)
  <-> (i <= k /\ (Z.of_nat k < bound)%Z /\
       rest !! (k - i) = Some (Text s) /\ filled (Text s) = true).
Proof.
  induction rest as [|p rest IH]; intros i k s.
  - cbn. split; [contradiction|]. intros (_ & _ & H & _). discriminate.
  - cbn [plannedFrom].
    assert (Htail : forall l,
              (In (k, s) l <-> (S i <= k /\ (Z.of_nat k < bound)%Z /\
                                rest !! (k - S i) = Some (Text s) /\
                                filled (Text s) = true)) ->
              (Z.of_nat i < bound)%Z ->
              (p = Text s -> filled (Text s) = false \/ k <> i) ->
              (In (k, s) l <-> (i <= k /\ (Z.of_nat k < bound)%Z /\
                                (p :: rest) !! (k - i) = Some (Text s) /\
                                filled (Text s) = true))).
    { intros l Hl Hi Hp. rewrite Hl. split.
      - intros (Hk & Hb & Hr & Hf). repeat split; try lia; try assumption.
        replace (k - i) with (S (k - S i)) by lia. exact Hr.
      - intros (Hk & Hb & Hr & Hf).
        destruct (Nat.eq_dec k i) as [->|Hne].
        + rewrite Nat.sub_diag in Hr. cbn in Hr. injection Hr as Hr.
          destruct (Hp Hr) as [Hp'|Hp']; [congruence|contradiction].
        + repeat split; try lia; try assumption.
          replace (k - i) with (S (k - S i)) in Hr by lia. exact Hr. }
    destruct (Z.of_nat i <? bound)%Z eqn:Hi.
    + apply Z.ltb_lt in Hi. destruct p as [| |s0].
      * apply Htail; [apply IH|exact Hi|discriminate].
      * apply Htail; [apply IH|exact Hi|discriminate].
      * destruct (filled (Text s0)) eqn:Hf0.
        -- cbn [In]. split.
           ++ intros [[= <- <-]|Hin].
              ** rewrite Nat.sub_diag. repeat split; try lia; assumption.
              ** apply (IH (S i)) in Hin as (Hk & Hb & Hr & Hf).
                 repeat split; try lia; try assumption.
                 replace (k - i) with (S (k - S i)) by lia. exact Hr.
           ++ intros (Hk & Hb & Hr & Hf).
              destruct (Nat.eq_dec k i) as [->|Hne].
              ** rewrite Nat.sub_diag in Hr. cbn in Hr. injection Hr as ->. now left.
              ** right. apply (IH (S i)). repeat split; try lia; try assumption.
                 replace (k - i) with (S (k - S i)) in Hr by lia. exact Hr.
        -- apply Htail; [apply IH|exact Hi|]. intros [= ->]. now left.
    + apply Z.ltb_ge in Hi. cbn. split; [contradiction|].
      intros (Hk & Hb & _). lia.
Qed.

Lemma plannedFrom_length bound rest : forall i,
  (Z.of_nat (length (plannedFrom bound i rest)) <= Z.max 0 (bound - Z.of_nat i))%Z.
Proof.
  induction rest as [|p rest IH]; intros i; cbn [plannedFrom]; [cbn; lia|].
  destruct (Z.of_nat i <? bound)%Z eqn:Hi; [|cbn; lia].
  apply Z.ltb_lt in Hi. specialize (IH (S i)).
  destruct p as [| |s]; [| |destruct (filled (Text s))]; cbn [length]; lia.
Qed.

(** The task the loop creates in iteration [i], if any. *)
Definition createdAt (env : Env) (uid : string) (data : OnboardingData) (i : nat)
  : option App.Task :=
  match priorities data !! i with
  | Some (Text s) => if filled (Text s) then Some (newTask env uid i s) else None
  | _ => None
  end.

(** The positions the loop runs through. *)
Definition loopPositions (data : OnboardingData) : list nat :=
  seq 0 (Z.to_nat (Z.min (Z.of_nat (length (priorities data))) (dailyCapacity data))).

Lemma plannedFrom_positions bound prios : forall rest i,
  rest = drop i prios ->
  plannedFrom bound i rest
  = omap (fun k => match prios !! k with
                   | Some (Text s) => if filled (Text s) then Some (k, s) else None
                   | _ => None
                   end)
         (seq i (Z.to_nat (Z.min (Z.of_nat (length prios)) bound) - i)).
Proof.
  induction rest as [|p rest IH]; intros i Hrest.
  - assert (Hlen : length prios <= i).
    { apply (f_equal length) in Hrest. rewrite length_drop in Hrest.
      cbn in Hrest. lia. }
    replace (Z.to_nat (Z.min (Z.of_nat (length prios)) bound) - i) with 0 by lia.
    reflexivity.
  - assert (Hp : prios !! i = Some p).
    { rewrite <- (Nat.add_0_r i), <- lookup_drop, <- Hrest. reflexivity. }
    assert (Hrest' : rest = drop (S i) prios).
    { rewrite (drop_S _ _ _ Hp) in Hrest. now injection Hrest. }
    pose proof (lookup_lt_Some _ _ _ Hp) as Hlt.
    cbn [plannedFrom]. destruct (Z.of_nat i <? bound)%Z eqn:Hi.
    + apply Z.ltb_lt in Hi.
      replace (Z.to_nat (Z.min (Z.of_nat (length prios)) bound) - i)
        with (S (Z.to_nat (Z.min (Z.of_nat (length prios)) bound) - S i)) by lia.
      cbn [seq omap list_omap]. rewrite Hp, <- (IH (S i) Hrest').
      destruct p as [| |s]; [reflexivity|reflexivity|].
      destruct (filled (Text s)); reflexivity.
    + apply Z.ltb_ge in Hi.
      replace (Z.to_nat (Z.min (Z.of_nat (length prios)) bound) - i) with 0 by lia.
      reflexivity.
Qed.

Lemma createdAt_priority env uid data i t :
  createdAt env uid data i = Some t -> App.priority t = (Z.of_nat i + 1)%Z.
Proof.
  unfold createdAt. destruct (priorities data !! i) as [[| |s]|]; try discriminate.
  destruct (filled (Text s)); [|discriminate]. now intros [= <-].
Qed.

Lemma created_above env uid data n : forall a t,
  In t (omap (createdAt env uid data) (seq a n)) ->
  (Z.of_nat a < App.priority t)%Z.
Proof.
  induction n as [|n IH]; intros a t; cbn [seq omap list_omap]; [contradiction|].
  destruct (createdAt env uid data a) as [t0|] eqn:E.
  - intros [<-|Hin].
    + rewrite (createdAt_priority _ _ _ _ _ E). lia.
    + specialize (IH (S a) t Hin). lia.
  - intros Hin. specialize (IH (S a) t Hin). lia.
Qed.

Lemma created_in_order env uid data n : forall a j k tj tk,
  j < k ->
  omap (createdAt env uid data) (seq a n) !! j = Some tj ->
  omap (createdAt env uid data) (seq a n) !! k = Some tk ->
  (App.priority tj < App.priority tk)%Z.
Proof.
  induction n as [|n IH]; intros a j k tj tk Hjk; cbn [seq omap list_omap];
    [discriminate|].
  destruct (createdAt env uid data a) as [t0|] eqn:E; [|apply (IH (S a)); exact Hjk].
  destruct k as [|k]; [lia|]. destruct j as [|j]; cbn [lookup list_lookup].
  - intros [= <-] Hk. rewrite (createdAt_priority _ _ _ _ _ E).
    apply list_elem_of_lookup_2, list_elem_of_In in Hk.
    pose proof (created_above _ _ _ _ _ _ Hk). lia.
  - apply (IH (S a)). lia.
Qed.

Section Proofs.
Variable stringToNumber : string -> float.

(** With a user signed in the handler hides the wizard and runs through the
    first [min(priorities.length, dailyCapacity)] positions in ascending
    order, issuing exactly one create call at each position that holds a
    filled priority and none at the others: the calls it adds to the log are
    the tasks [createdAt] of the positions, in that order, the task of index
    [i] with priority [i + 1], so their priorities strictly increase; never
    more calls than the capacity, and no change to the list on screen. *)
Theorem handleOnboardingComplete_creates_by_position env updateOk data st uid :
  App.user (app st) = Some uid ->
  exists st' created,
    handleOnboardingComplete stringToNumber env updateOk data st = Normal st' /\
    created = omap (createdAt env uid data) (loopPositions data) /\
    App.calls (app st') = App.calls (app st) ++ map App.TasksCreate created /\
    (forall j k tj tk,
       j < k -> created !! j = Some tj -> created !! k = Some tk ->
       (App.priority tj < App.priority tk)%Z) /\
    (forall t, In t created <->
       exists i s, priorities data !! i = Some (Text s) /\
                   filled (Text s) = true /\
                   (Z.of_nat i < dailyCapacity data)%Z /\
                   t = newTask env uid i s) /\
    (Z.of_nat (length created) <= Z.max 0 (dailyCapacity data))%Z /\
    App.tasks (app st') = App.tasks (app st) /\
    Settings.onboardingShown (prefs st') = false.
Proof.
  intros Hu. unfold handleOnboardingComplete. rewrite Hu.
  set (bound := Z.min (Z.of_nat (length (priorities data))) (dailyCapacity data)).
  assert (Hclosed : map (taskOf env uid) (plannedFrom bound 0 (priorities data))
                    = omap (createdAt env uid data) (loopPositions data)).
  { rewrite (plannedFrom_positions bound (priorities data) (priorities data) 0 eq_refl).
    unfold loopPositions. fold bound.
    replace (Z.to_nat (Z.min (Z.of_nat (length (priorities data))) bound) - 0)
      with (Z.to_nat bound) by (unfold bound; lia).
    generalize (seq 0 (Z.to_nat bound)). intros l.
    induction l as [|k l IH]; [reflexivity|]. cbn [omap list_omap].
    unfold createdAt at 1.
    destruct (priorities data !! k) as [[| |s]|]; try exact IH.
    destruct (filled (Text s)); [|exact IH].
    cbn [map]. now rewrite IH. }
  eexists _, (map (taskOf env uid) (plannedFrom bound 0 (priorities data))).
  split; [reflexivity|]. cbn [app prefs].
  destruct (createInitialTasks_planned env uid bound (priorities data) 0 (app st))
    as (Hc & _ & Ht & _).
  split; [exact Hclosed|].
  split; [now rewrite Hc, map_map|]. split; [|split; [|split; [|split]]].
  - rewrite Hclosed. unfold loopPositions. intros j k tj tk.
    apply created_in_order.
  - intros t. rewrite in_map_iff. split.
    + intros ([k s] & <- & Hin). apply plannedFrom_In in Hin as (_ & Hb & Hr & Hf).
      rewrite Nat.sub_0_r in Hr. exists k, s. repeat split; try assumption.
      unfold bound in Hb. lia.
    + intros (i & s & Hr & Hf & Hb & ->). exists (i, s). split; [reflexivity|].
      apply plannedFrom_In. rewrite Nat.sub_0_r. repeat split; try lia; try assumption.
      apply lookup_lt_Some in Hr. unfold bound. lia.
  - rewrite length_map. pose proof (plannedFrom_length bound (priorities data) 0).
    unfold bound in *. lia.
  - exact Ht.
  - unfold Settings.saveSetting. cbn.
    destruct (Settings.userId _); [|reflexivity].
    destruct updateOk; reflexivity.
Qed.

End Proofs.

(** When every create call is fulfilled, a priority left blank before a
    filled one leaves a hole in the priorities of the tasks created: the
    filled one gets its position, the blank position is given to no task. *)
Theorem createInitialTasks_blank_leaves_gap env uid cap prios a i j s :
  (forall k, createOk env k = true) ->
  j < i -> (Z.of_nat i < cap)%Z ->
  (exists p, prios !! j = Some p /\ filled p = false) ->
  prios !! i = Some (Text s) -> filled (Text s) = true ->
  let a' := createInitialTasks env uid
              (Z.min (Z.of_nat (length prios)) cap) 0 prios a in
  let created := drop (length (App.db a)) (App.db a') in
  In (Z.of_nat i + 1)%Z (map App.priority created) /\
  existsb (Z.eqb (Z.of_nat j + 1)) (map App.priority created) = false.
Proof.
  intros Hok Hji Hcap (p & Hj & Hblank) Hi Hf. cbv zeta.
  set (bound := Z.min (Z.of_nat (length prios)) cap).
  destruct (createInitialTasks_planned env uid bound prios 0 a) as (_ & Hd & _).
  cbv zeta in Hd. rewrite Hd, drop_app_length.
  assert (Hall : List.filter (fun e => createOk env (fst e)) (plannedFrom bound 0 prios)
                 = plannedFrom bound 0 prios).
  { apply forallb_filter_id. apply forallb_forall. intros e _. apply Hok. }
  rewrite Hall, map_map. split.
  - apply in_map_iff. exists (i, s). split; [reflexivity|].
    apply plannedFrom_In. rewrite Nat.sub_0_r. repeat split; try lia; try assumption.
    apply lookup_lt_Some in Hi. unfold bound. lia.
  - destruct (existsb _ _) eqn:E; [exfalso|reflexivity].
    apply existsb_exists in E as (q & Hq & Heq). apply Z.eqb_eq in Heq. subst q.
    apply in_map_iff in Hq as ([k s'] & Hk & Hin). cbn in Hk.
    assert (k = j) as -> by lia.
    apply plannedFrom_In in Hin as (_ & _ & Hr & Hf').
    rewrite Nat.sub_0_r, Hj in Hr. injection Hr as ->. congruence.
Qed.

(** What the wizard hands over when only its third priority was filled
    in, by one paste. *)
Definition thirdOnly : OnboardingData :=
  mkData (utf16 "Ana") ["focus"%string] 5 "morning" (utf16 "family")
    [Empty; Empty; Text (utf16 " Call mom ")].

Definition steady : Env :=
  mkEnv (fun i => "task_1793600000000_" +:+ pad2 (Z.of_nat i))
        (fun _ => 20759%Z) (fun _ => true).

Definition firstVisit : State :=
  mkState
    (Settings.mkState (Some "u1"%string) Settings.defaults true [] [] [] [])
    (App.mkState (Some "u1"%string) [] [] false 20759 0 [] 5 [] [] [])
    [].

Lemma handleOnboardingComplete_creates_by_position_witness :
  exists st' created,
    handleOnboardingComplete (fun _ => nan) steady true thirdOnly firstVisit
    = Normal st' /\
    created = omap (createdAt steady "u1" thirdOnly) (loopPositions thirdOnly) /\
    App.calls (app st')
    = App.calls (app firstVisit) ++ map App.TasksCreate created /\
    (forall j k tj tk,
       j < k -> created !! j = Some tj -> created !! k = Some tk ->
       (App.priority tj < App.priority tk)%Z) /\
    (forall t, In t created <->
       exists i s, priorities thirdOnly !! i = Some (Text s) /\
                   filled (Text s) = true /\
                   (Z.of_nat i < dailyCapacity thirdOnly)%Z /\
                   t = newTask steady "u1" i s) /\
    (Z.of_nat (length created) <= Z.max 0 (dailyCapacity thirdOnly))%Z /\
    App.tasks (app st') = App.tasks (app firstVisit) /\
    Settings.onboardingShown (prefs st') = false.
Proof.
  exact (handleOnboardingComplete_creates_by_position (fun _ => nan) steady true
           thirdOnly firstVisit "u1" eq_refl).
Defined.

(** Five priorities of which the second is blank, with a capacity of 4:
    the handler creates the first, the third and the fourth, in that
    order. *)
Definition fiveEntered : OnboardingData :=
  mkData (utf16 "Ana") ["focus"%string] 4 "morning" (utf16 "family")
    [Text (utf16 "Write"); Text (utf16 "  "); Text (utf16 "Run");
     Text (utf16 "Read"); Text (utf16 "Call")].

Example fiveEntered_created :
  map (fun t => (App.priority t, App.title t))
      (omap (createdAt steady "u1" fiveEntered) (loopPositions fiveEntered))
  = [(1%Z, utf16 "Write"); (3%Z, utf16 "Run"); (4%Z, utf16 "Read")].
Proof. vm_compute. reflexivity. Qed.

Lemma createInitialTasks_blank_leaves_gap_witness :
  let a' := createInitialTasks steady "u1"
              (Z.min (Z.of_nat (length (priorities thirdOnly))) 5) 0
              (priorities thirdOnly) (app firstVisit) in
  let created := drop (length (App.db (app firstVisit))) (App.db a') in
  map App.priority created = [3%Z] /\
  In (Z.of_nat 2 + 1)%Z (map App.priority created) /\
  existsb (Z.eqb (Z.of_nat 0 + 1)) (map App.priority created) = false.
Proof.
  split; [reflexivity|].
  apply (createInitialTasks_blank_leaves_gap steady "u1" 5 (priorities thirdOnly)
           (app firstVisit) 2 0 (utf16 " Call mom ")).
  - reflexivity.
  - lia.
  - lia.
  - exists Empty. split; reflexivity.
  - reflexivity.
  - reflexivity.
Defined.

End OnboardingProofs.

(** ** The completion overlay *)

Module CompletionProofs.
Import MagicalCompletion.

(** The celebration is bounded whatever the streak: at most three bursts of
    at most 300 particles, the last scheduled 400 ms in, long before the
    overlay hides; from a streak of zero on there is at least one burst of at
    least 100 particles, and from 20 days on the celebration is at its
    largest. *)
Theorem confetti_bounded (streak : Z) :
  length (bursts streak) <= 3 /\
  Forall (fun b => (0 <= fst b <= 400 /\ fst b < autoHide /\ snd b <= 300)%Z)
         (bursts streak) /\
  ((0 <= streak)%Z ->
   1 <= length (bursts streak) /\ (100 <= particleCount streak)%Z) /\
  ((20 <= streak)%Z ->
   length (bursts streak) = 3 /\ particleCount streak = 300%Z).
Proof.
  unfold bursts, burstCount, particleCount, autoHide.
  rewrite length_map, length_seq. repeat split.
  - lia.
  - apply List.Forall_forall. intros b Hb. apply in_map_iff in Hb as (i & <- & Hi).
    apply in_seq in Hi. cbn [fst snd]. lia.
  - assert (0 <= streak / 5)%Z by (apply Z.div_pos; lia). lia.
  - lia.
  - assert (4 <= streak / 5)%Z by (apply Z.div_le_lower_bound; lia). lia.
  - lia.
Qed.

(** The emoji shown above the message is the one the message starts with,
    at every streak: the two threshold ladders agree. *)
Theorem streak_message_starts_with_emoji (streak : Z) :
  String.prefix (getStreakEmoji streak ++ " ") (getStreakMessage streak) = true.
Proof.
  unfold getStreakEmoji, getStreakMessage.
  repeat match goal with
         | |- context [(?a <=? streak)%Z] => destruct (a <=? streak)%Z
         end; reflexivity.
Qed.

End CompletionProofs.

(** ** The idle detection *)

Module IdleProofs.
Import JS IdleDetection.

(** The rounded quotient against the runtime's [Math.round] of the
    binary64 quotient. *)
Example minutesBetween_29999 :
  mathRound (ofZ 29999 / 60000) = ofZ (minutesBetween 0 29999).
Proof. reflexivity. Qed.

Example minutesBetween_30000 :
  mathRound (ofZ 30000 / 60000) = ofZ (minutesBetween 0 30000).
Proof. reflexivity. Qed.

Example minutesBetween_89999 :
  mathRound (ofZ 89999 / 60000) = ofZ (minutesBetween 1000 90999).
Proof. reflexivity. Qed.

Example minutesBetween_week :
  mathRound (ofZ 604830000 / 60000) = ofZ (minutesBetween 0 604830000).
Proof. reflexivity. Qed.

Lemma minutesBetween_pos startTime endTime :
  (0 <? minutesBetween startTime endTime)%Z = true
  <-> (30000 <= endTime - startTime)%Z.
Proof.
  unfold minutesBetween. rewrite Z.ltb_lt.
  change (2 * (1000 * 60))%Z with 120000%Z. change (1000 * 60)%Z with 60000%Z.
  split; intros H.
  - destruct (Z_lt_le_dec (endTime - startTime) 30000) as [Hlt|]; [exfalso|assumption].
    assert ((2 * (endTime - startTime) + 60000) / 120000 <= 0)%Z; [|lia].
    assert ((2 * (endTime - startTime) + 60000) / 120000 < 1)%Z; [|lia].
    apply Z.div_lt_upper_bound; lia.
  - assert (1 <= (2 * (endTime - startTime) + 60000) / 120000)%Z; [|lia].
    apply Z.div_le_lower_bound; lia.
Qed.

(** [logIdleSession] issues its create call exactly when a user is signed
    in, an idle start is known and at least 30 seconds have passed since;
    the minutes of a session it stores are at least 1 and within half a
    minute of the time that passed. *)
Theorem logIdleSession_half_minute p env st :
  ((exists record,
      calls (logIdleSession p env st) = calls st ++ [IdleSessionsCreate record])
   <-> exists uid start,
         signedInUser p = Some uid /\ idleStart st = Some start /\
         (30000 <= now env - start)%Z) /\
  (calls (logIdleSession p env st) = calls st \/
   exists record,
     calls (logIdleSession p env st) = calls st ++ [IdleSessionsCreate record] /\
     db (logIdleSession p env st) = (if createOk env then db st ++ [record] else db st) /\
     (1 <= durationMinutes record /\
      - 30000 < 60000 * durationMinutes record - (endTime record - startTime record)
        <= 30000)%Z).
Proof.
  assert (Hnot : forall record, calls st = calls st ++ [IdleSessionsCreate record] -> False).
  { intros record Heq. apply (f_equal (@length _)) in Heq.
    rewrite length_app in Heq. cbn in Heq. lia. }
  unfold logIdleSession.
  destruct (signedInUser p) as [uid|] eqn:Hu.
  2:{ split; [|now left]. split.
      - intros [record Heq]. now apply Hnot in Heq.
      - intros (? & ? & ? & _). discriminate. }
  destruct (idleStart st) as [start|] eqn:Hs.
  2:{ split; [|now left]. split.
      - intros [record Heq]. now apply Hnot in Heq.
      - intros (? & ? & _ & ? & _). discriminate. }
  destruct (0 <? minutesBetween start (now env))%Z eqn:Hm.
  - apply minutesBetween_pos in Hm. split.
    + split; [intros _; now exists uid, start|].
      intros _. eexists. reflexivity.
    + right. eexists. split; [reflexivity|]. split; [reflexivity|]. cbn.
      unfold minutesBetween.
      change (2 * (1000 * 60))%Z with 120000%Z. change (1000 * 60)%Z with 60000%Z.
      pose proof (Z.div_mod (2 * (now env - start) + 60000) 120000 ltac:(lia)).
      pose proof (Z.mod_pos_bound (2 * (now env - start) + 60000) 120000 ltac:(lia)).
      assert (1 <= (2 * (now env - start) + 60000) / 120000)%Z
        by (apply Z.div_le_lower_bound; lia).
      lia.
  - split; [|now left]. split.
    + intros [record Heq]. now apply Hnot in Heq.
    + intros (uid' & start' & _ & [= <-] & Hge).
      apply minutesBetween_pos in Hge. congruence.
Qed.

(** A component at rest: not idle, its message hidden, no idle start, and
    a timeout pending only while detection is enabled. *)
Definition settled (c : Rendered * State) : Prop :=
  idle (fst c) = false /\ isIdle (snd c) = false /\
  showIdleMessage (snd c) = false /\ idleStart (snd c) = None /\
  (isEnabled (props (fst c)) = false -> idleTimer (snd c) = None).

(** The effect of a step reads the clock less than 30 seconds after its
    handler. *)
Definition prompt (envs : Env * Env * Env) : bool :=
  (now (snd (fst envs)) - now (fst (fst envs)) <? 30000)%Z.

Lemma logIdleSession_no_start p env st :
  idleStart st = None -> logIdleSession p env st = st.
Proof. intros H. unfold logIdleSession. rewrite H. now destruct (signedInUser p). Qed.

Lemma depsChanged_false r0 r1 :
  depsChanged r0 r1 = false ->
  isEnabled (props r0) = isEnabled (props r1) /\ idle r0 = idle r1.
Proof.
  unfold depsChanged. intros H.
  apply orb_false_iff in H as [H _]. apply orb_false_iff in H as [H1 H2].
  apply negb_false_iff, Bool.eqb_prop in H1.
  apply negb_false_iff, Bool.eqb_prop in H2. auto.
Qed.

Lemma depsChanged_idle r0 r1 :
  idle r0 = negb (idle r1) -> depsChanged r0 r1 = true.
Proof.
  unfold depsChanged. intros ->.
  destruct (idle r1); cbn [negb Bool.eqb]; rewrite orb_true_r; reflexivity.
Qed.

(** A state that is not idle. *)
Definition quiet (st : State) : Prop :=
  isIdle st = false /\ showIdleMessage st = false /\ idleStart st = None.

(** A pass of the effect between two renders that are not idle. *)
Lemma pass_quiet r0 r1 env st :
  idle r0 = false -> idle r1 = false -> quiet st ->
  (isEnabled (props r0) = false -> idleTimer st = None) ->
  quiet (activityEffect r0 r1 env st) /\
  db (activityEffect r0 r1 env st) = db st /\
  calls (activityEffect r0 r1 env st) = calls st /\
  (isEnabled (props r1) = false -> idleTimer (activityEffect r0 r1 env st) = None).
Proof.
  intros H0 H1 (Hi & Hs & Hst) Ht. unfold activityEffect.
  destruct (depsChanged r0 r1) eqn:Hd.
  - unfold body, cleanup, resetIdleTimer. rewrite H0, H1.
    destruct (isEnabled (props r0)) eqn:E0, (isEnabled (props r1)) eqn:E1;
      cbn [isIdle showIdleMessage idleStart idleTimer db calls];
      unfold quiet; cbn [isIdle showIdleMessage idleStart idleTimer db calls];
      repeat split; auto; discriminate.
  - apply depsChanged_false in Hd as [He _]. rewrite <- He.
    repeat split; auto.
Qed.

(** The pass that follows the render in which the component was idle. *)
Lemma pass_after_idle p env env' st :
  isEnabled p = true -> isIdle st = true ->
  let st2 := activityEffect (mkRendered p false) (mkRendered p true) env st in
  let st3 := activityEffect (mkRendered p true) (mkRendered p (isIdle st2)) env' st2 in
  quiet st3 /\ isIdle st2 = false /\
  db st3 = db (logIdleSession p env st) /\
  calls st3 = calls (logIdleSession p env st).
Proof.
  intros He Hi. cbv zeta.
  assert (H2 : activityEffect (mkRendered p false) (mkRendered p true) env st
               = let st := mkState (isIdle st) (idleTime st) (showIdleMessage st) None
                             (idleStart st) (now env) (db st) (calls st) in
                 let st := logIdleSession p env st in
                 mkState false 0 false (Some (now env + IDLE_THRESHOLD)%Z) None
                   (lastActivity st) (db st) (calls st)).
  { unfold activityEffect. rewrite depsChanged_idle by reflexivity.
    unfold body, cleanup, resetIdleTimer. cbn [props idle]. rewrite He.
    reflexivity. }
  rewrite H2. cbn [isIdle]. unfold activityEffect.
  rewrite depsChanged_idle by reflexivity.
  unfold body, cleanup, resetIdleTimer. cbn [props idle]. rewrite He.
  rewrite logIdleSession_no_start by reflexivity.
  unfold quiet. cbn [isIdle showIdleMessage idleStart db calls].
  assert (Hlog : forall st', db (logIdleSession p env st') = db (logIdleSession p env st')) by reflexivity.
  repeat split; unfold logIdleSession; cbn [idleStart db calls isIdle idleTime
    showIdleMessage idleTimer lastActivity];
    destruct (signedInUser p), (idleStart st); try reflexivity;
    destruct (0 <? _)%Z; reflexivity.
Qed.

Lemma step_settled e env0 env1 env2 c :
  settled c ->
  settled (step e env0 env1 env2 c) /\
  ((now env1 - now env0 < 30000)%Z ->
   db (snd (step e env0 env1 env2 c)) = db (snd c) /\
   calls (snd (step e env0 env1 env2 c)) = calls (snd c)).
Proof.
  destruct c as [[p i] st]. unfold settled. cbn [fst snd props idle].
  intros (-> & Hidle & Hshow & Hstart & Htimer).
  (* a handler that leaves the component quiet *)
  assert (Hquiet : forall st1,
            handle (mkRendered p false) e env0 st = st1 ->
            quiet st1 -> db st1 = db st -> calls st1 = calls st ->
            (isEnabled p = false -> idleTimer st1 = None) ->
            settled (step e env0 env1 env2 (mkRendered p false, st)) /\
            ((now env1 - now env0 < 30000)%Z ->
             db (snd (step e env0 env1 env2 (mkRendered p false, st))) = db st /\
             calls (snd (step e env0 env1 env2 (mkRendered p false, st))) = calls st)).
  { intros st1 Hh Hq Hdb Hcalls Ht1. unfold step. cbn [fst snd props idle].
    rewrite Hh. pose proof Hq as (Hq1 & _). rewrite Hq1.
    destruct (pass_quiet (mkRendered p false) (mkRendered (propsAfter e (mkRendered p false)) false)
                env1 st1 eq_refl eq_refl Hq Ht1) as (Hq2 & Hdb2 & Hc2 & Ht2).
    set (st2 := activityEffect _ _ env1 st1) in *.
    pose proof Hq2 as (Hq21 & _). rewrite Hq21.
    destruct (pass_quiet (mkRendered (propsAfter e (mkRendered p false)) false)
                (mkRendered (propsAfter e (mkRendered p false)) false)
                env2 st2 eq_refl eq_refl Hq2 Ht2) as (Hq3 & Hdb3 & Hc3 & Ht3).
    set (st3 := activityEffect _ _ env2 st2) in *.
    destruct Hq3 as (Hq31 & Hq32 & Hq33).
    unfold settled. cbn [fst snd props idle].
    rewrite Hq31. repeat split; auto; congruence. }
  destruct e as [| | | |p'].
  - (* Activity *)
    apply (Hquiet _ eq_refl); unfold handle, resetIdleTimer, quiet;
      cbn [props idle]; destruct (isEnabled p) eqn:E;
      cbn [isIdle showIdleMessage idleStart idleTimer db calls]; auto; discriminate.
  - (* TimerFired *)
    destruct (idleTimer st) as [due|] eqn:Hdue.
    2:{ apply (Hquiet _ eq_refl); unfold handle, idleTimeout, quiet;
          rewrite ?Hdue; auto. }
    destruct (due <=? now env0)%Z eqn:Hfire.
    2:{ apply (Hquiet _ eq_refl); unfold handle, idleTimeout, quiet;
          rewrite ?Hdue, ?Hfire; auto.
        intros E. specialize (Htimer E). discriminate. }
    assert (He : isEnabled p = true).
    { destruct (isEnabled p); [reflexivity|]. specialize (Htimer eq_refl). discriminate. }
    unfold step. cbn [fst snd props idle propsAfter].
    assert (Hh : handle (mkRendered p false) TimerFired env0 st
                 = mkState true (idleTime st) true None (Some (now env0))
                     (lastActivity st) (db st) (calls st)).
    { unfold handle, idleTimeout. now rewrite Hdue, Hfire. }
    rewrite Hh. cbn [isIdle].
    set (st1 := mkState true _ _ _ _ _ _ _).
    destruct (pass_after_idle p env1 env2 st1 He eq_refl) as ((Hq1 & Hq2 & Hq3) & Hi2 & Hdb & Hc).
    cbv zeta in *.
    set (st2 := activityEffect (mkRendered p false) (mkRendered p true) env1 st1) in *.
    set (st3 := activityEffect (mkRendered p true) (mkRendered p (isIdle st2)) env2 st2) in *.
    unfold settled. cbn [fst snd props idle]. rewrite Hq1.
    split; [repeat split; auto; rewrite He; discriminate|].
    intros Hprompt. rewrite Hdb, Hc.
    unfold logIdleSession, st1. cbn [idleStart db calls].
    destruct (signedInUser p); [|auto].
    destruct (0 <? minutesBetween (now env0) (now env1))%Z eqn:Hm; [|auto].
    apply minutesBetween_pos in Hm. lia.
  - (* Tick *)
    apply (Hquiet _ eq_refl); unfold handle, idleTick, quiet; cbn [idle]; auto.
  - (* Dismiss *)
    apply (Hquiet _ eq_refl); unfold handle, quiet; rewrite ?Hshow; auto.
  - (* NewProps *)
    assert (Hq : quiet st) by (unfold quiet; auto).
    unfold step. cbn [fst snd props idle propsAfter handle]. rewrite Hidle.
    destruct (pass_quiet (mkRendered p false) (mkRendered p' false)
                env1 st eq_refl eq_refl Hq Htimer) as (Hq2 & Hdb2 & Hc2 & Ht2).
    set (st2 := activityEffect _ _ env1 st) in *.
    pose proof Hq2 as (Hq21 & _). rewrite Hq21.
    destruct (pass_quiet (mkRendered p' false) (mkRendered p' false)
                env2 st2 eq_refl eq_refl Hq2 Ht2) as (Hq3 & Hdb3 & Hc3 & Ht3).
    set (st3 := activityEffect _ _ env2 st2) in *.
    destruct Hq3 as (Hq31 & Hq32 & Hq33).
    unfold settled. cbn [fst snd props idle].
    rewrite Hq31. repeat split; auto; congruence.
Qed.

Lemma mount_settled p env : settled (mount p env).
Proof.
  unfold settled, mount, body, resetIdleTimer. cbn.
  destruct (isEnabled p); cbn; repeat split; auto; discriminate.
Qed.

Lemma logIdleSession_isIdle p env st :
  isIdle (logIdleSession p env st) = isIdle st.
Proof.
  unfold logIdleSession. destruct (signedInUser p), (idleStart st); try reflexivity.
  now destruct (0 <? _)%Z.
Qed.

Lemma activityEffect_isIdle r0 r1 env st :
  isIdle (activityEffect r0 r1 env st)
  = if depsChanged r0 r1 && isEnabled (props r1) && idle r1 then false
    else isIdle st.
Proof.
  unfold activityEffect. destruct (depsChanged r0 r1); [|reflexivity].
  unfold body, cleanup, resetIdleTimer.
  destruct (isEnabled (props r1)), (idle r1), (isEnabled (props r0)), (idle r0);
    cbn [andb isIdle]; rewrite ?logIdleSession_isIdle; reflexivity.
Qed.

Lemma depsChanged_same_props p i i' :
  depsChanged (mkRendered p i) (mkRendered p i') = negb (Bool.eqb i i').
Proof.
  unfold depsChanged. cbn [props idle].
  rewrite Bool.eqb_reflx, bool_decide_eq_true_2 by reflexivity.
  cbn [negb orb]. apply orb_false_r.
Qed.

(** Two passes of the effect are enough: the render after the second pass
    has the dependencies of the render before it. *)
Lemma step_two_passes e env0 env1 env2 c :
  let st1 := handle (fst c) e env0 (snd c) in
  let r1 := mkRendered (propsAfter e (fst c)) (isIdle st1) in
  let st2 := activityEffect (fst c) r1 env1 st1 in
  let r2 := mkRendered (props r1) (isIdle st2) in
  depsChanged r2 (fst (step e env0 env1 env2 c)) = false.
Proof.
  cbv zeta. unfold step. cbn [fst snd props idle].
  set (st1 := handle (fst c) e env0 (snd c)).
  set (p1 := propsAfter e (fst c)).
  set (st2 := activityEffect (fst c) (mkRendered p1 (isIdle st1)) env1 st1).
  assert (H12 : isIdle st2 = true -> isIdle st1 = true).
  { unfold st2. rewrite activityEffect_isIdle.
    destruct (_ && _ && _); [discriminate|auto]. }
  rewrite depsChanged_same_props, activityEffect_isIdle, depsChanged_same_props.
  cbn [props idle].
  destruct (isIdle st2) eqn:E2.
  - rewrite (H12 eq_refl). reflexivity.
  - now destruct (_ && _ && _).
Qed.

(** As written, the component never stays idle: whatever happens after it
    is mounted, once the effects have run it is not idle and its message is
    hidden, because the effect that follows the timeout resets the timer.
    And when every effect runs within 30 seconds of its event, no idle
    session is ever sent to the store. *)
Theorem idle_state_reset_by_effect p env events :
  let c := run events (mount p env) in
  isIdle (snd c) = false /\ showIdleMessage (snd c) = false /\
  (forallb prompt (map snd events) = true ->
   db (snd c) = [] /\ calls (snd c) = []).
Proof.
  cbv zeta.
  assert (H : forall c0, settled c0 ->
            settled (run events c0) /\
            (forallb prompt (map snd events) = true ->
             db (snd (run events c0)) = db (snd c0) /\
             calls (snd (run events c0)) = calls (snd c0))).
  { induction events as [|[e [[env0 env1] env2]] events IH]; intros c0 Hc0.
    - cbn. auto.
    - change (run ((e, (env0, env1, env2)) :: events) c0)
        with (run events (step e env0 env1 env2 c0)).
      destruct (step_settled e env0 env1 env2 c0 Hc0) as [Hs Hd].
      destruct (IH _ Hs) as [Hs' Hd']. split; [exact Hs'|].
      cbn [map forallb]. intros Hp. apply andb_true_iff in Hp as [Hp0 Hp].
      unfold prompt in Hp0. cbn in Hp0. apply Z.ltb_lt in Hp0.
      destruct (Hd Hp0) as [E1 E2]. destruct (Hd' Hp) as [E3 E4].
      split; congruence. }
  destruct (H _ (mount_settled p env)) as [(_ & Hi & Hm & _) Hd].
  split; [exact Hi|]. split; [exact Hm|].
  intros Hp. destruct (Hd Hp) as [-> ->].
  unfold mount, body, resetIdleTimer. cbn. destruct (isEnabled p); auto.
Qed.

(** Five minutes after the mount the timeout fires; the effect runs 20 ms
    later, and the component is back where it was, with a new timeout. *)
Definition mountedAt0 : Rendered * State :=
  mount (mkProps (Some "u1"%string) true) (mkEnv 0 true).

Example timeout_then_effect :
  snd (step TimerFired (mkEnv 300000 true) (mkEnv 300020 true) (mkEnv 300040 true)
         mountedAt0)
  = mkState false 0 false (Some 600040%Z) None 300040 [] [].
Proof. reflexivity. Qed.

(** Only an effect that runs half a minute late leaves a session behind. *)
Example timeout_then_late_effect :
  map durationMinutes
    (db (snd (step TimerFired (mkEnv 300000 true) (mkEnv 330000 true)
                (mkEnv 330020 true) mountedAt0)))
  = [1%Z].
Proof. reflexivity. Qed.

End IdleProofs.
